(** * go-mysql-transfer: the composite pipeline metadata store

    A shallow embedding of [dao.CompositePipelineDao] (the local bbolt bucket
    in front of a remote coordinator), of the package-level drivers
    [RefreshMetadata] and [OnSyncEvent], and of [httpapi.BatchEndpoint.Batch].

    Go values are modelled as follows.
    - [uint64] and [int32] are [Z]; the only arithmetic the code performs on
      them is [version + 1] on an [int32], written [int32_add] with its
      wrap-around.
    - [[]byte] is [list Byte.byte]; [string] is [string] (a sequence of 8-bit
      characters, as in Go).
    - an [error] result is [option error] ([None] is [nil]); a
      [(value, error)] result of the coordinator is a [Result], one of the
      composite DAO is the Go pair itself, a nil pointer being [None].
    - a pointer to a message that the callee mutates ([entity] in
      [CascadeUpdate]) is returned next to the result.
    - the process state (local bucket, remote coordinator, log output) is
      threaded explicitly as a [World]; a call that may panic returns an
      [Outcome].

    The local store is taken as reliable: [Put], [Delete] and the commit of
    a transaction do not fail, so a transaction fails only when its callback
    returns an error.  The coordinator may fail any call. *)

From Stdlib Require Import ZArith List String Ascii Bool Lia Sorted.
From Stdlib.Strings Require Byte.
Import ListNotations.

Local Open Scope Z_scope.

(** ** Scalars *)

Definition wrap_int32 (z : Z) : Z := (z + 2 ^ 31) mod 2 ^ 32 - 2 ^ 31.

(** Go's [a + b] on [int32]. *)
Definition int32_add (a b : Z) : Z := wrap_int32 (a + b).

Definition is_int32 (z : Z) : Prop := - 2 ^ 31 <= z < 2 ^ 31.

(** ** Errors *)

Inductive error : Type :=
| NotFound                (* errors.NotFoundf *)
| VersionConflict         (* remote compare-and-swap lost *)
| CoordinatorUnavailable  (* remote backend unreachable *)
| SerializationError      (* proto.Marshal / proto.Unmarshal *)
| StorageIOError.         (* bbolt *)

Inductive Result (A : Type) : Type :=
| OK (a : A)
| Err (e : error).
Arguments OK {A} a.
Arguments Err {A} e.

(** A Go call either returns or panics. *)
Inductive RefreshStep : Type :=
| ListVersions    (* SelectAllDataVersion *)
| ApplyVersions.  (* refreshAll *)

Inductive panic : Type :=
| PanicRefresh (kind : string) (step : RefreshStep) (e : error)  (* panic(fmt.Sprintf(...)) *)
| NilDereference.                                                (* field access through nil *)

Inductive Outcome (A : Type) : Type :=
| Returned (a : A)
| Panicked (p : panic).
Arguments Returned {A} a.
Arguments Panicked {A} p.

(** ** Messages of package [po], [vo] and [bo] *)

Record PipelineInfo : Type := mkPipelineInfo {
  Id : Z;             (* uint64 *)
  Name : string;
  SourceId : Z;       (* uint64 *)
  EndpointId : Z;     (* uint64 *)
  EndpointType : Z;   (* int32 *)
  Status : Z;         (* uint32 *)
  DataVersion : Z     (* int32 *)
}.

(** [entity.DataVersion = v] on a message held by pointer. *)
Definition set_DataVersion (entity : PipelineInfo) (v : Z) : PipelineInfo :=
  {| Id := Id entity; Name := Name entity; SourceId := SourceId entity;
     EndpointId := EndpointId entity; EndpointType := EndpointType entity;
     Status := Status entity; DataVersion := v |}.

Module MetadataVersion.
Record t : Type := mk { Id : Z; Version : Z }.
End MetadataVersion.

Module PipelineInfoParams.
Record t : Type := mk {
  Name : string;
  SourceId : Z;
  EndpointId : Z;
  EndpointType : Z;
  Enable : bool
}.
End PipelineInfoParams.

Inductive SyncEventType : Type :=
| SyncEventTypeSource
| SyncEventTypeEndpoint
| SyncEventTypePipeline
| SyncEventTypeOther (n : Z).

Module SyncEvent.
Record t : Type := mk { Type_ : SyncEventType; Id : Z; Version : Z }.
End SyncEvent.

(** ** The local bbolt bucket

    A bucket is read through a cursor in key order.  Keys are
    [marshalId id], the 8-byte big-endian image of the id, whose byte order
    is the numeric order of ids; the bucket is kept here as the cursor's
    sequence of [(id, value)] pairs in increasing id. *)

Definition Bucket : Type := list (Z * list Byte.byte).

Fixpoint bucket_Get (k : Z) (b : Bucket) : option (list Byte.byte) :=
  match b with
  | [] => None
  | (k', v) :: rest => if k =? k' then Some v else bucket_Get k rest
  end.

Fixpoint bucket_Put (k : Z) (v : list Byte.byte) (b : Bucket) : Bucket :=
  match b with
  | [] => [(k, v)]
  | (k', v') :: rest =>
      if k <? k' then (k, v) :: b
      else if k =? k' then (k, v) :: rest
      else (k', v') :: bucket_Put k v rest
  end.

Fixpoint bucket_Delete (k : Z) (b : Bucket) : Bucket :=
  match b with
  | [] => []
  | (k', v) :: rest =>
      if k =? k' then bucket_Delete k rest else (k', v) :: bucket_Delete k rest
  end.

(** The keys of a bucket are distinct and met in increasing order. *)
Definition bucket_sorted (b : Bucket) : Prop := StronglySorted Z.lt (map fst b).

(** [DB.Update(fn)]: [fn] works on the transaction's copy of the bucket; a
    [nil] result commits it, an error rolls it back.  What [fn] did outside
    the database (state [S]: the remote coordinator) is not undone. *)
Definition db_Update {S : Type}
    (fn : Bucket -> S -> Bucket * S * option error)
    (db : Bucket) (s : S) : Bucket * S * option error :=
  let '(tx, s', err) := fn db s in
  match err with
  | None => (tx, s', None)
  | Some e => (db, s', Some e)
  end.

(** ** The remote coordinator *)

Inductive RemoteCall : Type :=
| CallUpdate (id : Z) (version : Z)
| CallGetDataVersion (id : Z)
| CallGet (id : Z)
| CallSelectAllDataVersion.

(** Modelled from the spec: the [PipelineDao] implementations (zookeeper,
    mysql) are not part of the sources; only the interface is.  The
    coordinator holds the canonical entities; [update] is a compare-and-swap
    on the stored version; [get] of an id it does not hold yields no entity.
    [script] says, call by call, whether the backend answers ([None]) or
    fails with the given error; [calls] records the calls made. *)
Record Remote : Type := mkRemote {
  entities : list PipelineInfo;
  script : list (option error);
  calls : list RemoteCall
}.

Definition remote_find (id : Z) (r : Remote) : option PipelineInfo :=
  find (fun e => Id e =? id) (entities r).

Definition stored_version (id : Z) (r : Remote) : option Z :=
  option_map DataVersion (remote_find id r).

Definition remote_call (c : RemoteCall) (r : Remote) : Remote * option error :=
  ({| entities := entities r; script := tl (script r); calls := calls r ++ [c] |},
   match script r with
   | Some e :: _ => Some e
   | _ => None
   end).

Definition set_entities (r : Remote) (l : list PipelineInfo) : Remote :=
  {| entities := l; script := script r; calls := calls r |}.

Fixpoint replace_entity (e : PipelineInfo) (l : list PipelineInfo) : list PipelineInfo :=
  match l with
  | [] => []
  | x :: rest => if Id x =? Id e then e :: rest else x :: replace_entity e rest
  end.

Definition remote_GetDataVersion (id : Z) (r : Remote) : Remote * Result Z :=
  let (r1, down) := remote_call (CallGetDataVersion id) r in
  match down with
  | Some e => (r1, Err e)
  | None =>
      match remote_find id r1 with
      | Some x => (r1, OK (DataVersion x))
      | None => (r1, Err NotFound)
      end
  end.

Definition remote_Get (id : Z) (r : Remote) : Remote * Result (option PipelineInfo) :=
  let (r1, down) := remote_call (CallGet id) r in
  match down with
  | Some e => (r1, Err e)
  | None => (r1, OK (remote_find id r1))
  end.

Definition remote_Update (entity : PipelineInfo) (version : Z) (r : Remote)
  : Remote * option error :=
  let (r1, down) := remote_call (CallUpdate (Id entity) version) r in
  match down with
  | Some e => (r1, Some e)
  | None =>
      match remote_find (Id entity) r1 with
      | None => (r1, Some NotFound)
      | Some x =>
          if DataVersion x =? version
          then (set_entities r1 (replace_entity entity (entities r1)), None)
          else (r1, Some VersionConflict)
      end
  end.

Definition remote_SelectAllDataVersion (r : Remote)
  : Remote * Result (list MetadataVersion.t) :=
  let (r1, down) := remote_call CallSelectAllDataVersion r in
  match down with
  | Some e => (r1, Err e)
  | None =>
      (r1, OK (map (fun e => MetadataVersion.mk (Id e) (DataVersion e)) (entities r1)))
  end.

(** ** Log output *)

Inductive LogRecord : Type :=
| Infof_CascadeUpdate (name : string) (version : Z)
| Infof_refreshAll_deletions (n : nat)
| Infof_refreshAll_ignore (name : string) (localVersion remoteVersion : Z)
| Infof_refreshAll_refresh (name : string) (localVersion remoteVersion : Z)
| Infof_refreshAll_total (n : nat)
| Infof_refreshOne_delete (name : string) (version : Z)
| Infof_refreshOne_refresh (id : Z) (name : string) (localVersion remoteVersion : Z)
| Error_ (e : error)
| Errorf_refresh (kind : string) (e : error).

(** ** Process state *)

Record World : Type := mkWorld {
  local : Bucket;          (* _local, bucket _pipelineBucket *)
  remote : Remote;         (* _remotePipelineDao *)
  logs : list LogRecord
}.

Definition set_local (w : World) (b : Bucket) : World :=
  {| local := b; remote := remote w; logs := logs w |}.

Definition set_remote (w : World) (r : Remote) : World :=
  {| local := local w; remote := r; logs := logs w |}.

Definition log (l : LogRecord) (w : World) : World :=
  {| local := local w; remote := remote w; logs := logs w ++ [l] |}.

(** ** strings.Contains *)

Fixpoint Contains (s substr : string) : bool :=
  String.prefix substr s
  || match s with
     | EmptyString => false
     | String _ s' => Contains s' substr
     end.

(** ** Byte encodings *)

Definition byte_of_Z (z : Z) : Byte.byte :=
  match Byte.of_N (Z.to_N (z mod 256)) with
  | Some b => b
  | None => Byte.x00
  end.

Definition Z_of_byte (b : Byte.byte) : Z := Z.of_N (Byte.to_N b).

(** Big-endian image of [z] on [n] bytes ([binary.BigEndian.PutUint64] for
    [n = 8]) and its inverse. *)
Fixpoint be_encode (n : nat) (z : Z) : list Byte.byte :=
  match n with
  | O => []
  | S k => be_encode k (z / 256) ++ [byte_of_Z z]
  end.

Definition be_decode (l : list Byte.byte) : Z :=
  fold_left (fun acc b => acc * 256 + Z_of_byte b) l 0.

Definition marshalId (id : Z) : list Byte.byte := be_encode 8 id.

Definition BytesToUint64 (k : list Byte.byte) : Z := be_decode k.

(** [bytes.Compare], the order of the keys of a bucket. *)
Fixpoint bytes_compare (a b : list Byte.byte) : comparison :=
  match a, b with
  | [], [] => Eq
  | [], _ :: _ => Lt
  | _ :: _, [] => Gt
  | x :: a', y :: b' =>
      match Z_of_byte x ?= Z_of_byte y with
      | Eq => bytes_compare a' b'
      | c => c
      end
  end.

(** A reference wire format for [PipelineInfo], used to run the model on
    sample stores: three 8-byte ids, three 4-byte numbers, then the name.
    [proto.Marshal] fails on a message it cannot encode; here, one with a
    field outside its Go type. *)
Definition uint_ok (bits z : Z) : bool := (0 <=? z) && (z <? 2 ^ bits).

Definition int32_ok (z : Z) : bool := (- 2 ^ 31 <=? z) && (z <? 2 ^ 31).

Definition wire_Marshal (e : PipelineInfo) : Result (list Byte.byte) :=
  if uint_ok 64 (Id e) && uint_ok 64 (SourceId e) && uint_ok 64 (EndpointId e)
     && int32_ok (EndpointType e) && uint_ok 32 (Status e) && int32_ok (DataVersion e)
  then OK (be_encode 8 (Id e) ++ be_encode 8 (SourceId e) ++ be_encode 8 (EndpointId e)
           ++ be_encode 4 (EndpointType e mod 2 ^ 32) ++ be_encode 4 (Status e)
           ++ be_encode 4 (DataVersion e mod 2 ^ 32)
           ++ list_byte_of_string (Name e))
  else Err SerializationError.

Definition zero_PipelineInfo : PipelineInfo :=
  mkPipelineInfo 0 EmptyString 0 0 0 0 0.

Definition wire_Unmarshal (data : list Byte.byte) : PipelineInfo * option error :=
  if (List.length data <? 36)%nat then (zero_PipelineInfo, Some SerializationError)
  else
    let f1 := firstn 8 data in let d1 := skipn 8 data in
    let f2 := firstn 8 d1 in let d2 := skipn 8 d1 in
    let f3 := firstn 8 d2 in let d3 := skipn 8 d2 in
    let f4 := firstn 4 d3 in let d4 := skipn 4 d3 in
    let f5 := firstn 4 d4 in let d5 := skipn 4 d4 in
    let f6 := firstn 4 d5 in let d6 := skipn 4 d5 in
    (mkPipelineInfo (be_decode f1) (string_of_list_byte d6) (be_decode f2) (be_decode f3)
       (wrap_int32 (be_decode f4)) (be_decode f5) (wrap_int32 (be_decode f6)),
     None).

(** * The data-access layer *)

Section Dao.

(** [proto.Marshal] and [proto.Unmarshal] for [po.PipelineInfo].
    [Unmarshal data] gives the message as the call leaves it (it is reset
    first, so this does not depend on what it held) and the error. *)
Variable Marshal : PipelineInfo -> Result (list Byte.byte).
Variable Unmarshal : list Byte.byte -> PipelineInfo * option error.

(** [constants.PipelineInfoStatusDisable]. *)
Variable PipelineInfoStatusDisable : Z.

(** ** CompositePipelineDao *)

Definition Save (entity : PipelineInfo) (w : World) : World * option error :=
  let '(db, _, err) :=
    db_Update (fun tx (u : unit) =>
      match Marshal entity with
      | Err e => (tx, u, Some e)
      | OK data => (bucket_Put (Id entity) data tx, u, None)
      end) (local w) tt in
  (set_local w db, err).

Definition CascadeUpdate (entity : PipelineInfo) (w : World)
  : World * PipelineInfo * (Z * option error) :=
  let (r1, got) := remote_GetDataVersion (Id entity) (remote w) in
  match got with
  | Err e => (set_remote w r1, entity, (0, Some e))
  | OK version =>
      let entity := set_DataVersion entity (int32_add version 1) in
      let '(db, r2, err) :=
        db_Update (fun tx r =>
          match Marshal entity with
          | Err e => (tx, r, Some e)
          | OK data =>
              let tx := bucket_Put (Id entity) data tx in
              let (r', err) := remote_Update entity version r in
              (tx, r', err)
          end) (local w) r1 in
      let w := {| local := db; remote := r2; logs := logs w |} in
      match err with
      | Some e => (w, entity, (version, Some e))
      | None =>
          (log (Infof_CascadeUpdate (Name entity) version) w, entity,
           (DataVersion entity, None))
      end
  end.

Definition Delete (id : Z) (w : World) : World * option error :=
  let '(db, _, err) :=
    db_Update (fun tx (u : unit) => (bucket_Delete id tx, u, None)) (local w) tt in
  (set_local w db, err).

(** [PipelineDao.Insert] and [PipelineDao.Delete] of the coordinator are not
    part of the sources: they are parameters. *)
Variable remote_Insert : PipelineInfo -> Remote -> Remote * option error.
Variable remote_Delete : Z -> Remote -> Remote * option error.

(** The line that [CascadeInsert] or [CascadeDelete] writes with [log.Infof];
    it is returned beside the world. *)
Inductive CascadeLog : Type :=
| Infof_CascadeInsert (name : string)
| Infof_CascadeDelete (id : Z).

Definition CascadeInsert (entity : PipelineInfo) (w : World)
  : World * option CascadeLog * option error :=
  let '(db, r, err) :=
    db_Update (fun tx r =>
      match Marshal entity with
      | Err e => (tx, r, Some e)
      | OK data =>
          let tx := bucket_Put (Id entity) data tx in
          let (r', err) := remote_Insert entity r in
          (tx, r', err)
      end) (local w) (remote w) in
  let w := {| local := db; remote := r; logs := logs w |} in
  match err with
  | None => (w, Some (Infof_CascadeInsert (Name entity)), None)
  | Some e => (w, None, Some e)
  end.

Definition CascadeDelete (id : Z) (w : World)
  : World * option CascadeLog * option error :=
  let '(db, r, err) :=
    db_Update (fun tx r =>
      let tx := bucket_Delete id tx in
      let (r', err) := remote_Delete id r in
      (tx, r', err)) (local w) (remote w) in
  let w := {| local := db; remote := r; logs := logs w |} in
  match err with
  | None => (w, Some (Infof_CascadeDelete id), None)
  | Some e => (w, None, Some e)
  end.

(** The result is the Go pair: pointer to the message (or nil) and error. *)
Definition Get (id : Z) (w : World) : option PipelineInfo * option error :=
  match bucket_Get id (local w) with
  | None => (None, Some NotFound)
  | Some data =>
      let (entity, err) := Unmarshal data in
      match err with
      | Some e => (None, Some e)
      | None => (Some entity, None)
      end
  end.

(** The cursor loop of [GetByParam]; [entity] and [found] are the variables
    the closure shares with the function body. *)
Fixpoint GetByParam_loop (params : PipelineInfoParams.t) (cursor : Bucket)
    (entity : PipelineInfo) (found : bool) : PipelineInfo * bool :=
  match cursor with
  | [] => (entity, found)
  | (_, v) :: next =>
      let (entity, err) := Unmarshal v in
      match err with
      | None =>
          if negb (PipelineInfoParams.Name params =? "")%string
             && negb (Name entity =? PipelineInfoParams.Name params)%string
          then GetByParam_loop params next entity found
          else if negb (PipelineInfoParams.SourceId params =? 0)
                  && negb (SourceId entity =? PipelineInfoParams.SourceId params)
          then GetByParam_loop params next entity found
          else if negb (PipelineInfoParams.EndpointId params =? 0)
                  && negb (EndpointId entity =? PipelineInfoParams.EndpointId params)
          then GetByParam_loop params next entity found
          else (entity, true)
      | Some _ => GetByParam_loop params next entity found
      end
  end.

Definition GetByParam (params : PipelineInfoParams.t) (w : World)
  : World * (option PipelineInfo * option error) :=
  let (entity, found) := GetByParam_loop params (local w) zero_PipelineInfo false in
  let err : option error := None in   (* the View callback returns nil *)
  match err with
  | Some e => (log (Error_ e) w, (None, Some e))
  | None =>
      if negb found then (w, (None, Some NotFound))
      else (w, (Some entity, None))
  end.

Fixpoint SelectList_loop (params : PipelineInfoParams.t) (cursor : Bucket)
    (list : list PipelineInfo) : Datatypes.list PipelineInfo :=
  match cursor with
  | [] => list
  | (_, v) :: next =>
      let (entity, err) := Unmarshal v in
      match err with
      | None =>
          if negb (PipelineInfoParams.Name params =? "")%string
             && negb (Contains (Name entity) (PipelineInfoParams.Name params))
          then SelectList_loop params next list
          else if negb (PipelineInfoParams.SourceId params =? 0)
                  && negb (SourceId entity =? PipelineInfoParams.SourceId params)
          then SelectList_loop params next list
          else if negb (PipelineInfoParams.EndpointId params =? 0)
                  && negb (EndpointId entity =? PipelineInfoParams.EndpointId params)
          then SelectList_loop params next list
          else if negb (PipelineInfoParams.EndpointType params =? 0)
                  && negb (EndpointType entity =? PipelineInfoParams.EndpointType params)
          then SelectList_loop params next list
          else if PipelineInfoParams.Enable params
                  && (Status entity =? PipelineInfoStatusDisable)
          then SelectList_loop params next list
          else SelectList_loop params next (list ++ [entity])
      | Some _ => SelectList_loop params next list
      end
  end.

Definition SelectList (params : PipelineInfoParams.t) (w : World)
  : World * (list PipelineInfo * option error) :=
  let list := SelectList_loop params (local w) [] in
  let err : option error := None in   (* the View callback returns nil *)
  match err with
  | Some e => (log (Error_ e) w, ([], Some e))
  | None => (w, (list, None))
  end.

Definition refreshAll_deletions (locals : list Z) (standards : list MetadataVersion.t)
  : list Z :=
  filter (fun id =>
            (* isRemove *)
            negb (existsb (fun standard => id =? MetadataVersion.Id standard) standards))
         locals.

(** [nil != entity && entity.DataVersion >= standard.Version]: the local
    copy, when it is at least as recent as the manifest entry. *)
Definition refreshAll_fresh (entity : option PipelineInfo) (standard : MetadataVersion.t)
  : option PipelineInfo :=
  match entity with
  | Some ent =>
      if DataVersion ent >=? MetadataVersion.Version standard then Some ent else None
  | None => None
  end.

(** The second loop of [refreshAll]: one pass over the manifest that
    collects the bodies to write. *)
Fixpoint refreshAll_updates (standards : list MetadataVersion.t) (w : World)
    (updates : list PipelineInfo) : World * Outcome (Result (list PipelineInfo)) :=
  match standards with
  | [] => (w, Returned (OK updates))
  | standard :: next =>
      let (entity, _) := Get (MetadataVersion.Id standard) w in
      match refreshAll_fresh entity standard with
      | Some ent =>
          refreshAll_updates next
            (log (Infof_refreshAll_ignore (Name ent) (DataVersion ent)
                    (MetadataVersion.Version standard)) w)
            updates
      | None =>
          let version :=
            match entity with
            | Some ent => DataVersion ent
            | None => -1
            end in
          let (r1, got) := remote_Get (MetadataVersion.Id standard) (remote w) in
          match got with
          | Err e => (set_remote w r1, Returned (Err e))
          | OK None => (set_remote w r1, Panicked NilDereference)
          | OK (Some standardEntity) =>
              refreshAll_updates next
                (log (Infof_refreshAll_refresh (Name standardEntity) version
                        (MetadataVersion.Version standard)) (set_remote w r1))
                (updates ++ [standardEntity])
          end
      end
  end.

Fixpoint refreshAll_puts (updates : list PipelineInfo) (tx : Bucket)
  : Bucket * option error :=
  match updates with
  | [] => (tx, None)
  | update :: next =>
      match Marshal update with
      | Err e => (tx, Some e)
      | OK data => refreshAll_puts next (bucket_Put (Id update) data tx)
      end
  end.

Definition refreshAll (standards : list MetadataVersion.t) (w : World)
  : World * Outcome (option error) :=
  let locals := map fst (local w) in
  let deletions := refreshAll_deletions locals standards in
  let w := log (Infof_refreshAll_deletions (List.length deletions)) w in
  let (w, collected) := refreshAll_updates standards w [] in
  match collected with
  | Panicked p => (w, Panicked p)
  | Returned (Err e) => (w, Returned (Some e))
  | Returned (OK updates) =>
      let '(db, _, err) :=
        db_Update (fun tx (u : unit) =>
          let tx := fold_left (fun tx deletion => bucket_Delete deletion tx) deletions tx in
          let (tx, err) := refreshAll_puts updates tx in
          (tx, u, err)) (local w) tt in
      let w := set_local w db in
      match err with
      | Some e => (w, Returned (Some e))
      | None =>
          (log (Infof_refreshAll_total (List.length deletions + List.length updates)) w,
           Returned None)
      end
  end.

Definition refreshOne (id standardVersion : Z) (w : World) : World * option error :=
  let (r1, got) := remote_Get id (remote w) in
  let w := set_remote w r1 in
  match got with
  | Err e => (w, Some e)
  | OK standardEntity =>
      let (entity, err) := Get id w in
      match err with
      | Some e => (w, Some e)
      | None =>
          let version :=
            match entity with
            | Some ent => DataVersion ent
            | None => -1
            end in
          match standardEntity, entity with
          | None, Some ent =>
              Delete id (log (Infof_refreshOne_delete (Name ent) (DataVersion ent)) w)
          | Some std, _ =>
              if version <? standardVersion
              then Save std
                     (log (Infof_refreshOne_refresh id (Name std) version (DataVersion std)) w)
              else (w, None)
          | None, None => (w, None)
          end
      end
  end.

(** ** Package-level drivers

    [CompositeSourceDao], [CompositeEndpointDao] and their remote DAOs are
    not part of the sources: their calls are parameters. *)
Variable remoteSourceDao_SelectAllDataVersion
  : World -> World * Result (list MetadataVersion.t).
Variable compositeSourceDao_refreshAll
  : list MetadataVersion.t -> World -> World * Outcome (option error).
Variable compositeSourceDao_refreshOne : Z -> Z -> World -> World * Outcome (option error).
Variable remoteEndpointDao_SelectAllDataVersion
  : World -> World * Result (list MetadataVersion.t).
Variable compositeEndpointDao_refreshAll
  : list MetadataVersion.t -> World -> World * Outcome (option error).
Variable compositeEndpointDao_refreshOne : Z -> Z -> World -> World * Outcome (option error).

Definition remotePipelineDao_SelectAllDataVersion (w : World)
  : World * Result (list MetadataVersion.t) :=
  let (r1, got) := remote_SelectAllDataVersion (remote w) in
  (set_remote w r1, got).

(** One of the three blocks of [RefreshMetadata]: list the versions, then
    [refreshAll]; an error from either panics. *)
Definition RefreshMetadata_block (kind : string)
    (SelectAllDataVersion : World -> World * Result (list MetadataVersion.t))
    (refreshAll' : list MetadataVersion.t -> World -> World * Outcome (option error))
    (w : World) : World * Outcome unit :=
  let (w, listed) := SelectAllDataVersion w in
  match listed with
  | Err e => (w, Panicked (PanicRefresh kind ListVersions e))
  | OK standards =>
      let (w, done) := refreshAll' standards w in
      match done with
      | Panicked p => (w, Panicked p)
      | Returned (Some e) => (w, Panicked (PanicRefresh kind ApplyVersions e))
      | Returned None => (w, Returned tt)
      end
  end.

Definition RefreshMetadata (w : World) : World * Outcome unit :=
  let (w, o) :=
    RefreshMetadata_block "SourceInfo" remoteSourceDao_SelectAllDataVersion
      compositeSourceDao_refreshAll w in
  match o with
  | Panicked p => (w, Panicked p)
  | Returned _ =>
      let (w, o) :=
        RefreshMetadata_block "EndpointInfo" remoteEndpointDao_SelectAllDataVersion
          compositeEndpointDao_refreshAll w in
      match o with
      | Panicked p => (w, Panicked p)
      | Returned _ =>
          RefreshMetadata_block "PipelineInfo" remotePipelineDao_SelectAllDataVersion
            refreshAll w
      end
  end.

(** One case of the switch of [OnSyncEvent]: the error of [refreshOne], if
    any, is logged with [log.Errorf]. *)
Definition OnSyncEvent_case (kind : string) (done : World * Outcome (option error))
  : World * Outcome unit :=
  let (w, o) := done in
  match o with
  | Panicked p => (w, Panicked p)
  | Returned (Some e) => (log (Errorf_refresh kind e) w, Returned tt)
  | Returned None => (w, Returned tt)
  end.

Definition OnSyncEvent (event : SyncEvent.t) (w : World) : World * Outcome unit :=
  match SyncEvent.Type_ event with
  | SyncEventTypeSource =>
      OnSyncEvent_case "SourceInfo"
        (compositeSourceDao_refreshOne (SyncEvent.Id event) (SyncEvent.Version event) w)
  | SyncEventTypeEndpoint =>
      OnSyncEvent_case "EndpointInfo"
        (compositeEndpointDao_refreshOne (SyncEvent.Id event) (SyncEvent.Version event) w)
  | SyncEventTypePipeline =>
      OnSyncEvent_case "PipelineInfo"
        (let (w, err) := refreshOne (SyncEvent.Id event) (SyncEvent.Version event) w in
         (w, Returned err))
  | SyncEventTypeOther _ => (w, Returned tt)
  end.

End Dao.

(** * httpapi.BatchEndpoint *)

Section BatchEndpoint.

(** [bo.RowEventRequest], [bo.RuleContext], [primitive.Message]; [Env] is
    what the parsers may touch (the Lua state and the endpoint).
    [Endpoint.parseByLua] and [Endpoint.parseByRegular] are not part of the
    sources: they are parameters. *)
Variables RowEventRequest RuleContext Message Env : Type.
Variable IsLuaEnable : RuleContext -> bool.
Variable parseByLua : RowEventRequest -> RuleContext -> Env -> Env * option error.
Variable parseByRegular : RowEventRequest -> RuleContext -> Env -> Env * option error.

(** [for _, request := range requests], leaving at the first error. *)
Fixpoint Batch_range (parse : RowEventRequest -> RuleContext -> Env -> Env * option error)
    (requests : list RowEventRequest) (ctx : RuleContext) (env : Env)
  : Env * option error :=
  match requests with
  | [] => (env, None)
  | request :: next =>
      let (env, err) := parse request ctx env in
      match err with
      | Some e => (env, Some e)
      | None => Batch_range parse next ctx env
      end
  end.

Definition Batch (requests : list RowEventRequest) (ctx : RuleContext) (env : Env)
  : Env * (Z * option error) :=
  let messages : list Message := [] in
  let (env, err) :=
    if IsLuaEnable ctx then Batch_range parseByLua requests ctx env
    else Batch_range parseByRegular requests ctx env in
  match err with
  | Some e => (env, (0, Some e))
  | None =>
      if (List.length messages =? 0)%nat then (env, (0, None))
      else (env, (Z.of_nat (List.length messages), None))
  end.

(** Every parse step of the run over [requests] returns a nil error. *)
Fixpoint all_parsed (parse : RowEventRequest -> RuleContext -> Env -> Env * option error)
    (requests : list RowEventRequest) (ctx : RuleContext) (env : Env) : Prop :=
  match requests with
  | [] => True
  | request :: next =>
      snd (parse request ctx env) = None
      /\ all_parsed parse next ctx (fst (parse request ctx env))
  end.

End BatchEndpoint.

Arguments Batch_range {RowEventRequest RuleContext Env} parse requests ctx env.
Arguments all_parsed {RowEventRequest RuleContext Env} parse requests ctx env.
Arguments Batch {RowEventRequest RuleContext} Message {Env}
  IsLuaEnable parseByLua parseByRegular requests ctx env.

(** * dao.Initialize *)

Inductive ClusterCoordinator : Type :=
| ClusterCoordinatorEtcd
| ClusterCoordinatorZookeeper
| ClusterCoordinatorMySQL
| ClusterCoordinatorOther (n : Z).

Module AppConfig.
Record t : Type := mk { IsCluster : bool; GetClusterCoordinator : ClusterCoordinator }.
End AppConfig.

(** What a package-level DAO variable is bound to; [None] is the nil it
    holds before [Initialize] assigns it.  A mysql DAO for metadata carries
    its [MetadataType]. *)
Inductive DaoImpl : Type :=
| LocalDao                        (* LocalPositionDao, LocalStateDao *)
| ZookeeperDao                    (* package zookeeper *)
| MySQLDao                        (* package mysql *)
| MySQLMetadataDao (MetadataType : Z).

Record Daos : Type := mkDaos {
  compositeSourceDao : bool;      (* non-nil *)
  compositeEndpointDao : bool;
  compositePipelineDao : bool;
  positionDao : option DaoImpl;
  stateDao : option DaoImpl;
  machineDao : option DaoImpl;
  remoteSourceDao : option DaoImpl;
  remoteEndpointDao : option DaoImpl;
  remotePipelineDao : option DaoImpl
}.

(** The variables as the package declares them: all nil. *)
Definition nil_Daos : Daos :=
  mkDaos false false false None None None None None None.

Definition _metadataTypeSource : Z := 1.
Definition _metadataTypeEndpoint : Z := 2.
Definition _metadataTypePipeline : Z := 3.

(** The error of [Initialize]: the one an initializer returned, or the one
    it makes for a coordinator it does not know. *)
Inductive InitializeError : Type :=
| InitializerError (e : error)
| NoCoordinatorConfigured.

(** [initializeBoltDB], [zookeeper.Initialize] and [mysql.Initialize] open
    files and connections; their results are arguments.  [d] holds the
    package-level variables. *)
Definition Initialize (config : AppConfig.t)
    (initializeBoltDB zookeeper_Initialize mysql_Initialize : option error)
    (d : Daos) : Daos * option InitializeError :=
  match initializeBoltDB with
  | Some err => (d, Some (InitializerError err))
  | None =>
      let d := mkDaos true true true (positionDao d) (stateDao d) (machineDao d)
                 (remoteSourceDao d) (remoteEndpointDao d) (remotePipelineDao d) in
      if AppConfig.IsCluster config then
        match AppConfig.GetClusterCoordinator config with
        | ClusterCoordinatorEtcd => (d, None)
        | ClusterCoordinatorZookeeper =>
            match zookeeper_Initialize with
            | Some err => (d, Some (InitializerError err))
            | None =>
                (mkDaos true true true (Some ZookeeperDao) (Some ZookeeperDao)
                   (Some ZookeeperDao) (Some ZookeeperDao) (Some ZookeeperDao)
                   (Some ZookeeperDao), None)
            end
        | ClusterCoordinatorMySQL =>
            match mysql_Initialize with
            | Some err => (d, Some (InitializerError err))
            | None =>
                (mkDaos true true true (Some MySQLDao) (Some MySQLDao) (Some MySQLDao)
                   (Some (MySQLMetadataDao _metadataTypeSource))
                   (Some (MySQLMetadataDao _metadataTypeEndpoint))
                   (Some (MySQLMetadataDao _metadataTypePipeline)), None)
            end
        | ClusterCoordinatorOther _ => (d, Some NoCoordinatorConfigured)
        end
      else
        (mkDaos true true true (Some LocalDao) (Some LocalDao) (machineDao d)
           (remoteSourceDao d) (remoteEndpointDao d) (remotePipelineDao d), None)
  end.

(** * bolt.EndpointInfoDaoImpl *)

Module bolt.

Record EndpointInfo : Type := mkEndpointInfo {
  Id : Z;             (* uint64 *)
  Name : string;
  Addresses : string
}.

Inductive LogRecord : Type :=
| Errorf (e : error)
| Warnf_not_found (name : string).

Section EndpointInfoDaoImpl.

(** [proto.Unmarshal] for [po.EndpointInfo]: the message as the call leaves
    it, and the error. *)
Variable Unmarshal : list Byte.byte -> EndpointInfo * option error.

(** The cursor loop of [GetByName], from [First] by [Next]; [entity] and
    [found] are shared with the function body. *)
Fixpoint GetByName_loop (name : string) (cursor : Bucket)
    (entity : EndpointInfo) (found : bool) : EndpointInfo * bool :=
  match cursor with
  | [] => (entity, found)
  | (_, v) :: next =>
      let (entity, err) := Unmarshal v in
      match err with
      | None =>
          if (name =? Name entity)%string then (entity, true)
          else GetByName_loop name next entity found
      | Some _ => GetByName_loop name next entity found
      end
  end.

(** The state is the endpoint bucket of [_conn], in cursor order; the result
    carries the log lines written. *)
Definition GetByName (name : string) (b : Bucket)
  : list LogRecord * (option EndpointInfo * option error) :=
  let (entity, found) := GetByName_loop name b (mkEndpointInfo 0 EmptyString EmptyString) false in
  let err : option error := None in   (* the View callback returns nil *)
  match err with
  | Some e => ([Errorf e], (None, Some e))
  | None =>
      if negb found then ([Warnf_not_found name], (None, Some NotFound))
      else ([], (Some entity, None))
  end.

(** The cursor loop of [SelectList]; [cursor] is the sequence the cursor
    yields. *)
Fixpoint SelectList_loop (name host : string) (cursor : Bucket)
    (list : list EndpointInfo) : Datatypes.list EndpointInfo :=
  match cursor with
  | [] => list
  | (_, v) :: next =>
      let (entity, err) := Unmarshal v in
      match err with
      | None =>
          if negb (name =? "")%string && negb (Contains (Name entity) name)
          then SelectList_loop name host next list
          else if negb (host =? "")%string && negb (Contains (Addresses entity) host)
          then SelectList_loop name host next list
          else SelectList_loop name host next (list ++ [entity])
      | Some _ => SelectList_loop name host next list
      end
  end.

(** The cursor starts at [Last] and moves by [Prev]: it yields the bucket
    backwards. *)
Definition SelectList (name host : string) (b : Bucket)
  : list EndpointInfo * option error :=
  let list := SelectList_loop name host (rev b) [] in
  let err : option error := None in   (* the View callback returns nil *)
  match err with
  | Some e => ([], Some e)
  | None => (list, None)
  end.

End EndpointInfoDaoImpl.

End bolt.

(** * sysutils *)

Module sysutils.

(** [strings.Replace(dir, "\\", "/", -1)]: every backslash becomes a slash. *)
Fixpoint Replace_backslash (dir : string) : string :=
  match dir with
  | EmptyString => EmptyString
  | String c rest =>
      String (if Ascii.eqb c "\"%char then "/"%char else c) (Replace_backslash rest)
  end.

(** [abs] is the result of [filepath.Abs(filepath.Dir(os.Args[0]))]: the
    path, or the empty string with an error.  The error is handed to
    [fmt.Errorf], whose result is dropped. *)
Definition CurrentDirectory (abs : string * option error) : string :=
  let (dir, err) := abs in
  Replace_backslash dir.

End sysutils.

(** * Sample stores *)

Definition pipeline (id : Z) (name : string) (version : Z) : PipelineInfo :=
  mkPipelineInfo id name 10 20 0 0 version.

Definition stored (e : PipelineInfo) : list Byte.byte :=
  match wire_Marshal e with
  | OK data => data
  | Err _ => []
  end.

(** Bytes that are no message. *)
Definition corrupt : list Byte.byte := [Byte.xff].

Definition coordinator (l : list PipelineInfo) (script : list (option error)) : Remote :=
  mkRemote l script [].

Definition world (b : Bucket) (r : Remote) : World := mkWorld b r [].

(** Stand-ins for the source and endpoint DAOs: nothing to refresh. *)
Definition no_versions (w : World) : World * Result (list MetadataVersion.t) := (w, OK []).

Definition no_refreshAll (_ : list MetadataVersion.t) (w : World)
  : World * Outcome (option error) := (w, Returned None).

Definition no_refreshOne (_ _ : Z) (w : World) : World * Outcome (option error) :=
  (w, Returned None).

(** The pipeline of the spec's cascade scenario, before and after renaming. *)
Definition p1 : PipelineInfo := pipeline 1 "p1" 0.
Definition p1_renamed : PipelineInfo := pipeline 1 "p1-renamed" 0.

(** Both stores hold [p1]; the coordinator answers every call. *)
Definition w_cascade : World := world [(1, stored p1)] (coordinator [p1] []).

(** The same stores; the coordinator answers the version read and rejects
    the update. *)
Definition w_conflict : World :=
  world [(1, stored p1)] (coordinator [p1] [None; Some VersionConflict]).

(** The spec's reconciliation scenario: local copies of pipelines 2
    (version 3) and 4 (version 2); the coordinator holds pipelines 2
    (version 5) and 3 (version 1). *)
Definition w_refresh : World :=
  world [(2, stored (pipeline 2 "p2" 3)); (4, stored (pipeline 4 "p4" 2))]
        (coordinator [pipeline 2 "p2" 5; pipeline 3 "p3" 1] []).

Definition manifest_refresh : list MetadataVersion.t :=
  [MetadataVersion.mk 2 5; MetadataVersion.mk 3 1].

(** No local copy of pipeline 3, which the coordinator holds at version 1. *)
Definition w_new_remote : World := world [] (coordinator [pipeline 3 "p3" 1] []).

(** A local copy of pipeline 1 at version 5; the coordinator holds it too. *)
Definition w_fresh : World :=
  world [(1, stored (pipeline 1 "p1" 5))] (coordinator [pipeline 1 "p1" 5] []).

(** A local copy of pipeline 1 at version 5; the coordinator no longer holds
    the pipeline. *)
Definition w_deleted_upstream : World :=
  world [(1, stored (pipeline 1 "p1" 5))] (coordinator [] []).

(** The coordinator fails the next call. *)
Definition w_down : World :=
  world [(1, stored p1)] (coordinator [p1] [Some CoordinatorUnavailable]).

(** The coordinator lists its versions, then fails the next call. *)
Definition w_down_later : World :=
  world [] (coordinator [p1] [None; Some CoordinatorUnavailable]).

(** A bucket with a record that does not decode, a pipeline named "p1" and
    one named "p1-renamed". *)
Definition w_scan : World :=
  world [(0, corrupt); (1, stored p1); (2, stored (pipeline 2 "p1-renamed" 0))]
        (coordinator [] []).

(** A bucket whose only pipeline is named "p1-renamed". *)
Definition w_renamed : World :=
  world [(2, stored (pipeline 2 "p1-renamed" 0))] (coordinator [] []).

Definition by_name (name : string) : PipelineInfoParams.t :=
  PipelineInfoParams.mk name 0 0 0 false.

(** Parsers for the batch endpoint that accept every request. *)
Definition parse_ok (_ : nat) (_ : bool) (env : unit) : unit * option error := (env, None).

(** Stand-ins for the coordinator's insert and delete: one that accepts, one
    that is out of reach. *)
Definition insert_ok (entity : PipelineInfo) (r : Remote) : Remote * option error :=
  (set_entities r (entities r ++ [entity]), None).

Definition insert_down (_ : PipelineInfo) (r : Remote) : Remote * option error :=
  (r, Some CoordinatorUnavailable).

Definition delete_ok (id : Z) (r : Remote) : Remote * option error :=
  (set_entities r (filter (fun e => negb (Id e =? id)) (entities r)), None).

Definition delete_down (_ : Z) (r : Remote) : Remote * option error :=
  (r, Some CoordinatorUnavailable).

(** A local copy of pipeline 1 at version 0; the coordinator holds it at
    version 2. *)
Definition w_stale : World :=
  world [(1, stored p1)] (coordinator [pipeline 1 "p1" 2] []).

(** A parser that rejects the odd requests. *)
Definition parse_even (request : nat) (_ : bool) (env : unit) : unit * option error :=
  (env, if Nat.even request then None else Some SerializationError).

(** Sample endpoint records in their bucket; the codec of the samples keeps
    the name in the bytes and reads a first byte [xff] as garbage. *)
Definition endpoint_Unmarshal (data : list Byte.byte) : bolt.EndpointInfo * option error :=
  match data with
  | Byte.xff :: _ => (bolt.mkEndpointInfo 0 EmptyString EmptyString, Some SerializationError)
  | _ => (bolt.mkEndpointInfo (Z.of_nat (List.length data)) (string_of_list_byte data)
            EmptyString, None)
  end.

(** Spec-side vocabulary for the scans: the well-formed records of a bucket
    in cursor order, and the filter each scan applies to a decoded record. *)
Definition well_formed_records (Unmarshal : list Byte.byte -> PipelineInfo * option error)
    (b : Bucket) : list PipelineInfo :=
  flat_map (fun kv => match Unmarshal (snd kv) with
                      | (e, None) => [e]
                      | (_, Some _) => []
                      end) b.

Definition GetByParam_match (params : PipelineInfoParams.t) (e : PipelineInfo) : bool :=
  ((PipelineInfoParams.Name params =? "")%string
   || (Name e =? PipelineInfoParams.Name params)%string)
  && ((PipelineInfoParams.SourceId params =? 0)
      || (SourceId e =? PipelineInfoParams.SourceId params))
  && ((PipelineInfoParams.EndpointId params =? 0)
      || (EndpointId e =? PipelineInfoParams.EndpointId params)).

Definition SelectList_match (PipelineInfoStatusDisable : Z)
    (params : PipelineInfoParams.t) (e : PipelineInfo) : bool :=
  ((PipelineInfoParams.Name params =? "")%string
   || Contains (Name e) (PipelineInfoParams.Name params))
  && ((PipelineInfoParams.SourceId params =? 0)
      || (SourceId e =? PipelineInfoParams.SourceId params))
  && ((PipelineInfoParams.EndpointId params =? 0)
      || (EndpointId e =? PipelineInfoParams.EndpointId params))
  && ((PipelineInfoParams.EndpointType params =? 0)
      || (EndpointType e =? PipelineInfoParams.EndpointType params))
  && (negb (PipelineInfoParams.Enable params)
      || negb (Status e =? PipelineInfoStatusDisable)).

(** A manifest entry is stale for a local store when [Get] finds no copy of
    its id there, or one of a lower version. *)
Definition stale (Unmarshal : list Byte.byte -> PipelineInfo * option error)
    (w : World) (standard : MetadataVersion.t) : bool :=
  match fst (Get Unmarshal (MetadataVersion.Id standard) w) with
  | Some ent => DataVersion ent <? MetadataVersion.Version standard
  | None => true
  end.

(** Every record that decodes is stored under the id it carries. *)
Definition bucket_keyed (Unmarshal : list Byte.byte -> PipelineInfo * option error)
    (b : Bucket) : Prop :=
  forall k v e, In (k, v) b -> Unmarshal v = (e, None) -> Id e = k.

(** The well-formed records of the endpoint bucket, in cursor order, and the
    filter of [bolt.SelectList]. *)
Definition well_formed_endpoints
    (Unmarshal : list Byte.byte -> bolt.EndpointInfo * option error)
    (b : Bucket) : list bolt.EndpointInfo :=
  flat_map (fun kv => match Unmarshal (snd kv) with
                      | (e, None) => [e]
                      | (_, Some _) => []
                      end) b.

Definition endpoint_match (name host : string) (e : bolt.EndpointInfo) : bool :=
  ((name =? "")%string || Contains (bolt.Name e) name)
  && ((host =? "")%string || Contains (bolt.Addresses e) host).

(** * Properties *)

(** ** Arithmetic on versions *)

Lemma wrap_int32_range : forall z, is_int32 (wrap_int32 z).
Proof.
  intro z. unfold is_int32, wrap_int32.
  pose proof (Z.mod_pos_bound (z + 2 ^ 31) (2 ^ 32) ltac:(lia)). lia.
Qed.

Lemma int32_add_small : forall v, is_int32 v -> v < 2 ^ 31 - 1 -> int32_add v 1 = v + 1.
Proof.
  intros v [Hlo Hhi] Hmax. unfold int32_add, wrap_int32.
  rewrite Z.mod_small; lia.
Qed.

Lemma int32_add_1_neq : forall v, int32_add v 1 <> v.
Proof.
  intros v H. unfold int32_add, wrap_int32 in H.
  pose proof (Z.div_mod (v + 1 + 2 ^ 31) (2 ^ 32) ltac:(lia)) as Hdm.
  change (2 ^ 32) with 4294967296 in *. change (2 ^ 31) with 2147483648 in *.
  lia.
Qed.

(** ** The bucket *)

Lemma bucket_Get_Put_same : forall k v b, bucket_Get k (bucket_Put k v b) = Some v.
Proof.
  intros k v b. induction b as [|[k' v'] rest IH]; simpl.
  - now rewrite Z.eqb_refl.
  - destruct (k <? k') eqn:Hlt; simpl.
    + now rewrite Z.eqb_refl.
    + destruct (k =? k') eqn:Heq; simpl.
      * now rewrite Z.eqb_refl.
      * now rewrite Heq.
Qed.

Lemma bucket_Get_Put_other :
  forall k k' v b, k <> k' -> bucket_Get k (bucket_Put k' v b) = bucket_Get k b.
Proof.
  intros k k' v b Hne. induction b as [|[k0 v0] rest IH]; simpl.
  - destruct (k =? k') eqn:E; [apply Z.eqb_eq in E; contradiction | reflexivity].
  - destruct (k' <? k0) eqn:Hlt; simpl.
    + destruct (k =? k') eqn:E; [apply Z.eqb_eq in E; contradiction | reflexivity].
    + destruct (k' =? k0) eqn:Heq; simpl.
      * apply Z.eqb_eq in Heq. subst k0.
        destruct (k =? k') eqn:E; [apply Z.eqb_eq in E; contradiction | reflexivity].
      * destruct (k =? k0); [reflexivity | exact IH].
Qed.

Lemma bucket_Get_Delete_same : forall k b, bucket_Get k (bucket_Delete k b) = None.
Proof.
  intros k b. induction b as [|[k' v'] rest IH]; simpl; [reflexivity|].
  destruct (k =? k') eqn:E; simpl; [exact IH | now rewrite E].
Qed.

Lemma bucket_Get_Delete_other :
  forall k k' b, k <> k' -> bucket_Get k (bucket_Delete k' b) = bucket_Get k b.
Proof.
  intros k k' b Hne. induction b as [|[k0 v0] rest IH]; simpl; [reflexivity|].
  destruct (k' =? k0) eqn:E; simpl.
  - apply Z.eqb_eq in E. subst k0.
    destruct (k =? k') eqn:E'; [apply Z.eqb_eq in E'; contradiction | exact IH].
  - destruct (k =? k0); [reflexivity | exact IH].
Qed.

Lemma bucket_Get_None_iff : forall k b, bucket_Get k b = None <-> ~ In k (map fst b).
Proof.
  intros k b. induction b as [|[k' v'] rest IH]; simpl.
  - tauto.
  - destruct (k =? k') eqn:E.
    + apply Z.eqb_eq in E. subst. split; [discriminate | intro H; exfalso; apply H; now left].
    + apply Z.eqb_neq in E. rewrite IH. split.
      * intros H [H1 | H1]; [congruence | contradiction].
      * intros H H1. apply H. now right.
Qed.

Lemma bucket_Get_deletes :
  forall deletions k b,
    bucket_Get k (fold_left (fun tx deletion => bucket_Delete deletion tx) deletions b)
    = if existsb (Z.eqb k) deletions then None else bucket_Get k b.
Proof.
  induction deletions as [|d rest IH]; intros k b; simpl; [reflexivity|].
  rewrite IH. destruct (k =? d) eqn:E; simpl.
  - apply Z.eqb_eq in E. subst d. rewrite bucket_Get_Delete_same.
    now destruct (existsb (Z.eqb k) rest).
  - apply Z.eqb_neq in E. now rewrite bucket_Get_Delete_other.
Qed.

Lemma bucket_Put_keys :
  forall k v b k', In k' (map fst (bucket_Put k v b)) <-> k' = k \/ In k' (map fst b).
Proof.
  intros k v b k'. induction b as [|[k0 v0] rest IH]; simpl.
  - intuition.
  - destruct (k <? k0); simpl; [intuition|].
    destruct (k =? k0) eqn:E; simpl.
    + apply Z.eqb_eq in E. subst k0. intuition.
    + rewrite IH. intuition.
Qed.

Lemma bucket_Delete_keys :
  forall k b k', In k' (map fst (bucket_Delete k b)) <-> k' <> k /\ In k' (map fst b).
Proof.
  intros k b k'. induction b as [|[k0 v0] rest IH]; simpl.
  - intuition.
  - destruct (k =? k0) eqn:E; simpl.
    + apply Z.eqb_eq in E. subst k0. rewrite IH. intuition congruence.
    + apply Z.eqb_neq in E. rewrite IH. intuition congruence.
Qed.

(** [Put] and [Delete] keep the cursor order of the bucket. *)
Lemma bucket_Put_sorted :
  forall k v b, bucket_sorted b -> bucket_sorted (bucket_Put k v b).
Proof.
  unfold bucket_sorted. intros k v b. induction b as [|[k0 v0] rest IH]; simpl; intro Hs.
  - constructor; constructor.
  - apply StronglySorted_inv in Hs. destruct Hs as (Hrest & Hall).
    destruct (k <? k0) eqn:Hlt; simpl.
    + apply Z.ltb_lt in Hlt. constructor.
      * constructor; assumption.
      * constructor; [exact Hlt|]. eapply Forall_impl; [|exact Hall]. intros; lia.
    + apply Z.ltb_ge in Hlt. destruct (k =? k0) eqn:Heq; simpl.
      * apply Z.eqb_eq in Heq. subst k0. constructor; assumption.
      * apply Z.eqb_neq in Heq. constructor; [now apply IH|].
        apply Forall_forall. intros x Hx. apply bucket_Put_keys in Hx.
        destruct Hx as [-> | Hx]; [lia|]. rewrite Forall_forall in Hall. now apply Hall.
Qed.

Lemma bucket_Delete_sorted :
  forall k b, bucket_sorted b -> bucket_sorted (bucket_Delete k b).
Proof.
  unfold bucket_sorted. intros k b. induction b as [|[k0 v0] rest IH]; simpl; intro Hs.
  - constructor.
  - apply StronglySorted_inv in Hs. destruct Hs as (Hrest & Hall).
    destruct (k =? k0); simpl; [now apply IH|].
    constructor; [now apply IH|].
    apply Forall_forall. intros x Hx. apply bucket_Delete_keys in Hx.
    rewrite Forall_forall in Hall. now apply Hall.
Qed.

(** ** The remote coordinator *)

Lemma remote_find_Id : forall id r e, remote_find id r = Some e -> Id e = id.
Proof.
  unfold remote_find. intros id r e H. apply find_some in H. now apply Z.eqb_eq.
Qed.

Lemma find_replace_entity :
  forall e l x,
    find (fun y => Id y =? Id e) l = Some x ->
    find (fun y => Id y =? Id e) (replace_entity e l) = Some e.
Proof.
  intros e l. induction l as [|y rest IH]; simpl; intros x H; [discriminate|].
  destruct (Id y =? Id e) eqn:E; simpl.
  - now rewrite Z.eqb_refl.
  - rewrite E. eauto.
Qed.

Lemma remote_GetDataVersion_OK :
  forall id r r1 v,
    remote_GetDataVersion id r = (r1, OK v) ->
    stored_version id r = Some v /\ entities r1 = entities r
    /\ calls r1 = calls r ++ [CallGetDataVersion id] /\ script r1 = tl (script r).
Proof.
  unfold remote_GetDataVersion, remote_call, stored_version, remote_find. simpl.
  intros id r r1 v H.
  destruct (script r) as [|[e|] s]; try discriminate;
    destruct (find (fun e => Id e =? id) (entities r)) eqn:F; inversion H; subst; simpl; auto.
Qed.

Lemma remote_Get_entities :
  forall id r r1 got,
    remote_Get id r = (r1, got) ->
    entities r1 = entities r /\ calls r1 = calls r ++ [CallGet id]
    /\ (forall x, got = OK x -> x = remote_find id r).
Proof.
  unfold remote_Get, remote_call, remote_find. simpl. intros id r r1 got H.
  destruct (script r) as [|[e|] s]; inversion H; subst; simpl;
    repeat split; intros; congruence.
Qed.

Lemma remote_Update_Some :
  forall entity version r r1 e,
    remote_Update entity version r = (r1, Some e) -> entities r1 = entities r.
Proof.
  unfold remote_Update, remote_call, remote_find. simpl. intros entity version r r1 e H.
  destruct (script r) as [|[e0|] s]; try (inversion H; subst; reflexivity);
    destruct (find (fun x => Id x =? Id entity) (entities r)) as [x|];
    try (inversion H; subst; reflexivity);
    destruct (DataVersion x =? version); inversion H; subst; reflexivity.
Qed.

Lemma remote_Update_None :
  forall entity version r r1,
    remote_Update entity version r = (r1, None) ->
    stored_version (Id entity) r = Some version
    /\ stored_version (Id entity) r1 = Some (DataVersion entity).
Proof.
  unfold remote_Update, remote_call, stored_version, remote_find. simpl.
  intros entity version r r1 H.
  destruct (script r) as [|[e0|] s]; try discriminate;
    destruct (find (fun x => Id x =? Id entity) (entities r)) as [x|] eqn:F; try discriminate;
    destruct (DataVersion x =? version) eqn:E; try discriminate;
    inversion H; subst; simpl; apply Z.eqb_eq in E; subst;
    (split; [reflexivity | now rewrite (find_replace_entity _ _ _ F)]).
Qed.

(** ** Cascade writes *)

Section CascadeProperties.

Variable Marshal : PipelineInfo -> Result (list Byte.byte).
Variable Unmarshal : list Byte.byte -> PipelineInfo * option error.

(** What is written can be read back. *)
Hypothesis Unmarshal_Marshal :
  forall e data, Marshal e = OK data -> Unmarshal data = (e, None).

(** The shape of a run of [CascadeUpdate] that has read version [v]. *)
Lemma CascadeUpdate_after_read :
  forall entity w r1 v,
    remote_GetDataVersion (Id entity) (remote w) = (r1, OK v) ->
    let entity1 := set_DataVersion entity (int32_add v 1) in
    CascadeUpdate Marshal entity w =
    match Marshal entity1 with
    | Err e => ({| local := local w; remote := r1; logs := logs w |}, entity1, (v, Some e))
    | OK data =>
        match remote_Update entity1 v r1 with
        | (r2, Some e) =>
            ({| local := local w; remote := r2; logs := logs w |}, entity1, (v, Some e))
        | (r2, None) =>
            ({| local := bucket_Put (Id entity) data (local w); remote := r2;
                logs := logs w ++ [Infof_CascadeUpdate (Name entity) v] |},
             entity1, (int32_add v 1, None))
        end
    end.
Proof.
  intros entity w r1 v Hget entity1. unfold CascadeUpdate. rewrite Hget.
  fold entity1. unfold db_Update.
  destruct (Marshal entity1) as [data|e]; [|reflexivity].
  destruct (remote_Update entity1 v r1) as [r2 [e|]]; reflexivity.
Qed.

(** C1.  If [CascadeUpdate] succeeds while the coordinator holds version
    [v] of the entity, then the body in the local bucket has version
    [v + 1], the coordinator holds version [v + 1], and [v + 1] is
    returned; [+] is Go's addition on [int32]. *)
Theorem CascadeUpdate_success_versions :
  forall entity w v w' entity' newVersion,
    stored_version (Id entity) (remote w) = Some v ->
    CascadeUpdate Marshal entity w = (w', entity', (newVersion, None)) ->
    (exists body,
        Get Unmarshal (Id entity) w' = (Some body, None)
        /\ DataVersion body = int32_add v 1)
    /\ stored_version (Id entity) (remote w') = Some (int32_add v 1)
    /\ newVersion = int32_add v 1.
Proof.
  intros entity w v w' entity' newVersion Hv Hrun.
  destruct (remote_GetDataVersion (Id entity) (remote w)) as [r1 [v0|e]] eqn:Hget.
  - pose proof (remote_GetDataVersion_OK _ _ _ _ Hget) as (Hv0 & _).
    assert (v0 = v) by congruence. subst v0.
    rewrite (CascadeUpdate_after_read _ _ _ _ Hget) in Hrun.
    destruct (Marshal (set_DataVersion entity (int32_add v 1))) as [data|e] eqn:Hm;
      [|discriminate].
    destruct (remote_Update (set_DataVersion entity (int32_add v 1)) v r1)
      as [r2 [e|]] eqn:Hupd; [discriminate|].
    inversion Hrun; subst; clear Hrun.
    apply remote_Update_None in Hupd. destruct Hupd as (_ & Hnew).
    repeat split; [|exact Hnew].
    exists (set_DataVersion entity (int32_add v 1)). split; [|reflexivity].
    unfold Get. simpl. rewrite bucket_Get_Put_same.
    now rewrite (Unmarshal_Marshal _ _ Hm).
  - unfold CascadeUpdate in Hrun. rewrite Hget in Hrun. discriminate.
Qed.

(** C2.  If the compare-and-swap issued by [CascadeUpdate] fails, then
    [CascadeUpdate] returns that error, and the local bucket and the
    coordinator's entities are what they were before the call. *)
Theorem CascadeUpdate_cas_failure_rolls_back :
  forall entity w r1 v data r2 e,
    remote_GetDataVersion (Id entity) (remote w) = (r1, OK v) ->
    Marshal (set_DataVersion entity (int32_add v 1)) = OK data ->
    remote_Update (set_DataVersion entity (int32_add v 1)) v r1 = (r2, Some e) ->
    exists w',
      CascadeUpdate Marshal entity w
      = (w', set_DataVersion entity (int32_add v 1), (v, Some e))
      /\ local w' = local w
      /\ entities (remote w') = entities (remote w)
      /\ logs w' = logs w.
Proof.
  intros entity w r1 v data r2 e Hget Hm Hupd.
  rewrite (CascadeUpdate_after_read _ _ _ _ Hget), Hm, Hupd.
  eexists. split; [reflexivity|]. simpl.
  apply remote_Update_Some in Hupd.
  apply remote_GetDataVersion_OK in Hget. destruct Hget as (_ & He & _).
  repeat split. congruence.
Qed.

(** C10.  If [CascadeUpdate] fails after it has read version [v], it
    returns [v] (not the new version) with the error, the caller's entity
    carries [DataVersion = v + 1], and the stores are unchanged: the
    coordinator still holds version [v], which differs from the version of
    the in-memory entity. *)
Theorem CascadeUpdate_failure_after_read :
  forall entity w r1 v w' entity' version e,
    remote_GetDataVersion (Id entity) (remote w) = (r1, OK v) ->
    CascadeUpdate Marshal entity w = (w', entity', (version, Some e)) ->
    version = v
    /\ version <> int32_add v 1
    /\ entity' = set_DataVersion entity (int32_add v 1)
    /\ local w' = local w
    /\ entities (remote w') = entities (remote w)
    /\ stored_version (Id entity') (remote w') = Some v
    /\ DataVersion entity' <> v.
Proof.
  intros entity w r1 v w' entity' version e Hget Hrun.
  rewrite (CascadeUpdate_after_read _ _ _ _ Hget) in Hrun.
  pose proof (remote_GetDataVersion_OK _ _ _ _ Hget) as (Hv & He & _).
  assert (Hent : entities (remote w') = entities (remote w)
                 /\ local w' = local w /\ version = v
                 /\ entity' = set_DataVersion entity (int32_add v 1)).
  { destruct (Marshal (set_DataVersion entity (int32_add v 1))) as [data|e0].
    - destruct (remote_Update (set_DataVersion entity (int32_add v 1)) v r1)
        as [r2 [e0|]] eqn:Hupd; [|discriminate].
      apply remote_Update_Some in Hupd.
      inversion Hrun; subst; simpl. repeat split. congruence.
    - inversion Hrun; subst; simpl. repeat split. exact He. }
  destruct Hent as (He' & Hl & -> & ->).
  pose proof (int32_add_1_neq v) as Hneq.
  repeat split; auto.
  unfold stored_version, remote_find in *. simpl. now rewrite He'.
Qed.

End CascadeProperties.

(** ** Reconciliation *)

Section RefreshProperties.

Variable Marshal : PipelineInfo -> Result (list Byte.byte).
Variable Unmarshal : list Byte.byte -> PipelineInfo * option error.

Lemma stale_local :
  forall w1 w2, local w1 = local w2 -> forall s, stale Unmarshal w1 s = stale Unmarshal w2 s.
Proof. intros w1 w2 H s. unfold stale, Get. now rewrite H. Qed.

Lemma refreshAll_fresh_stale :
  forall w s,
    stale Unmarshal w s
    = match refreshAll_fresh (fst (Get Unmarshal (MetadataVersion.Id s) w)) s with
      | Some _ => false
      | None => true
      end.
Proof.
  intros w s. unfold stale, refreshAll_fresh.
  destruct (fst (Get Unmarshal (MetadataVersion.Id s) w)) as [ent|]; [|reflexivity].
  rewrite Z.geb_leb, Z.leb_antisym.
  now destruct (DataVersion ent <? MetadataVersion.Version s).
Qed.

(** What the collecting loop of [refreshAll] has done when it hands over
    its updates: the local bucket and the coordinator's entities are
    untouched, one [Get] was issued per stale entry, in manifest order, and
    the bodies collected are the coordinator's bodies of those entries. *)
Lemma refreshAll_updates_OK :
  forall standards w updates w1 us,
    refreshAll_updates Unmarshal standards w updates = (w1, Returned (OK us)) ->
    local w1 = local w
    /\ entities (remote w1) = entities (remote w)
    /\ calls (remote w1)
       = calls (remote w)
         ++ map (fun s => CallGet (MetadataVersion.Id s)) (filter (stale Unmarshal w) standards)
    /\ exists bodies,
        us = updates ++ bodies
        /\ List.length bodies = List.length (filter (stale Unmarshal w) standards)
        /\ (forall body, In body bodies ->
              exists s, In s standards /\ stale Unmarshal w s = true
                        /\ remote_find (MetadataVersion.Id s) (remote w) = Some body)
        /\ (forall s, In s standards -> stale Unmarshal w s = true ->
              exists body, In body bodies
                           /\ remote_find (MetadataVersion.Id s) (remote w) = Some body).
Proof.
  induction standards as [|standard next IH]; intros w updates w1 us Hrun.
  - simpl in Hrun. inversion Hrun; subst. simpl. rewrite !app_nil_r.
    repeat split. exists []. rewrite app_nil_r. repeat split; simpl; intros; contradiction.
  - simpl in Hrun. simpl filter. rewrite (refreshAll_fresh_stale w standard).
    destruct (Get Unmarshal (MetadataVersion.Id standard) w) as [entity err] eqn:Hget.
    simpl fst.
    destruct (refreshAll_fresh entity standard) as [ent|] eqn:Hfresh.
    + apply IH in Hrun. destruct Hrun as (Hl & He & Hc & bodies & Hus & Hlen & Hin & Hall).
      simpl in Hl, He, Hc.
      assert (Hst : forall s, stale Unmarshal
                 (log (Infof_refreshAll_ignore (Name ent) (DataVersion ent)
                         (MetadataVersion.Version standard)) w) s = stale Unmarshal w s)
        by (intro s; now apply stale_local).
      rewrite (filter_ext _ _ Hst) in Hc, Hlen.
      repeat split; auto. exists bodies. repeat split; auto.
      * intros body Hb. destruct (Hin body Hb) as (s & Hs & Hss & Hf).
        exists s. rewrite Hst in Hss. repeat split; auto. now right.
      * intros s [Hs | Hs] Hss.
        -- subst s. rewrite refreshAll_fresh_stale, Hget in Hss. simpl in Hss.
           rewrite Hfresh in Hss. discriminate.
        -- apply Hall; auto.
    + destruct (remote_Get (MetadataVersion.Id standard) (remote w)) as [r1 got] eqn:Hrg.
      pose proof (remote_Get_entities _ _ _ _ Hrg) as (Hre & Hrc & Hgot).
      destruct got as [[standardEntity|]|e]; try discriminate.
      specialize (Hgot _ eq_refl).
      apply IH in Hrun. destruct Hrun as (Hl & He & Hc & bodies & Hus & Hlen & Hin & Hall).
      simpl in Hl, He, Hc.
      match type of Hc with
      | context [filter (stale Unmarshal ?w0) _] =>
          assert (Hst : forall s, stale Unmarshal w0 s = stale Unmarshal w s)
            by (intro s; now apply stale_local);
          assert (Hrf : forall id, remote_find id (remote w0) = remote_find id (remote w))
            by (intro id; unfold remote_find; simpl; now rewrite Hre)
      end.
      rewrite (filter_ext _ _ Hst) in Hc, Hlen.
      repeat split; auto.
      * rewrite He. exact Hre.
      * rewrite Hc, Hrc. simpl. now rewrite <- app_assoc.
      * exists (standardEntity :: bodies). repeat split.
        -- rewrite Hus. now rewrite <- app_assoc.
        -- simpl. now rewrite Hlen.
        -- intros body [Hb | Hb].
           ++ subst body. exists standard. repeat split; [now left | | now symmetry].
              rewrite refreshAll_fresh_stale, Hget. simpl. now rewrite Hfresh.
           ++ destruct (Hin body Hb) as (s & Hs & Hss & Hf).
              exists s. rewrite Hst in Hss. rewrite Hrf in Hf. repeat split; auto. now right.
        -- intros s [Hs | Hs] Hss.
           ++ subst s. exists standardEntity. split; [now left | now symmetry].
           ++ destruct (Hall s Hs) as (body & Hb & Hf); [now rewrite Hst|].
              exists body. rewrite Hrf in Hf. split; [now right | exact Hf].
Qed.

(** The effect of the writes of [refreshAll] on one key, when all bodies
    written under that key are the same body [b0]. *)
Lemma refreshAll_puts_OK :
  forall us tx tx',
    refreshAll_puts Marshal us tx = (tx', None) ->
    forall id b0,
      (forall body, In body us -> Id body = id -> body = b0) ->
      (bucket_Get id tx' = bucket_Get id tx /\ forall body, In body us -> Id body <> id)
      \/ (exists data, Marshal b0 = OK data /\ bucket_Get id tx' = Some data
                       /\ In b0 us /\ Id b0 = id).
Proof.
  induction us as [|u rest IH]; intros tx tx' Hrun id b0 Huniq.
  - simpl in Hrun. inversion Hrun; subst. left. split; [reflexivity | intros ? []].
  - simpl in Hrun. destruct (Marshal u) as [data|e] eqn:Hm; [|discriminate].
    destruct (IH _ _ Hrun id b0) as [[Hsame Hnone] | (d & Hd & Hg & Hb0 & Hid)].
    + intros body Hb. apply Huniq. now right.
    + destruct (Z.eq_dec (Id u) id) as [Heq | Hne].
      * right. exists data. rewrite <- (Huniq u (or_introl eq_refl) Heq).
        repeat split; [exact Hm | | now left | exact Heq].
        rewrite Hsame, Heq. apply bucket_Get_Put_same.
      * left. split.
        -- rewrite Hsame. apply bucket_Get_Put_other. congruence.
        -- intros body [Hb | Hb]; [now subst | now apply Hnone].
    + right. exists d. repeat split; auto. now right.
Qed.

Lemma refreshAll_deletions_spec :
  forall id locals standards,
    existsb (Z.eqb id) (refreshAll_deletions locals standards) = true
    <-> In id locals /\ ~ In id (map MetadataVersion.Id standards).
Proof.
  intros id locals standards. unfold refreshAll_deletions.
  rewrite existsb_exists. split.
  - intros (x & Hx & Heq). apply Z.eqb_eq in Heq. subst x.
    apply filter_In in Hx. destruct Hx as (Hin & Hneg). split; [exact Hin|].
    intro Hm. apply in_map_iff in Hm. destruct Hm as (s & Hs & Hsin).
    apply negb_true_iff in Hneg.
    assert (existsb (fun standard => id =? MetadataVersion.Id standard) standards = true).
    { apply existsb_exists. exists s. split; [exact Hsin | apply Z.eqb_eq; congruence]. }
    congruence.
  - intros (Hin & Hnot). exists id. split; [|apply Z.eqb_refl].
    apply filter_In. split; [exact Hin|]. apply negb_true_iff.
    destruct (existsb _ standards) eqn:E; [|reflexivity].
    apply existsb_exists in E. destruct E as (s & Hs & Heq). apply Z.eqb_eq in Heq.
    exfalso. apply Hnot. apply in_map_iff. exists s. split; [congruence | exact Hs].
Qed.

(** The bucket after the deletions of [refreshAll]. *)
Lemma bucket_Get_refreshAll_deletions :
  forall id b standards,
    bucket_Get id
      (fold_left (fun tx deletion => bucket_Delete deletion tx)
         (refreshAll_deletions (map fst b) standards) b)
    = if existsb (fun s => id =? MetadataVersion.Id s) standards
      then bucket_Get id b else None.
Proof.
  intros id b standards. rewrite bucket_Get_deletes.
  destruct (existsb (Z.eqb id) _) eqn:Hdel.
  - apply refreshAll_deletions_spec in Hdel. destruct Hdel as (_ & Hnot).
    destruct (existsb (fun s => id =? MetadataVersion.Id s) standards) eqn:E; [|reflexivity].
    apply existsb_exists in E. destruct E as (s & Hs & Heq). apply Z.eqb_eq in Heq.
    exfalso. apply Hnot. apply in_map_iff. exists s. split; [congruence | exact Hs].
  - destruct (existsb (fun s => id =? MetadataVersion.Id s) standards) eqn:E; [reflexivity|].
    destruct (bucket_Get id b) eqn:Hg; [|reflexivity].
    assert (Hin : In id (map fst b)).
    { destruct (in_dec Z.eq_dec id (map fst b)) as [H | H]; [exact H|].
      apply bucket_Get_None_iff in H. congruence. }
    assert (existsb (Z.eqb id) (refreshAll_deletions (map fst b) standards) = true).
    { apply refreshAll_deletions_spec. split; [exact Hin|].
      intro Hm. apply in_map_iff in Hm. destruct Hm as (s & Hs & Hsin).
      assert (existsb (fun s => id =? MetadataVersion.Id s) standards = true).
      { apply existsb_exists. exists s. split; [exact Hsin | apply Z.eqb_eq; congruence]. }
      congruence. }
    congruence.
Qed.

(** A run of [refreshAll] that returns without error. *)
Lemma refreshAll_returned_nil :
  forall standards w w',
    refreshAll Marshal Unmarshal standards w = (w', Returned None) ->
    (forall id, ~ In id (map MetadataVersion.Id standards) ->
       bucket_Get id (local w') = None)
    /\ calls (remote w')
       = calls (remote w)
         ++ map (fun s => CallGet (MetadataVersion.Id s)) (filter (stale Unmarshal w) standards)
    /\ (forall s, In s standards -> stale Unmarshal w s = true ->
          exists body data,
            remote_find (MetadataVersion.Id s) (remote w) = Some body
            /\ Marshal body = OK data
            /\ bucket_Get (MetadataVersion.Id s) (local w') = Some data)
    /\ (forall id, In id (map MetadataVersion.Id standards) ->
          (forall s, In s standards -> MetadataVersion.Id s = id ->
                     stale Unmarshal w s = false) ->
          bucket_Get id (local w') = bucket_Get id (local w)
          /\ ~ In (CallGet id)
               (map (fun s => CallGet (MetadataVersion.Id s))
                  (filter (stale Unmarshal w) standards))).
Proof.
  intros standards w w' Hrun. unfold refreshAll in Hrun.
  set (deletions := refreshAll_deletions (map fst (local w)) standards) in *.
  set (w0 := log (Infof_refreshAll_deletions (List.length deletions)) w) in *.
  destruct (refreshAll_updates Unmarshal standards w0 []) as [w1 collected] eqn:Hupd.
  destruct collected as [[us|e]|p]; try discriminate.
  unfold db_Update in Hrun.
  destruct (refreshAll_puts Marshal us
              (fold_left (fun tx deletion => bucket_Delete deletion tx) deletions (local w1)))
    as [tx' err] eqn:Hputs.
  destruct err as [e|]; [discriminate|].
  inversion Hrun; subst w'; clear Hrun. simpl.
  apply refreshAll_updates_OK in Hupd.
  destruct Hupd as (Hl & He & Hc & bodies & Hus & Hlen & Hin & Hall).
  simpl in Hus. subst us.
  change (local w0) with (local w) in Hl.
  change (remote w0) with (remote w) in He, Hc, Hin, Hall.
  assert (Hst : forall s, stale Unmarshal w0 s = stale Unmarshal w s)
    by (intro s; now apply stale_local).
  rewrite (filter_ext _ _ Hst) in Hc, Hlen.
  rewrite Hl in Hputs. unfold deletions in Hputs.
  assert (Hbody : forall body, In body bodies ->
            exists s, In s standards /\ stale Unmarshal w s = true
                      /\ Id body = MetadataVersion.Id s).
  { intros body Hb. destruct (Hin body Hb) as (s & Hs & Hss & Hf).
    exists s. rewrite Hst in Hss. repeat split; auto. now apply remote_find_Id in Hf. }
  assert (Hlisted : forall id, In id (map MetadataVersion.Id standards) ->
            existsb (fun s => id =? MetadataVersion.Id s) standards = true).
  { intros id Hm. apply in_map_iff in Hm. destruct Hm as (s & Hs & Hsin).
    apply existsb_exists. exists s. split; [exact Hsin | apply Z.eqb_eq; congruence]. }
  split; [|split; [|split]].
  - intros id Hnot.
    destruct (refreshAll_puts_OK _ _ _ Hputs id zero_PipelineInfo)
      as [[Hsame _] | (d & _ & _ & Hb0 & Hid)].
    + intros body Hb Hid. exfalso. destruct (Hbody body Hb) as (s & Hs & _ & Hids).
      apply Hnot. apply in_map_iff. exists s. split; [congruence | exact Hs].
    + rewrite Hsame, bucket_Get_refreshAll_deletions.
      destruct (existsb (fun s => id =? MetadataVersion.Id s) standards) eqn:E; [|reflexivity].
      apply existsb_exists in E. destruct E as (s & Hs & Heq). apply Z.eqb_eq in Heq.
      exfalso. apply Hnot. apply in_map_iff. exists s. split; [congruence | exact Hs].
    + exfalso. destruct (Hbody _ Hb0) as (s & Hs & _ & Hids).
      apply Hnot. apply in_map_iff. exists s. split; [congruence | exact Hs].
  - exact Hc.
  - intros s Hs Hss.
    destruct (Hall s Hs) as (b0 & Hb0 & Hf); [now rewrite Hst|].
    exists b0.
    destruct (refreshAll_puts_OK _ _ _ Hputs (MetadataVersion.Id s) b0)
      as [[_ Hnone] | (d & Hd & Hg & _)].
    + intros body Hb Hid. destruct (Hin body Hb) as (s' & _ & _ & Hf').
      pose proof (remote_find_Id _ _ _ Hf') as Hid'.
      rewrite <- Hid', Hid in Hf'. congruence.
    + exfalso. apply (Hnone b0 Hb0). now apply remote_find_Id in Hf.
    + exists d. auto.
  - intros id Hid_listed Hfresh. split.
    + destruct (refreshAll_puts_OK _ _ _ Hputs id zero_PipelineInfo)
        as [[Hsame _] | (d & _ & _ & Hb0 & Hid)].
      * intros body Hb Hid. exfalso. destruct (Hbody body Hb) as (s & Hs & Hss & Hids).
        rewrite (Hfresh s Hs) in Hss; [discriminate | congruence].
      * rewrite Hsame, bucket_Get_refreshAll_deletions. now rewrite (Hlisted id Hid_listed).
      * exfalso. destruct (Hbody _ Hb0) as (s & Hs & Hss & Hids).
        rewrite (Hfresh s Hs) in Hss; [discriminate | congruence].
    + intro Hcall. apply in_map_iff in Hcall. destruct Hcall as (s & Heq & Hs).
      apply filter_In in Hs. destruct Hs as (Hs & Hss).
      inversion Heq as [Hids]. rewrite (Hfresh s Hs) in Hss; [discriminate | exact Hids].
Qed.

(** Whatever the outcome of the collecting loop, the local bucket is
    untouched and the remote calls issued are [Get]s for stale entries, in
    manifest order. *)
Lemma refreshAll_updates_calls :
  forall standards w updates w1 out,
    refreshAll_updates Unmarshal standards w updates = (w1, out) ->
    local w1 = local w
    /\ exists k,
        calls (remote w1)
        = calls (remote w)
          ++ map (fun s => CallGet (MetadataVersion.Id s))
               (firstn k (filter (stale Unmarshal w) standards)).
Proof.
  induction standards as [|standard next IH]; intros w updates w1 out Hrun.
  - simpl in Hrun. inversion Hrun; subst. split; [reflexivity|].
    exists O. simpl. now rewrite app_nil_r.
  - simpl in Hrun. simpl filter. rewrite (refreshAll_fresh_stale w standard).
    destruct (Get Unmarshal (MetadataVersion.Id standard) w) as [entity err] eqn:Hget.
    simpl fst.
    destruct (refreshAll_fresh entity standard) as [ent|] eqn:Hfresh.
    + apply IH in Hrun. destruct Hrun as (Hl & k & Hc). simpl in Hl, Hc.
      split; [exact Hl|]. exists k. exact Hc.
    + destruct (remote_Get (MetadataVersion.Id standard) (remote w)) as [r1 got] eqn:Hrg.
      pose proof (remote_Get_entities _ _ _ _ Hrg) as (_ & Hrc & _).
      destruct got as [[standardEntity|]|e].
      * apply IH in Hrun. destruct Hrun as (Hl & k & Hc). simpl in Hl, Hc.
        split; [exact Hl|]. exists (S k). rewrite Hc, Hrc. simpl.
        now rewrite <- app_assoc.
      * inversion Hrun; subst. split; [reflexivity|]. exists 1%nat. simpl.
        now rewrite Hrc.
      * inversion Hrun; subst. split; [reflexivity|]. exists 1%nat. simpl.
        now rewrite Hrc.
Qed.

Lemma refreshAll_calls :
  forall standards w w' out,
    refreshAll Marshal Unmarshal standards w = (w', out) ->
    exists k,
      calls (remote w')
      = calls (remote w)
        ++ map (fun s => CallGet (MetadataVersion.Id s))
             (firstn k (filter (stale Unmarshal w) standards)).
Proof.
  intros standards w w' out Hrun. unfold refreshAll in Hrun.
  set (deletions := refreshAll_deletions (map fst (local w)) standards) in *.
  set (w0 := log (Infof_refreshAll_deletions (List.length deletions)) w) in *.
  destruct (refreshAll_updates Unmarshal standards w0 []) as [w1 collected] eqn:Hupd.
  apply refreshAll_updates_calls in Hupd. destruct Hupd as (_ & k & Hc).
  change (remote w0) with (remote w) in Hc.
  assert (Hst : forall s, stale Unmarshal w0 s = stale Unmarshal w s)
    by (intro s; now apply stale_local).
  rewrite (filter_ext _ _ Hst) in Hc.
  exists k. rewrite <- Hc.
  destruct collected as [[us|e]|p]; try (inversion Hrun; subst; reflexivity).
  unfold db_Update in Hrun.
  destruct (refreshAll_puts Marshal us _) as [tx' [e|]];
    inversion Hrun; subst; reflexivity.
Qed.

(** C4.  In every run of [refreshAll], the remote calls issued are [Get]s
    for stale manifest entries (no local copy, or one of a lower version),
    in manifest order: no body is fetched for an entry whose local copy is
    at least as recent.  A run that returns without error has removed
    every id that the manifest does not list, has issued one [Get] for each
    stale entry, has written the coordinator's body under each of these
    ids, and has left alone every listed id all of whose entries are not
    stale. *)
Theorem refreshAll_deletes_and_fetches_exactly :
  forall standards w w' out,
    refreshAll Marshal Unmarshal standards w = (w', out) ->
    (exists k,
        calls (remote w')
        = calls (remote w)
          ++ map (fun s => CallGet (MetadataVersion.Id s))
               (firstn k (filter (stale Unmarshal w) standards)))
    /\ (out = Returned None ->
        (forall id, ~ In id (map MetadataVersion.Id standards) ->
           bucket_Get id (local w') = None)
        /\ calls (remote w')
           = calls (remote w)
             ++ map (fun s => CallGet (MetadataVersion.Id s))
                  (filter (stale Unmarshal w) standards)
        /\ (forall s, In s standards -> stale Unmarshal w s = true ->
              exists body data,
                remote_find (MetadataVersion.Id s) (remote w) = Some body
                /\ Marshal body = OK data
                /\ bucket_Get (MetadataVersion.Id s) (local w') = Some data)
        /\ (forall id, In id (map MetadataVersion.Id standards) ->
              (forall s, In s standards -> MetadataVersion.Id s = id ->
                         stale Unmarshal w s = false) ->
              bucket_Get id (local w') = bucket_Get id (local w)
              /\ ~ In (CallGet id)
                   (map (fun s => CallGet (MetadataVersion.Id s))
                      (filter (stale Unmarshal w) standards)))).
Proof.
  intros standards w w' out Hrun. split.
  - exact (refreshAll_calls _ _ _ _ Hrun).
  - intros ->. exact (refreshAll_returned_nil _ _ _ Hrun).
Qed.

(** [refreshOne] when the local bucket has no readable copy of [id]: the
    error of the local [Get] is returned and nothing is written. *)
Lemma refreshOne_local_Get_error :
  forall id standardVersion w r1 standardEntity e,
    remote_Get id (remote w) = (r1, OK standardEntity) ->
    Get Unmarshal id w = (None, Some e) ->
    refreshOne Marshal Unmarshal id standardVersion w = (set_remote w r1, Some e).
Proof.
  intros id standardVersion w r1 standardEntity e Hrg Hget.
  unfold refreshOne. rewrite Hrg.
  change (Get Unmarshal id (set_remote w r1)) with (Get Unmarshal id w).
  now rewrite Hget.
Qed.

(** C5, amended.  If the local bucket holds a copy of [id] whose version
    is at least [v], then [refreshOne id v] leaves the local bucket
    unchanged and logs nothing, provided the remote [Get] does not report
    the entity absent (it returns the entity, or an error); when the
    coordinator no longer holds the entity, the local copy is deleted. *)
Theorem refreshOne_keeps_fresh_copy :
  forall id v w ent,
    Get Unmarshal id w = (Some ent, None) ->
    v <= DataVersion ent ->
    (snd (remote_Get id (remote w)) <> OK None ->
     local (fst (refreshOne Marshal Unmarshal id v w)) = local w
     /\ logs (fst (refreshOne Marshal Unmarshal id v w)) = logs w)
    /\ (snd (remote_Get id (remote w)) = OK None ->
        local (fst (refreshOne Marshal Unmarshal id v w)) = bucket_Delete id (local w)
        /\ snd (refreshOne Marshal Unmarshal id v w) = None).
Proof.
  intros id v w ent Hget Hv. unfold refreshOne.
  destruct (remote_Get id (remote w)) as [r1 [[std|]|e]]; simpl snd.
  - change (Get Unmarshal id (set_remote w r1)) with (Get Unmarshal id w).
    rewrite Hget.
    assert (Hlt : (DataVersion ent <? v) = false) by (apply Z.ltb_ge; lia).
    rewrite Hlt. split; [intros _; split; reflexivity | discriminate].
  - change (Get Unmarshal id (set_remote w r1)) with (Get Unmarshal id w).
    rewrite Hget. split; [congruence | intros _; split; reflexivity].
  - split; [intros _; split; reflexivity | discriminate].
Qed.

End RefreshProperties.

(** ** Cursor order

    Every write of the DAO leaves the bucket in key order, so the scans of
    [GetByParam] and [SelectList] meet the records by increasing id. *)

Section CursorOrder.

Variable Marshal : PipelineInfo -> Result (list Byte.byte).
Variable Unmarshal : list Byte.byte -> PipelineInfo * option error.

Lemma Save_sorted :
  forall entity w,
    bucket_sorted (local w) -> bucket_sorted (local (fst (Save Marshal entity w))).
Proof.
  intros entity w Hs. unfold Save, db_Update.
  destruct (Marshal entity) as [data|e]; simpl; [now apply bucket_Put_sorted | exact Hs].
Qed.

Lemma Delete_sorted :
  forall id w, bucket_sorted (local w) -> bucket_sorted (local (fst (Delete id w))).
Proof. intros id w Hs. unfold Delete, db_Update. simpl. now apply bucket_Delete_sorted. Qed.

Lemma CascadeUpdate_sorted :
  forall entity w,
    bucket_sorted (local w) ->
    bucket_sorted (local (fst (fst (CascadeUpdate Marshal entity w)))).
Proof.
  intros entity w Hs. unfold CascadeUpdate, db_Update.
  destruct (remote_GetDataVersion (Id entity) (remote w)) as [r1 [v|e]]; [|exact Hs].
  destruct (Marshal (set_DataVersion entity (int32_add v 1))) as [data|e]; [|exact Hs].
  destruct (remote_Update (set_DataVersion entity (int32_add v 1)) v r1) as [r2 [e|]];
    simpl; [exact Hs | now apply bucket_Put_sorted].
Qed.

Lemma refreshOne_sorted :
  forall id version w,
    bucket_sorted (local w) ->
    bucket_sorted (local (fst (refreshOne Marshal Unmarshal id version w))).
Proof.
  intros id version w Hs. unfold refreshOne.
  destruct (remote_Get id (remote w)) as [r1 [standardEntity|e]]; [|exact Hs].
  destruct (Get Unmarshal id (set_remote w r1)) as [entity [e|]]; [exact Hs|].
  destruct standardEntity as [std|], entity as [ent|]; try exact Hs.
  - destruct (DataVersion ent <? version); [now apply Save_sorted | exact Hs].
  - destruct (-1 <? version); [now apply Save_sorted | exact Hs].
  - now apply Delete_sorted.
Qed.

Lemma refreshAll_puts_sorted :
  forall updates tx,
    bucket_sorted tx -> bucket_sorted (fst (refreshAll_puts Marshal updates tx)).
Proof.
  induction updates as [|update next IH]; intros tx Hs; simpl; [exact Hs|].
  destruct (Marshal update) as [data|e]; [|exact Hs].
  apply IH. now apply bucket_Put_sorted.
Qed.

Lemma refreshAll_sorted :
  forall standards w,
    bucket_sorted (local w) ->
    bucket_sorted (local (fst (refreshAll Marshal Unmarshal standards w))).
Proof.
  intros standards w Hs. unfold refreshAll.
  set (deletions := refreshAll_deletions (map fst (local w)) standards).
  set (w0 := log (Infof_refreshAll_deletions (List.length deletions)) w).
  destruct (refreshAll_updates Unmarshal standards w0 []) as [w1 collected] eqn:Hupd.
  apply refreshAll_updates_calls in Hupd. destruct Hupd as (Hl & _).
  change (local w0) with (local w) in Hl.
  destruct collected as [[us|e]|p]; simpl; try (now rewrite Hl).
  unfold db_Update.
  assert (Hd : bucket_sorted
                 (fold_left (fun tx deletion => bucket_Delete deletion tx) deletions (local w1))).
  { rewrite Hl. clear Hl. generalize (local w) Hs. induction deletions as [|d ds IH];
      intros b Hb; simpl; [exact Hb|]. apply IH. now apply bucket_Delete_sorted. }
  pose proof (refreshAll_puts_sorted us _ Hd) as Hp.
  destruct (refreshAll_puts Marshal us _) as [tx' [e|]]; simpl in *; [now rewrite Hl | exact Hp].
Qed.

End CursorOrder.

(** ** The drivers *)

Section DriverProperties.

Variable Marshal : PipelineInfo -> Result (list Byte.byte).
Variable Unmarshal : list Byte.byte -> PipelineInfo * option error.
Variable remoteSourceDao_SelectAllDataVersion
  : World -> World * Result (list MetadataVersion.t).
Variable compositeSourceDao_refreshAll
  : list MetadataVersion.t -> World -> World * Outcome (option error).
Variable compositeSourceDao_refreshOne : Z -> Z -> World -> World * Outcome (option error).
Variable remoteEndpointDao_SelectAllDataVersion
  : World -> World * Result (list MetadataVersion.t).
Variable compositeEndpointDao_refreshAll
  : list MetadataVersion.t -> World -> World * Outcome (option error).
Variable compositeEndpointDao_refreshOne : Z -> Z -> World -> World * Outcome (option error).

Lemma refreshOne_remote_error :
  forall id version w e,
    snd (remote_Get id (remote w)) = Err e ->
    snd (refreshOne Marshal Unmarshal id version w) = Some e
    /\ local (fst (refreshOne Marshal Unmarshal id version w)) = local w
    /\ logs (fst (refreshOne Marshal Unmarshal id version w)) = logs w.
Proof.
  intros id version w e H. unfold refreshOne.
  destruct (remote_Get id (remote w)) as [r1 got]. simpl in H. subst got.
  repeat split.
Qed.

(** C6, amended.  An error met by the incremental reconciliation of a
    pipeline is logged by [OnSyncEvent], which returns normally; when the
    error is the coordinator's, the local bucket is left as it was.  Full
    reconciliation does not log and go on: once the source and endpoint
    blocks are through, an error from listing the pipeline versions or from
    [refreshAll] makes [RefreshMetadata] panic. *)
Theorem reconciliation_error_handling :
  (forall id version w,
      exists w',
        OnSyncEvent Marshal Unmarshal compositeSourceDao_refreshOne
          compositeEndpointDao_refreshOne
          (SyncEvent.mk SyncEventTypePipeline id version) w = (w', Returned tt)
        /\ (forall e, snd (refreshOne Marshal Unmarshal id version w) = Some e ->
               logs w' = logs (fst (refreshOne Marshal Unmarshal id version w))
                         ++ [Errorf_refresh "PipelineInfo" e])
        /\ (forall e, snd (remote_Get id (remote w)) = Err e ->
               local w' = local w
               /\ logs w' = logs w ++ [Errorf_refresh "PipelineInfo" e]))
  /\ (forall w w1 w2 e,
        RefreshMetadata_block "SourceInfo" remoteSourceDao_SelectAllDataVersion
          compositeSourceDao_refreshAll w = (w1, Returned tt) ->
        RefreshMetadata_block "EndpointInfo" remoteEndpointDao_SelectAllDataVersion
          compositeEndpointDao_refreshAll w1 = (w2, Returned tt) ->
        (snd (remote_SelectAllDataVersion (remote w2)) = Err e ->
         snd (RefreshMetadata Marshal Unmarshal
                remoteSourceDao_SelectAllDataVersion compositeSourceDao_refreshAll
                remoteEndpointDao_SelectAllDataVersion compositeEndpointDao_refreshAll w)
         = Panicked (PanicRefresh "PipelineInfo" ListVersions e))
        /\ (forall standards w3,
              remotePipelineDao_SelectAllDataVersion w2 = (w3, OK standards) ->
              snd (refreshAll Marshal Unmarshal standards w3) = Returned (Some e) ->
              snd (RefreshMetadata Marshal Unmarshal
                remoteSourceDao_SelectAllDataVersion compositeSourceDao_refreshAll
                remoteEndpointDao_SelectAllDataVersion compositeEndpointDao_refreshAll w)
              = Panicked (PanicRefresh "PipelineInfo" ApplyVersions e))).
Proof.
  split.
  - intros id version w. unfold OnSyncEvent, OnSyncEvent_case. simpl.
    destruct (refreshOne Marshal Unmarshal id version w) as [w1 [e|]] eqn:Hone.
    + eexists. split; [reflexivity|]. split.
      * intros e0 He0. simpl in He0. inversion He0; subst. reflexivity.
      * intros e0 He0. destruct (refreshOne_remote_error id version w e0 He0) as (Hs & Hl & Hg).
        rewrite Hone in Hs, Hl, Hg. simpl in *. inversion Hs; subst. now rewrite Hl, Hg.
    + eexists. split; [reflexivity|]. split.
      * intros e0 He0. discriminate.
      * intros e0 He0. destruct (refreshOne_remote_error id version w e0 He0) as (Hs & _).
        rewrite Hone in Hs. discriminate.
  - intros w w1 w2 e Hsrc Hep. unfold RefreshMetadata.
    rewrite Hsrc, Hep. split.
    + intro Hlist. unfold RefreshMetadata_block, remotePipelineDao_SelectAllDataVersion.
      destruct (remote_SelectAllDataVersion (remote w2)) as [r1 got]. simpl in Hlist.
      subst got. reflexivity.
    + intros standards w3 Hlist Hall. unfold RefreshMetadata_block. rewrite Hlist.
      destruct (refreshAll Marshal Unmarshal standards w3) as [w4 o]. simpl in Hall.
      subst o. reflexivity.
Qed.

End DriverProperties.

(** ** Scans of the bucket *)

Lemma prefix_app : forall a s, String.prefix a s = true <-> exists post, s = (a ++ post)%string.
Proof.
  induction a as [|c a IH]; intros s.
  - split; [intros _; exists s; reflexivity | intros _; now destruct s].
  - destruct s as [|d s]; simpl.
    + split; [discriminate | intros (post & H); discriminate].
    + destruct (ascii_dec c d) as [-> | Hne].
      * rewrite IH. split; intros (post & H); exists post; [now subst | now inversion H].
      * split; [discriminate | intros (post & H); inversion H; congruence].
Qed.

Lemma Contains_unfold :
  forall s substr,
    Contains s substr
    = String.prefix substr s
      || match s with
         | EmptyString => false
         | String _ s' => Contains s' substr
         end.
Proof. intros s substr. destruct s; reflexivity. Qed.

(** [Contains s substr] holds exactly when [substr] occurs in [s]. *)
Lemma Contains_spec :
  forall s substr,
    Contains s substr = true <-> exists pre post, s = (pre ++ substr ++ post)%string.
Proof.
  intros s substr. split.
  - induction s as [|c s IH]; rewrite Contains_unfold; intro H;
      apply orb_true_iff in H; destruct H as [H | H]; try discriminate.
    + apply prefix_app in H. destruct H as (post & H). exists EmptyString, post. exact H.
    + apply prefix_app in H. destruct H as (post & H). exists EmptyString, post. exact H.
    + destruct (IH H) as (pre & post & Heq). exists (String c pre), post. simpl. now rewrite Heq.
  - intros (pre & post & H). subst s. induction pre as [|c pre IH].
    + assert (Hp : String.prefix substr (substr ++ post) = true)
        by (apply prefix_app; now exists post).
      simpl append. rewrite Contains_unfold, Hp. reflexivity.
    + simpl append. rewrite Contains_unfold, IH. apply orb_true_r.
Qed.

Section ScanProperties.

Variable Unmarshal : list Byte.byte -> PipelineInfo * option error.
Variable PipelineInfoStatusDisable : Z.

Lemma well_formed_records_In :
  forall e b,
    In e (well_formed_records Unmarshal b)
    <-> exists k v, In (k, v) b /\ Unmarshal v = (e, None).
Proof.
  intros e b. unfold well_formed_records. rewrite in_flat_map. split.
  - intros ([k v] & Hin & He). simpl in He.
    destruct (Unmarshal v) as [e' [err|]] eqn:Hu; simpl in He; [contradiction|].
    destruct He as [-> | []]. now exists k, v.
  - intros (k & v & Hin & Hu). exists (k, v). split; [exact Hin|]. simpl.
    rewrite Hu. now left.
Qed.

(** The loop of [SelectList] appends the well-formed records that pass
    its filter, in cursor order. *)
Lemma SelectList_loop_filter :
  forall params cursor list,
    SelectList_loop Unmarshal PipelineInfoStatusDisable params cursor list
    = list ++ filter (SelectList_match PipelineInfoStatusDisable params)
                (well_formed_records Unmarshal cursor).
Proof.
  intros params cursor. induction cursor as [|[k v] next IH]; intros list.
  - simpl. now rewrite app_nil_r.
  - cbn [SelectList_loop well_formed_records flat_map snd].
    fold (well_formed_records Unmarshal next).
    destruct (Unmarshal v) as [entity [err|]]; [apply IH|].
    cbn [app filter]. unfold SelectList_match at 1.
    destruct (PipelineInfoParams.Name params =? "")%string,
             (Contains (Name entity) (PipelineInfoParams.Name params)),
             (PipelineInfoParams.SourceId params =? 0),
             (SourceId entity =? PipelineInfoParams.SourceId params),
             (PipelineInfoParams.EndpointId params =? 0),
             (EndpointId entity =? PipelineInfoParams.EndpointId params),
             (PipelineInfoParams.EndpointType params =? 0),
             (EndpointType entity =? PipelineInfoParams.EndpointType params),
             (PipelineInfoParams.Enable params),
             (Status entity =? PipelineInfoStatusDisable);
      cbn [negb andb orb]; rewrite IH; try reflexivity;
      rewrite <- app_assoc; reflexivity.
Qed.

Lemma SelectList_result :
  forall params w,
    SelectList Unmarshal PipelineInfoStatusDisable params w
    = (w, (filter (SelectList_match PipelineInfoStatusDisable params)
             (well_formed_records Unmarshal (local w)), None)).
Proof. intros params w. unfold SelectList. now rewrite SelectList_loop_filter. Qed.

(** The loop of [GetByParam] stops at the first well-formed record that
    passes its filter. *)
Lemma GetByParam_loop_find :
  forall params cursor entity,
    match find (GetByParam_match params) (well_formed_records Unmarshal cursor) with
    | Some e => GetByParam_loop Unmarshal params cursor entity false = (e, true)
    | None => snd (GetByParam_loop Unmarshal params cursor entity false) = false
    end.
Proof.
  intros params cursor. induction cursor as [|[k v] next IH]; intros entity.
  - reflexivity.
  - cbn [GetByParam_loop well_formed_records flat_map snd].
    fold (well_formed_records Unmarshal next).
    destruct (Unmarshal v) as [e [err|]]; [apply IH|].
    cbn [app find]. unfold GetByParam_match at 1.
    destruct (PipelineInfoParams.Name params =? "")%string,
             (Name e =? PipelineInfoParams.Name params)%string,
             (PipelineInfoParams.SourceId params =? 0),
             (SourceId e =? PipelineInfoParams.SourceId params),
             (PipelineInfoParams.EndpointId params =? 0),
             (EndpointId e =? PipelineInfoParams.EndpointId params);
      cbn [negb andb orb]; try reflexivity; apply IH.
Qed.

Lemma GetByParam_find :
  forall params w,
    GetByParam Unmarshal params w
    = (w, match find (GetByParam_match params) (well_formed_records Unmarshal (local w)) with
          | Some e => (Some e, None)
          | None => (None, Some NotFound)
          end).
Proof.
  intros params w. unfold GetByParam.
  pose proof (GetByParam_loop_find params (local w) zero_PipelineInfo) as H.
  destruct (find (GetByParam_match params) (well_formed_records Unmarshal (local w))).
  - now rewrite H.
  - destruct (GetByParam_loop Unmarshal params (local w) zero_PipelineInfo false) as [e found].
    simpl in H. now subst found.
Qed.

Lemma GetByParam_match_spec :
  forall params e,
    PipelineInfoParams.Name params <> EmptyString ->
    GetByParam_match params e = true
    <-> Name e = PipelineInfoParams.Name params
        /\ (PipelineInfoParams.SourceId params = 0
            \/ SourceId e = PipelineInfoParams.SourceId params)
        /\ (PipelineInfoParams.EndpointId params = 0
            \/ EndpointId e = PipelineInfoParams.EndpointId params).
Proof.
  intros params e Hname. unfold GetByParam_match.
  apply String.eqb_neq in Hname. rewrite Hname. simpl.
  rewrite !andb_true_iff, !orb_true_iff, String.eqb_eq, !Z.eqb_eq. tauto.
Qed.

Lemma SelectList_match_spec :
  forall params e,
    PipelineInfoParams.Name params <> EmptyString ->
    SelectList_match PipelineInfoStatusDisable params e = true
    <-> (exists pre post, Name e = (pre ++ PipelineInfoParams.Name params ++ post)%string)
        /\ (PipelineInfoParams.SourceId params = 0
            \/ SourceId e = PipelineInfoParams.SourceId params)
        /\ (PipelineInfoParams.EndpointId params = 0
            \/ EndpointId e = PipelineInfoParams.EndpointId params)
        /\ (PipelineInfoParams.EndpointType params = 0
            \/ EndpointType e = PipelineInfoParams.EndpointType params)
        /\ (PipelineInfoParams.Enable params = false
            \/ Status e <> PipelineInfoStatusDisable).
Proof.
  intros params e Hname. unfold SelectList_match.
  apply String.eqb_neq in Hname. rewrite Hname. simpl.
  rewrite !andb_true_iff, !orb_true_iff, !negb_true_iff, Contains_spec, !Z.eqb_eq, Z.eqb_neq.
  tauto.
Qed.

(** C7, amended.  With a non-empty name filter, [SelectList] returns the
    well-formed records whose name contains the filter name (and that agree
    with the other filters), while [GetByParam] returns a well-formed
    record whose name equals the filter name; both compare [SourceId] and
    [EndpointId] for equality; [GetByParam] fails with [NotFound] exactly
    when no well-formed record has the filter name and the linked ids. *)
Theorem name_filter_contains_or_equals :
  forall params w,
    PipelineInfoParams.Name params <> EmptyString ->
    (forall e,
        In e (fst (snd (SelectList Unmarshal PipelineInfoStatusDisable params w)))
        <-> In e (well_formed_records Unmarshal (local w))
            /\ (exists pre post,
                   Name e = (pre ++ PipelineInfoParams.Name params ++ post)%string)
            /\ (PipelineInfoParams.SourceId params = 0
                \/ SourceId e = PipelineInfoParams.SourceId params)
            /\ (PipelineInfoParams.EndpointId params = 0
                \/ EndpointId e = PipelineInfoParams.EndpointId params)
            /\ (PipelineInfoParams.EndpointType params = 0
                \/ EndpointType e = PipelineInfoParams.EndpointType params)
            /\ (PipelineInfoParams.Enable params = false
                \/ Status e <> PipelineInfoStatusDisable))
    /\ (forall e,
          snd (GetByParam Unmarshal params w) = (Some e, None) ->
          In e (well_formed_records Unmarshal (local w))
          /\ Name e = PipelineInfoParams.Name params
          /\ (PipelineInfoParams.SourceId params = 0
              \/ SourceId e = PipelineInfoParams.SourceId params)
          /\ (PipelineInfoParams.EndpointId params = 0
              \/ EndpointId e = PipelineInfoParams.EndpointId params))
    /\ (snd (GetByParam Unmarshal params w) = (None, Some NotFound)
        <-> forall e,
              In e (well_formed_records Unmarshal (local w)) ->
              ~ (Name e = PipelineInfoParams.Name params
                 /\ (PipelineInfoParams.SourceId params = 0
                     \/ SourceId e = PipelineInfoParams.SourceId params)
                 /\ (PipelineInfoParams.EndpointId params = 0
                     \/ EndpointId e = PipelineInfoParams.EndpointId params))).
Proof.
  intros params w Hname.
  rewrite SelectList_result, GetByParam_find. cbn [fst snd]. split; [|split].
  - intro e. rewrite filter_In, SelectList_match_spec by exact Hname. tauto.
  - intros e H.
    destruct (find (GetByParam_match params) (well_formed_records Unmarshal (local w)))
      as [e0|] eqn:F; inversion H; subst.
    apply find_some in F. destruct F as (Hin & F).
    apply GetByParam_match_spec in F; tauto.
  - destruct (find (GetByParam_match params) (well_formed_records Unmarshal (local w)))
      as [e0|] eqn:F; split.
    + discriminate.
    + intro H. exfalso. apply find_some in F. destruct F as (Hin & F).
      apply GetByParam_match_spec in F; [|exact Hname]. exact (H e0 Hin F).
    + intros _ e He Hm. pose proof (find_none _ _ F e He) as Hf.
      apply GetByParam_match_spec in Hm; [congruence | exact Hname].
    + reflexivity.
Qed.

(** C8, amended.  A scan skips the records that do not decode without
    logging them (the scan writes no log record and changes nothing), never
    fails because of them, and still answers from the well-formed records:
    [SelectList] returns every well-formed record that passes its filter,
    and [GetByParam] returns a well-formed record that passes its filter
    whenever there is one. *)
Theorem scans_skip_malformed_records_silently :
  forall params w,
    fst (SelectList Unmarshal PipelineInfoStatusDisable params w) = w
    /\ snd (snd (SelectList Unmarshal PipelineInfoStatusDisable params w)) = None
    /\ (forall k v e,
          In (k, v) (local w) -> Unmarshal v = (e, None) ->
          SelectList_match PipelineInfoStatusDisable params e = true ->
          In e (fst (snd (SelectList Unmarshal PipelineInfoStatusDisable params w))))
    /\ fst (GetByParam Unmarshal params w) = w
    /\ (forall k v e,
          In (k, v) (local w) -> Unmarshal v = (e, None) ->
          GetByParam_match params e = true ->
          exists e',
            snd (GetByParam Unmarshal params w) = (Some e', None)
            /\ In e' (well_formed_records Unmarshal (local w))
            /\ GetByParam_match params e' = true).
Proof.
  intros params w. rewrite SelectList_result, GetByParam_find. cbn [fst snd].
  split; [reflexivity|]. split; [reflexivity|]. split; [|split; [reflexivity|]].
  - intros k v e Hin Hu Hm. apply filter_In. split; [|exact Hm].
    apply well_formed_records_In. eauto.
  - intros k v e Hin Hu Hm.
    destruct (find (GetByParam_match params) (well_formed_records Unmarshal (local w)))
      as [e'|] eqn:F.
    + exists e'. apply find_some in F. tauto.
    + exfalso. assert (He : In e (well_formed_records Unmarshal (local w)))
        by (apply well_formed_records_In; eauto).
      pose proof (find_none _ _ F e He). congruence.
Qed.

End ScanProperties.

(** ** The batch endpoint *)

Section BatchProperties.

Variables RowEventRequest RuleContext Message Env : Type.
Variable IsLuaEnable : RuleContext -> bool.
Variable parseByLua : RowEventRequest -> RuleContext -> Env -> Env * option error.
Variable parseByRegular : RowEventRequest -> RuleContext -> Env -> Env * option error.

Lemma Batch_range_all_parsed :
  forall (parse : RowEventRequest -> RuleContext -> Env -> Env * option error)
         requests ctx env,
    all_parsed parse requests ctx env ->
    snd (Batch_range parse requests ctx env) = None.
Proof.
  intros parse requests ctx. induction requests as [|request next IH]; intros env H; simpl.
  - reflexivity.
  - destruct H as (Hhead & Htail).
    destruct (parse request ctx env) as [env' err]. simpl in *. subst err. now apply IH.
Qed.

(** C9.  If every parse step of the run succeeds, [Batch] returns the
    count 0 and a nil error, whatever the number of requests. *)
Theorem Batch_returns_zero :
  forall requests ctx env,
    all_parsed (if IsLuaEnable ctx then parseByLua else parseByRegular) requests ctx env ->
    snd (Batch Message IsLuaEnable parseByLua parseByRegular requests ctx env)
    = (0, None).
Proof.
  intros requests ctx env H. unfold Batch.
  destruct (IsLuaEnable ctx); apply Batch_range_all_parsed in H;
    match goal with
    | |- context [Batch_range ?p ?r ?c ?e] => destruct (Batch_range p r c e) as [env' err]
    end; simpl in *; subst err; reflexivity.
Qed.

End BatchProperties.

(** ** The reference wire format *)

Lemma Z_of_byte_of_Z : forall z, Z_of_byte (byte_of_Z z) = z mod 256.
Proof.
  intro z. unfold Z_of_byte, byte_of_Z.
  pose proof (Z.mod_pos_bound z 256 ltac:(lia)) as Hb.
  destruct (Byte.of_N (Z.to_N (z mod 256))) as [b|] eqn:E.
  - apply Byte.to_of_N in E. rewrite E. apply Z2N.id. lia.
  - apply Byte.of_N_None_iff in E. lia.
Qed.

Lemma be_encode_length : forall n z, List.length (be_encode n z) = n.
Proof.
  induction n as [|k IH]; intro z; simpl; [reflexivity|].
  rewrite length_app, IH. simpl. lia.
Qed.

Lemma be_decode_snoc :
  forall l b, be_decode (l ++ [b]) = be_decode l * 256 + Z_of_byte b.
Proof. intros l b. unfold be_decode. now rewrite fold_left_app. Qed.

Lemma be_decode_encode :
  forall n z, 0 <= z < 256 ^ Z.of_nat n -> be_decode (be_encode n z) = z.
Proof.
  induction n as [|k IH]; intros z Hz.
  - simpl in *. unfold be_decode. simpl. lia.
  - cbn [be_encode]. rewrite be_decode_snoc, Z_of_byte_of_Z, IH.
    + pose proof (Z.div_mod z 256 ltac:(lia)). lia.
    + rewrite Nat2Z.inj_succ, Z.pow_succ_r in Hz by lia.
      split; [apply Z.div_pos; lia | apply Z.div_lt_upper_bound; lia].
Qed.

(** [marshalId] is read back by [BytesToUint64] on every [uint64]. *)
Lemma BytesToUint64_marshalId :
  forall id, 0 <= id < 2 ^ 64 -> BytesToUint64 (marshalId id) = id.
Proof. intros id H. apply (be_decode_encode 8). exact H. Qed.

Lemma bytes_compare_snoc :
  forall l1 l2 x y,
    List.length l1 = List.length l2 ->
    bytes_compare (l1 ++ [x]) (l2 ++ [y])
    = match bytes_compare l1 l2 with
      | Eq => Z_of_byte x ?= Z_of_byte y
      | c => c
      end.
Proof.
  induction l1 as [|a l1 IH]; intros [|b l2] x y Hlen; simpl in *; try discriminate.
  - now destruct (Z_of_byte x ?= Z_of_byte y).
  - destruct (Z_of_byte a ?= Z_of_byte b); auto.
Qed.

Lemma be_encode_compare :
  forall n a b,
    0 <= a < 256 ^ Z.of_nat n -> 0 <= b < 256 ^ Z.of_nat n ->
    bytes_compare (be_encode n a) (be_encode n b) = (a ?= b).
Proof.
  induction n as [|k IH]; intros a b Ha Hb.
  - simpl in *. assert (a = 0) by lia. assert (b = 0) by lia. now subst.
  - cbn [be_encode].
    rewrite bytes_compare_snoc by now rewrite !be_encode_length.
    rewrite !Z_of_byte_of_Z.
    rewrite Nat2Z.inj_succ, Z.pow_succ_r in Ha, Hb by lia.
    rewrite IH by (split; [apply Z.div_pos; lia | apply Z.div_lt_upper_bound; lia]).
    pose proof (Z.div_mod a 256 ltac:(lia)) as Hda.
    pose proof (Z.div_mod b 256 ltac:(lia)) as Hdb.
    pose proof (Z.mod_pos_bound a 256 ltac:(lia)).
    pose proof (Z.mod_pos_bound b 256 ltac:(lia)).
    destruct (Z.compare_spec (a / 256) (b / 256)) as [Hq | Hq | Hq].
    + destruct (Z.compare_spec (a mod 256) (b mod 256));
        symmetry; [apply Z.compare_eq_iff | apply Z.compare_lt_iff | apply Z.compare_gt_iff];
        lia.
    + symmetry. apply Z.compare_lt_iff. lia.
    + symmetry. apply Z.compare_gt_iff. lia.
Qed.

(** The byte order of the keys is the numeric order of the ids: a cursor
    over keys [marshalId id] meets the ids in increasing order. *)
Lemma marshalId_compare :
  forall a b,
    0 <= a < 2 ^ 64 -> 0 <= b < 2 ^ 64 ->
    bytes_compare (marshalId a) (marshalId b) = (a ?= b).
Proof. intros a b Ha Hb. now apply (be_encode_compare 8). Qed.

Lemma firstn_skipn_app :
  forall (A : Type) (l1 l2 : list A) n,
    List.length l1 = n -> firstn n (l1 ++ l2) = l1 /\ skipn n (l1 ++ l2) = l2.
Proof.
  intros A l1 l2 n H. subst n. split.
  - rewrite firstn_app, Nat.sub_diag, firstn_all. simpl. apply app_nil_r.
  - rewrite skipn_app, Nat.sub_diag, skipn_all. reflexivity.
Qed.

Lemma take_be_encode :
  forall n z rest,
    firstn n (be_encode n z ++ rest) = be_encode n z
    /\ skipn n (be_encode n z ++ rest) = rest.
Proof. intros n z rest. apply firstn_skipn_app, be_encode_length. Qed.

Lemma wrap_int32_mod : forall z, is_int32 z -> wrap_int32 (z mod 2 ^ 32) = z.
Proof.
  intros z [Hlo Hhi]. unfold wrap_int32.
  rewrite Zplus_mod_idemp_l. rewrite Z.mod_small; lia.
Qed.

Lemma uint_ok_spec : forall bits z, uint_ok bits z = true -> 0 <= z < 2 ^ bits.
Proof. unfold uint_ok. intros bits z H. apply andb_true_iff in H. lia. Qed.

Lemma int32_ok_spec : forall z, int32_ok z = true -> is_int32 z.
Proof. unfold int32_ok, is_int32. intros z H. apply andb_true_iff in H. lia. Qed.

(** What [wire_Marshal] writes, [wire_Unmarshal] reads back. *)
Lemma wire_Unmarshal_Marshal :
  forall e data, wire_Marshal e = OK data -> wire_Unmarshal data = (e, None).
Proof.
  intros [id name src ep ty st ver] data. unfold wire_Marshal.
  cbn [Id Name SourceId EndpointId EndpointType Status DataVersion].
  destruct (uint_ok 64 id) eqn:H1; [|discriminate].
  destruct (uint_ok 64 src) eqn:H2; [|discriminate].
  destruct (uint_ok 64 ep) eqn:H3; [|discriminate].
  destruct (int32_ok ty) eqn:H4; [|discriminate].
  destruct (uint_ok 32 st) eqn:H5; [|discriminate].
  destruct (int32_ok ver) eqn:H6; [|discriminate].
  cbn [andb]. intro H.
  match type of H with OK ?body = _ => assert (Hd : data = body) by congruence end.
  clear H. subst data.
  apply uint_ok_spec in H1, H2, H3, H5. apply int32_ok_spec in H4, H6.
  unfold wire_Unmarshal.
  match goal with
  | |- context [(List.length ?d <? 36)%nat] =>
      assert (Hlen : (List.length d <? 36)%nat = false)
  end.
  { apply Nat.ltb_ge. rewrite !length_app, !be_encode_length. lia. }
  rewrite Hlen. cbv zeta.
  repeat match goal with
         | |- context [firstn ?n (be_encode ?n ?z ++ ?rest)] =>
             rewrite (proj1 (take_be_encode n z rest))
         | |- context [skipn ?n (be_encode ?n ?z ++ ?rest)] =>
             rewrite (proj2 (take_be_encode n z rest))
         end.
  rewrite (be_decode_encode 8 id), (be_decode_encode 8 src), (be_decode_encode 8 ep),
    (be_decode_encode 4 (ty mod 2 ^ 32)), (be_decode_encode 4 st),
    (be_decode_encode 4 (ver mod 2 ^ 32)); try assumption;
    try (apply Z.mod_pos_bound; lia).
  now rewrite !wrap_int32_mod, string_of_list_byte_of_string.
Qed.

(** * Worked instances

    The theorems above, run on the sample stores with the reference wire
    format. *)

(** The spec's cascade scenario: renaming pipeline 1 yields version 1, and
    both copies show the new name. *)
Example CascadeUpdate_rename :
  snd (CascadeUpdate wire_Marshal p1_renamed w_cascade) = (1, None)
  /\ Get wire_Unmarshal 1 (fst (fst (CascadeUpdate wire_Marshal p1_renamed w_cascade)))
     = (Some (pipeline 1 "p1-renamed" 1), None)
  /\ remote_find 1 (remote (fst (fst (CascadeUpdate wire_Marshal p1_renamed w_cascade))))
     = Some (pipeline 1 "p1-renamed" 1).
Proof. vm_compute. repeat split. Qed.

(** The spec's reconciliation scenario: pipeline 2 is fetched and
    overwritten, pipeline 3 is fetched and inserted, pipeline 4 is deleted. *)
Example refreshAll_scenario :
  snd (refreshAll wire_Marshal wire_Unmarshal manifest_refresh w_refresh) = Returned None
  /\ local (fst (refreshAll wire_Marshal wire_Unmarshal manifest_refresh w_refresh))
     = [(2, stored (pipeline 2 "p2" 5)); (3, stored (pipeline 3 "p3" 1))]
  /\ calls (remote (fst (refreshAll wire_Marshal wire_Unmarshal manifest_refresh w_refresh)))
     = [CallGet 2; CallGet 3].
Proof. vm_compute. repeat split. Qed.

(** C3.  The local bucket has no copy of pipeline 3 and the coordinator
    holds it at version 1: [refreshOne 3 1] fetches the remote body, then
    returns the [NotFound] of the local [Get] and stores nothing. *)
Theorem refreshOne_absent_local_copy_is_an_error :
  refreshOne wire_Marshal wire_Unmarshal 3 1 w_new_remote
  = (mkWorld [] (mkRemote [pipeline 3 "p3" 1] [] [CallGet 3]) [], Some NotFound).
Proof. vm_compute. reflexivity. Qed.

Lemma CascadeUpdate_success_versions_witness :
  (exists body,
      Get wire_Unmarshal 1 (fst (fst (CascadeUpdate wire_Marshal p1_renamed w_cascade)))
      = (Some body, None)
      /\ DataVersion body = int32_add 0 1)
  /\ stored_version 1 (remote (fst (fst (CascadeUpdate wire_Marshal p1_renamed w_cascade))))
     = Some (int32_add 0 1)
  /\ fst (snd (CascadeUpdate wire_Marshal p1_renamed w_cascade)) = int32_add 0 1.
Proof.
  apply (CascadeUpdate_success_versions wire_Marshal wire_Unmarshal wire_Unmarshal_Marshal
           p1_renamed w_cascade 0 _
           (snd (fst (CascadeUpdate wire_Marshal p1_renamed w_cascade))) _).
  - reflexivity.
  - vm_compute. reflexivity.
Defined.

Lemma CascadeUpdate_cas_failure_rolls_back_witness :
  exists w',
    CascadeUpdate wire_Marshal p1_renamed w_conflict
    = (w', set_DataVersion p1_renamed (int32_add 0 1), (0, Some VersionConflict))
    /\ local w' = local w_conflict
    /\ entities (remote w') = entities (remote w_conflict)
    /\ logs w' = logs w_conflict.
Proof.
  apply (CascadeUpdate_cas_failure_rolls_back wire_Marshal p1_renamed w_conflict
           (fst (remote_GetDataVersion 1 (remote w_conflict))) 0
           (stored (pipeline 1 "p1-renamed" 1))
           (fst (remote_Update (pipeline 1 "p1-renamed" 1) 0
                   (fst (remote_GetDataVersion 1 (remote w_conflict)))))
           VersionConflict).
  - vm_compute. reflexivity.
  - vm_compute. reflexivity.
  - vm_compute. reflexivity.
Defined.

Lemma CascadeUpdate_failure_after_read_witness :
  fst (snd (CascadeUpdate wire_Marshal p1_renamed w_conflict)) = 0
  /\ fst (snd (CascadeUpdate wire_Marshal p1_renamed w_conflict)) <> int32_add 0 1
  /\ snd (fst (CascadeUpdate wire_Marshal p1_renamed w_conflict))
     = set_DataVersion p1_renamed (int32_add 0 1)
  /\ local (fst (fst (CascadeUpdate wire_Marshal p1_renamed w_conflict))) = local w_conflict
  /\ entities (remote (fst (fst (CascadeUpdate wire_Marshal p1_renamed w_conflict))))
     = entities (remote w_conflict)
  /\ stored_version (Id (snd (fst (CascadeUpdate wire_Marshal p1_renamed w_conflict))))
       (remote (fst (fst (CascadeUpdate wire_Marshal p1_renamed w_conflict))))
     = Some 0
  /\ DataVersion (snd (fst (CascadeUpdate wire_Marshal p1_renamed w_conflict))) <> 0.
Proof.
  apply (CascadeUpdate_failure_after_read wire_Marshal p1_renamed w_conflict
           (fst (remote_GetDataVersion 1 (remote w_conflict))) 0 _ _ _ VersionConflict).
  - vm_compute. reflexivity.
  - vm_compute. reflexivity.
Defined.

Lemma refreshAll_deletes_and_fetches_exactly_witness :
  (exists k,
      calls (remote (fst (refreshAll wire_Marshal wire_Unmarshal manifest_refresh w_refresh)))
      = calls (remote w_refresh)
        ++ map (fun s => CallGet (MetadataVersion.Id s))
             (firstn k (filter (stale wire_Unmarshal w_refresh) manifest_refresh)))
  /\ (forall id, ~ In id (map MetadataVersion.Id manifest_refresh) ->
        bucket_Get id
          (local (fst (refreshAll wire_Marshal wire_Unmarshal manifest_refresh w_refresh)))
        = None)
  /\ calls (remote (fst (refreshAll wire_Marshal wire_Unmarshal manifest_refresh w_refresh)))
     = calls (remote w_refresh)
       ++ map (fun s => CallGet (MetadataVersion.Id s))
            (filter (stale wire_Unmarshal w_refresh) manifest_refresh)
  /\ (forall s, In s manifest_refresh -> stale wire_Unmarshal w_refresh s = true ->
        exists body data,
          remote_find (MetadataVersion.Id s) (remote w_refresh) = Some body
          /\ wire_Marshal body = OK data
          /\ bucket_Get (MetadataVersion.Id s)
               (local (fst (refreshAll wire_Marshal wire_Unmarshal manifest_refresh
                              w_refresh)))
             = Some data)
  /\ (forall id, In id (map MetadataVersion.Id manifest_refresh) ->
        (forall s, In s manifest_refresh -> MetadataVersion.Id s = id ->
                   stale wire_Unmarshal w_refresh s = false) ->
        bucket_Get id
          (local (fst (refreshAll wire_Marshal wire_Unmarshal manifest_refresh w_refresh)))
        = bucket_Get id (local w_refresh)
        /\ ~ In (CallGet id)
             (map (fun s => CallGet (MetadataVersion.Id s))
                (filter (stale wire_Unmarshal w_refresh) manifest_refresh))).
Proof.
  assert (Hrun : refreshAll wire_Marshal wire_Unmarshal manifest_refresh w_refresh
                 = (fst (refreshAll wire_Marshal wire_Unmarshal manifest_refresh w_refresh),
                    Returned None))
    by (vm_compute; reflexivity).
  destruct (refreshAll_deletes_and_fetches_exactly wire_Marshal wire_Unmarshal
              manifest_refresh w_refresh _ _ Hrun) as [Hcalls Hdone].
  split; [exact Hcalls | exact (Hdone eq_refl)].
Defined.

(** C5, as stated, fails: the local copy of pipeline 1 has version 5, the
    event carries version 3, and the coordinator no longer holds the
    pipeline; [refreshOne 1 3] deletes the local copy. *)
Lemma refreshOne_deletes_fresh_copy_of_deleted_entity :
  Get wire_Unmarshal 1 w_deleted_upstream = (Some (pipeline 1 "p1" 5), None)
  /\ 3 <= DataVersion (pipeline 1 "p1" 5)
  /\ local (fst (refreshOne wire_Marshal wire_Unmarshal 1 3 w_deleted_upstream)) = []
  /\ snd (refreshOne wire_Marshal wire_Unmarshal 1 3 w_deleted_upstream) = None.
Proof. vm_compute. repeat split; discriminate. Qed.

Lemma refreshOne_keeps_fresh_copy_witness :
  local (fst (refreshOne wire_Marshal wire_Unmarshal 1 3 w_fresh)) = local w_fresh
  /\ logs (fst (refreshOne wire_Marshal wire_Unmarshal 1 3 w_fresh)) = logs w_fresh.
Proof.
  apply (refreshOne_keeps_fresh_copy wire_Marshal wire_Unmarshal 1 3 w_fresh
           (pipeline 1 "p1" 5)).
  - vm_compute. reflexivity.
  - simpl. lia.
  - vm_compute. discriminate.
Defined.

(** C6, as stated, fails for full reconciliation: the coordinator fails the
    listing of the pipeline versions, and [RefreshMetadata] panics; nothing
    is logged. *)
Lemma RefreshMetadata_panics_when_coordinator_is_down :
  RefreshMetadata wire_Marshal wire_Unmarshal
    no_versions no_refreshAll no_versions no_refreshAll w_down
  = (mkWorld [(1, stored p1)] (mkRemote [p1] [] [CallSelectAllDataVersion]) [],
     Panicked (PanicRefresh "PipelineInfo" ListVersions CoordinatorUnavailable)).
Proof. vm_compute. reflexivity. Qed.

Lemma reconciliation_error_handling_witness :
  (exists w',
      OnSyncEvent wire_Marshal wire_Unmarshal no_refreshOne no_refreshOne
        (SyncEvent.mk SyncEventTypePipeline 1 1) w_down = (w', Returned tt)
      /\ local w' = local w_down
      /\ logs w' = logs w_down ++ [Errorf_refresh "PipelineInfo" CoordinatorUnavailable])
  /\ snd (RefreshMetadata wire_Marshal wire_Unmarshal
            no_versions no_refreshAll no_versions no_refreshAll w_down_later)
     = Panicked (PanicRefresh "PipelineInfo" ApplyVersions CoordinatorUnavailable).
Proof.
  pose proof (reconciliation_error_handling wire_Marshal wire_Unmarshal
                no_versions no_refreshAll no_refreshOne
                no_versions no_refreshAll no_refreshOne) as [Hone Hall].
  split.
  - destruct (Hone 1 1 w_down) as (w' & Hrun & _ & Hdown).
    exists w'. split; [exact Hrun|]. apply Hdown. vm_compute. reflexivity.
  - eapply (proj2 (Hall w_down_later w_down_later w_down_later CoordinatorUnavailable
                     eq_refl eq_refl)).
    + reflexivity.
    + vm_compute. reflexivity.
Defined.

(** C7, as stated, fails for [GetByParam]: the only stored pipeline is named
    "p1-renamed", which contains the filter name "p1"; [SelectList] returns
    it and [GetByParam] returns [NotFound]. *)
Lemma GetByParam_does_not_match_by_substring :
  Contains "p1-renamed" "p1" = true
  /\ snd (SelectList wire_Unmarshal 0 (by_name "p1") w_renamed)
     = ([pipeline 2 "p1-renamed" 0], None)
  /\ snd (GetByParam wire_Unmarshal (by_name "p1") w_renamed) = (None, Some NotFound).
Proof. vm_compute. repeat split. Qed.

Lemma name_filter_contains_or_equals_witness :
  (forall e,
      In e (fst (snd (SelectList wire_Unmarshal 0 (by_name "p1") w_scan)))
      <-> In e (well_formed_records wire_Unmarshal (local w_scan))
          /\ (exists pre post,
                 Name e = (pre ++ PipelineInfoParams.Name (by_name "p1") ++ post)%string)
          /\ (PipelineInfoParams.SourceId (by_name "p1") = 0
              \/ SourceId e = PipelineInfoParams.SourceId (by_name "p1"))
          /\ (PipelineInfoParams.EndpointId (by_name "p1") = 0
              \/ EndpointId e = PipelineInfoParams.EndpointId (by_name "p1"))
          /\ (PipelineInfoParams.EndpointType (by_name "p1") = 0
              \/ EndpointType e = PipelineInfoParams.EndpointType (by_name "p1"))
          /\ (PipelineInfoParams.Enable (by_name "p1") = false \/ Status e <> 0))
  /\ (forall e,
        snd (GetByParam wire_Unmarshal (by_name "p1") w_scan) = (Some e, None) ->
        In e (well_formed_records wire_Unmarshal (local w_scan))
        /\ Name e = PipelineInfoParams.Name (by_name "p1")
        /\ (PipelineInfoParams.SourceId (by_name "p1") = 0
            \/ SourceId e = PipelineInfoParams.SourceId (by_name "p1"))
        /\ (PipelineInfoParams.EndpointId (by_name "p1") = 0
            \/ EndpointId e = PipelineInfoParams.EndpointId (by_name "p1")))
  /\ (snd (GetByParam wire_Unmarshal (by_name "p1") w_scan) = (None, Some NotFound)
      <-> forall e,
            In e (well_formed_records wire_Unmarshal (local w_scan)) ->
            ~ (Name e = PipelineInfoParams.Name (by_name "p1")
               /\ (PipelineInfoParams.SourceId (by_name "p1") = 0
                   \/ SourceId e = PipelineInfoParams.SourceId (by_name "p1"))
               /\ (PipelineInfoParams.EndpointId (by_name "p1") = 0
                   \/ EndpointId e = PipelineInfoParams.EndpointId (by_name "p1")))).
Proof.
  apply (name_filter_contains_or_equals wire_Unmarshal 0 (by_name "p1") w_scan).
  simpl. discriminate.
Defined.

(** C8, as stated, fails on the logging: the bucket holds a record that does
    not decode; both scans skip it and answer from the other records, and
    neither writes a log record. *)
Lemma scans_do_not_log_malformed_records :
  snd (wire_Unmarshal corrupt) = Some SerializationError
  /\ bucket_Get 0 (local w_scan) = Some corrupt
  /\ SelectList wire_Unmarshal 0 (by_name "p1") w_scan
     = (w_scan, ([p1; pipeline 2 "p1-renamed" 0], None))
  /\ GetByParam wire_Unmarshal (by_name "p1") w_scan = (w_scan, (Some p1, None))
  /\ logs w_scan = [].
Proof. vm_compute. repeat split. Qed.

Lemma Batch_returns_zero_witness :
  snd (Batch unit (fun lua : bool => lua) parse_ok parse_ok [1; 2; 3]%nat true tt)
  = (0, None).
Proof.
  apply (Batch_returns_zero nat bool unit unit (fun lua : bool => lua) parse_ok parse_ok
           [1; 2; 3]%nat true tt).
  simpl. repeat split.
Defined.

(** * Further properties *)

(** ** Writes and reads of the local bucket *)

Section StoreProperties.

Variable Marshal : PipelineInfo -> Result (list Byte.byte).
Variable Unmarshal : list Byte.byte -> PipelineInfo * option error.
Variable remote_Insert : PipelineInfo -> Remote -> Remote * option error.
Variable remote_Delete : Z -> Remote -> Remote * option error.

Hypothesis Unmarshal_Marshal :
  forall e data, Marshal e = OK data -> Unmarshal data = (e, None).

(** X1.  What [Save] has stored, [Get] reads back; the other ids and the
    coordinator are not touched. *)
Theorem Save_then_Get :
  forall entity w w',
    Save Marshal entity w = (w', None) ->
    Get Unmarshal (Id entity) w' = (Some entity, None)
    /\ (forall id, id <> Id entity -> Get Unmarshal id w' = Get Unmarshal id w)
    /\ remote w' = remote w
    /\ logs w' = logs w.
Proof.
  intros entity w w' Hrun. unfold Save, db_Update in Hrun.
  destruct (Marshal entity) as [data|e] eqn:Hm; inversion Hrun; subst; clear Hrun.
  split; [|split; [|split; reflexivity]].
  - unfold Get. simpl. now rewrite bucket_Get_Put_same, (Unmarshal_Marshal _ _ Hm).
  - intros id Hne. unfold Get. simpl. now rewrite bucket_Get_Put_other.
Qed.

(** X2.  [Delete] never fails, also for an id that is not stored; afterwards
    [Get] of the id answers [NotFound], and the other ids read as before. *)
Theorem Delete_then_Get :
  forall id w,
    snd (Delete id w) = None
    /\ Get Unmarshal id (fst (Delete id w)) = (None, Some NotFound)
    /\ (forall k, k <> id -> Get Unmarshal k (fst (Delete id w)) = Get Unmarshal k w).
Proof.
  intros id w. unfold Delete, db_Update. simpl. split; [reflexivity|]. split.
  - unfold Get. simpl. now rewrite bucket_Get_Delete_same.
  - intros k Hne. unfold Get. simpl. now rewrite bucket_Get_Delete_other.
Qed.

(** X3.  A failed [CascadeInsert] leaves the local bucket as it was (the
    record put before the remote insert is rolled back) and writes no log
    line; when the entity does not marshal, the coordinator is not called. *)
Theorem CascadeInsert_failure_rolls_back :
  forall entity w w' line e,
    CascadeInsert Marshal remote_Insert entity w = (w', line, Some e) ->
    local w' = local w
    /\ logs w' = logs w
    /\ line = None
    /\ (Marshal entity = Err e /\ remote w' = remote w
        \/ remote_Insert entity (remote w) = (remote w', Some e)).
Proof.
  intros entity w w' line e Hrun. unfold CascadeInsert, db_Update in Hrun.
  destruct (Marshal entity) as [data|e0] eqn:Hm.
  - destruct (remote_Insert entity (remote w)) as [r' [e0|]] eqn:Hins;
      inversion Hrun; subst; clear Hrun. simpl. repeat split. now right.
  - inversion Hrun; subst; clear Hrun. simpl. repeat split. now left.
Qed.

(** X4.  After a successful [CascadeInsert] the local bucket holds the
    entity under its id, the other ids read as before, the coordinator has
    received exactly the insert, and the log line names the entity. *)
Theorem CascadeInsert_success :
  forall entity w w' line,
    CascadeInsert Marshal remote_Insert entity w = (w', line, None) ->
    Get Unmarshal (Id entity) w' = (Some entity, None)
    /\ (forall id, id <> Id entity -> Get Unmarshal id w' = Get Unmarshal id w)
    /\ remote_Insert entity (remote w) = (remote w', None)
    /\ line = Some (Infof_CascadeInsert (Name entity)).
Proof.
  intros entity w w' line Hrun. unfold CascadeInsert, db_Update in Hrun.
  destruct (Marshal entity) as [data|e0] eqn:Hm; [|discriminate].
  destruct (remote_Insert entity (remote w)) as [r' [e0|]] eqn:Hins;
    inversion Hrun; subst; clear Hrun.
  split; [|split; [|split; reflexivity]].
  - unfold Get. simpl. now rewrite bucket_Get_Put_same, (Unmarshal_Marshal _ _ Hm).
  - intros id Hne. unfold Get. simpl. now rewrite bucket_Get_Put_other.
Qed.

(** X5.  [CascadeDelete] removes the local record only if the coordinator
    accepts the delete: on an error the local bucket is as it was, on
    success the id reads [NotFound]; the other ids read as before either
    way. *)
Theorem CascadeDelete_follows_the_coordinator :
  forall id w w' line err,
    CascadeDelete remote_Delete id w = (w', line, err) ->
    remote_Delete id (remote w) = (remote w', err)
    /\ (forall k, k <> id -> Get Unmarshal k w' = Get Unmarshal k w)
    /\ match err with
       | Some _ => local w' = local w /\ line = None
       | None =>
           Get Unmarshal id w' = (None, Some NotFound)
           /\ line = Some (Infof_CascadeDelete id)
       end.
Proof.
  intros id w w' line err Hrun. unfold CascadeDelete, db_Update in Hrun.
  destruct (remote_Delete id (remote w)) as [r' [e|]] eqn:Hdel;
    inversion Hrun; subst; clear Hrun; simpl.
  - repeat split.
  - split; [reflexivity|]. split.
    + intros k Hne. unfold Get. simpl. now rewrite bucket_Get_Delete_other.
    + split; [|reflexivity]. unfold Get. simpl. now rewrite bucket_Get_Delete_same.
Qed.

End StoreProperties.

(** ** More on [CascadeUpdate] *)

Lemma find_replace_entity_other :
  forall e l k,
    k <> Id e ->
    find (fun y => Id y =? k) (replace_entity e l) = find (fun y => Id y =? k) l.
Proof.
  intros e l k Hne. induction l as [|y rest IH]; simpl; [reflexivity|].
  destruct (Id y =? Id e) eqn:E; simpl.
  - apply Z.eqb_eq in E.
    assert (H1 : (Id e =? k) = false) by (apply Z.eqb_neq; congruence).
    assert (H2 : (Id y =? k) = false) by (apply Z.eqb_neq; congruence).
    now rewrite H1, H2.
  - destruct (Id y =? k); [reflexivity | exact IH].
Qed.

Lemma remote_Update_other :
  forall entity version r r1 err k,
    remote_Update entity version r = (r1, err) ->
    k <> Id entity ->
    remote_find k r1 = remote_find k r.
Proof.
  unfold remote_Update, remote_call, remote_find. simpl.
  intros entity version r r1 err k H Hne.
  destruct (script r) as [|[e0|] s];
    try (inversion H; subst; reflexivity);
    destruct (find (fun x => Id x =? Id entity) (entities r)) as [x|];
    try (inversion H; subst; reflexivity);
    destruct (DataVersion x =? version); inversion H; subst; simpl;
    try reflexivity; now apply find_replace_entity_other.
Qed.

Section CascadeUpdateProperties.

Variable Marshal : PipelineInfo -> Result (list Byte.byte).
Variable Unmarshal : list Byte.byte -> PipelineInfo * option error.

Hypothesis Unmarshal_Marshal :
  forall e data, Marshal e = OK data -> Unmarshal data = (e, None).

(** X6.  When the version cannot be read (the coordinator fails, or does not
    hold the id), [CascadeUpdate] returns version 0 with that error, leaves
    the caller's entity and the local bucket as they were, and issues no
    update: the read is the only call the coordinator has received. *)
Theorem CascadeUpdate_version_read_fails :
  forall entity w e,
    snd (remote_GetDataVersion (Id entity) (remote w)) = Err e ->
    snd (CascadeUpdate Marshal entity w) = (0, Some e)
    /\ snd (fst (CascadeUpdate Marshal entity w)) = entity
    /\ local (fst (fst (CascadeUpdate Marshal entity w))) = local w
    /\ logs (fst (fst (CascadeUpdate Marshal entity w))) = logs w
    /\ entities (remote (fst (fst (CascadeUpdate Marshal entity w)))) = entities (remote w)
    /\ calls (remote (fst (fst (CascadeUpdate Marshal entity w))))
       = calls (remote w) ++ [CallGetDataVersion (Id entity)].
Proof.
  intros entity w e H. unfold CascadeUpdate.
  destruct (remote_GetDataVersion (Id entity) (remote w)) as [r1 got] eqn:Hget.
  simpl in H. subst got. simpl.
  unfold remote_GetDataVersion, remote_call in Hget. simpl in Hget.
  destruct (script (remote w)) as [|[e0|] s]; simpl in Hget;
    try (inversion Hget; subst; simpl; repeat split);
    destruct (remote_find (Id entity) _); inversion Hget; subst; simpl; repeat split.
Qed.

(** X7.  Whatever its outcome, [CascadeUpdate] touches no other id: every
    other key of the local bucket and every other entity of the coordinator
    is as before. *)
Theorem CascadeUpdate_touches_one_id :
  forall entity w k,
    k <> Id entity ->
    bucket_Get k (local (fst (fst (CascadeUpdate Marshal entity w)))) = bucket_Get k (local w)
    /\ remote_find k (remote (fst (fst (CascadeUpdate Marshal entity w))))
       = remote_find k (remote w).
Proof.
  intros entity w k Hne.
  destruct (remote_GetDataVersion (Id entity) (remote w)) as [r1 [v|e]] eqn:Hget.
  - rewrite (CascadeUpdate_after_read Marshal _ _ _ _ Hget).
    apply remote_GetDataVersion_OK in Hget. destruct Hget as (_ & He & _).
    assert (Hr1 : remote_find k r1 = remote_find k (remote w))
      by (unfold remote_find; now rewrite He).
    destruct (Marshal (set_DataVersion entity (int32_add v 1))) as [data|e]; simpl;
      [|split; [reflexivity | exact Hr1]].
    destruct (remote_Update (set_DataVersion entity (int32_add v 1)) v r1)
      as [r2 [e|]] eqn:Hupd; simpl;
      pose proof (remote_Update_other _ _ _ _ _ k Hupd Hne) as Hr2;
      (split; [|now rewrite Hr2]).
    + reflexivity.
    + apply bucket_Get_Put_other. exact Hne.
  - unfold CascadeUpdate. rewrite Hget. simpl. split; [reflexivity|].
    unfold remote_GetDataVersion, remote_call, remote_find in *. simpl in Hget.
    destruct (script (remote w)) as [|[e0|] s]; simpl in Hget;
      try (inversion Hget; subst; reflexivity);
      destruct (find _ (entities (remote w))); inversion Hget; subst; reflexivity.
Qed.

(** X8.  Two successful updates of the same id in a row return consecutive
    versions, and the local bucket ends with the second body. *)
Theorem CascadeUpdate_twice :
  forall first second w w1 first' v1 w2 second' v2,
    Id second = Id first ->
    CascadeUpdate Marshal first w = (w1, first', (v1, None)) ->
    CascadeUpdate Marshal second w1 = (w2, second', (v2, None)) ->
    v2 = int32_add v1 1
    /\ second' = set_DataVersion second v2
    /\ Get Unmarshal (Id first) w2 = (Some second', None)
    /\ stored_version (Id first) (remote w2) = Some v2.
Proof.
  intros first second w w1 first' v1 w2 second' v2 Hid Hrun1 Hrun2.
  assert (Hv1 : stored_version (Id first) (remote w1) = Some v1).
  { destruct (remote_GetDataVersion (Id first) (remote w)) as [r1 [v|e]] eqn:Hget.
    - rewrite (CascadeUpdate_after_read Marshal _ _ _ _ Hget) in Hrun1.
      destruct (Marshal (set_DataVersion first (int32_add v 1))) as [data|e]; [|discriminate].
      destruct (remote_Update (set_DataVersion first (int32_add v 1)) v r1)
        as [r2 [e|]] eqn:Hupd; [discriminate|].
      inversion Hrun1; subst; clear Hrun1. simpl.
      apply remote_Update_None in Hupd. now destruct Hupd as (_ & Hnew).
    - unfold CascadeUpdate in Hrun1. rewrite Hget in Hrun1. discriminate. }
  destruct (remote_GetDataVersion (Id second) (remote w1)) as [r1 [v|e]] eqn:Hget.
  - pose proof (remote_GetDataVersion_OK _ _ _ _ Hget) as (Hv & _).
    rewrite Hid, Hv1 in Hv. inversion Hv; subst v.
    rewrite (CascadeUpdate_after_read Marshal _ _ _ _ Hget) in Hrun2.
    destruct (Marshal (set_DataVersion second (int32_add v1 1))) as [data|e] eqn:Hm;
      [|discriminate].
    destruct (remote_Update (set_DataVersion second (int32_add v1 1)) v1 r1)
      as [r2 [e|]] eqn:Hupd; [discriminate|].
    inversion Hrun2; subst; clear Hrun2.
    apply remote_Update_None in Hupd. destruct Hupd as (_ & Hnew). simpl in Hnew.
    rewrite Hid in Hnew.
    repeat split; [|exact Hnew].
    unfold Get. simpl. rewrite <- Hid, bucket_Get_Put_same.
    now rewrite (Unmarshal_Marshal _ _ Hm).
  - unfold CascadeUpdate in Hrun2. rewrite Hget in Hrun2. discriminate.
Qed.

End CascadeUpdateProperties.

(** ** More on reconciliation *)

Lemma bucket_Get_all_None :
  forall b : Bucket, (forall k, bucket_Get k b = None) -> b = [].
Proof.
  intros [|[k v] rest] H; [reflexivity|].
  specialize (H k). simpl in H. rewrite Z.eqb_refl in H. discriminate.
Qed.

Lemma filter_none :
  forall (A : Type) (f : A -> bool) (l : list A),
    (forall x, In x l -> f x = false) -> filter f l = [].
Proof.
  intros A f l. induction l as [|x rest IH]; intro H; simpl; [reflexivity|].
  rewrite (H x (or_introl eq_refl)). apply IH. intros y Hy. apply H. now right.
Qed.

Section MoreRefreshProperties.

Variable Marshal : PipelineInfo -> Result (list Byte.byte).
Variable Unmarshal : list Byte.byte -> PipelineInfo * option error.

Hypothesis Unmarshal_Marshal :
  forall e data, Marshal e = OK data -> Unmarshal data = (e, None).

Lemma Get_Some :
  forall id w e, fst (Get Unmarshal id w) = Some e -> Get Unmarshal id w = (Some e, None).
Proof.
  intros id w e. unfold Get. destruct (bucket_Get id (local w)); [|discriminate].
  destruct (Unmarshal l) as [x [err|]]; simpl; [discriminate | congruence].
Qed.

Lemma Get_bucket :
  forall id w1 w2,
    bucket_Get id (local w1) = bucket_Get id (local w2) ->
    Get Unmarshal id w1 = Get Unmarshal id w2.
Proof. intros id w1 w2 H. unfold Get. now rewrite H. Qed.

(** X9.  A run of [refreshAll] that does not return nil (an error of the
    coordinator or of [proto.Marshal], or a panic) has changed nothing in
    the local bucket: no deletion is applied without the updates. *)
Theorem refreshAll_failure_keeps_the_bucket :
  forall standards w w' out,
    refreshAll Marshal Unmarshal standards w = (w', out) ->
    out <> Returned None ->
    local w' = local w.
Proof.
  intros standards w w' out Hrun Hout. unfold refreshAll in Hrun.
  set (deletions := refreshAll_deletions (map fst (local w)) standards) in *.
  set (w0 := log (Infof_refreshAll_deletions (List.length deletions)) w) in *.
  destruct (refreshAll_updates Unmarshal standards w0 []) as [w1 collected] eqn:Hupd.
  apply refreshAll_updates_calls in Hupd. destruct Hupd as (Hl & _).
  change (local w0) with (local w) in Hl.
  destruct collected as [[us|e]|p]; try (inversion Hrun; subst; exact Hl).
  unfold db_Update in Hrun.
  destruct (refreshAll_puts Marshal us _) as [tx' [e|]]; inversion Hrun; subst; simpl.
  - exact Hl.
  - congruence.
Qed.

(** After a run of [refreshAll] that returns nil, when the manifest is not
    ahead of the coordinator's bodies. *)
Lemma refreshAll_postcondition :
  forall standards w w',
    refreshAll Marshal Unmarshal standards w = (w', Returned None) ->
    (forall s body,
        In s standards -> remote_find (MetadataVersion.Id s) (remote w) = Some body ->
        MetadataVersion.Version s <= DataVersion body) ->
    (forall s, In s standards ->
       exists l, Get Unmarshal (MetadataVersion.Id s) w' = (Some l, None)
                 /\ MetadataVersion.Version s <= DataVersion l)
    /\ (forall id, bucket_Get id (local w') <> None ->
          In id (map MetadataVersion.Id standards)).
Proof.
  intros standards w w' Hrun Hmanifest.
  destruct (refreshAll_returned_nil Marshal Unmarshal _ _ _ Hrun)
    as (Hgone & _ & Hstale & Hkept).
  split.
  - intros s Hs.
    destruct (existsb (fun s' => (MetadataVersion.Id s' =? MetadataVersion.Id s)
                                 && stale Unmarshal w s') standards) eqn:E.
    + apply existsb_exists in E. destruct E as (s' & Hs' & Hboth).
      apply andb_true_iff in Hboth. destruct Hboth as (Hid & Hst). apply Z.eqb_eq in Hid.
      destruct (Hstale s' Hs' Hst) as (body & data & Hf & Hm & Hg).
      rewrite Hid in Hf, Hg. exists body. split.
      * unfold Get. rewrite Hg. now rewrite (Unmarshal_Marshal _ _ Hm).
      * now apply (Hmanifest s body).
    + assert (Hfresh : forall s', In s' standards ->
                MetadataVersion.Id s' = MetadataVersion.Id s -> stale Unmarshal w s' = false).
      { intros s' Hs' Hid. destruct (stale Unmarshal w s') eqn:Hst; [|reflexivity].
        assert (Ht : existsb (fun s' => (MetadataVersion.Id s' =? MetadataVersion.Id s)
                                        && stale Unmarshal w s') standards = true).
        { apply existsb_exists. exists s'. split; [exact Hs'|].
          rewrite Hst, andb_true_r. now apply Z.eqb_eq. }
        congruence. }
      destruct (Hkept (MetadataVersion.Id s)) as (Hsame & _);
        [apply in_map; exact Hs | exact Hfresh |].
      pose proof (Hfresh s Hs eq_refl) as Hst. unfold stale in Hst.
      destruct (fst (Get Unmarshal (MetadataVersion.Id s) w)) as [ent|] eqn:Hget;
        [|discriminate].
      apply Get_Some in Hget. exists ent. split.
      * rewrite <- Hget. now apply Get_bucket.
      * apply Z.ltb_ge in Hst. exact Hst.
  - intros id Hsome.
    destruct (in_dec Z.eq_dec id (map MetadataVersion.Id standards)) as [Hin | Hnot];
      [exact Hin|].
    exfalso. apply Hsome. now apply Hgone.
Qed.

(** X10.  After a run of [refreshAll] that returns nil, with a manifest that
    is not ahead of the coordinator's bodies, every manifest entry has a
    readable local copy at least as recent as the entry says, and the
    local bucket holds no id outside the manifest. *)
Theorem refreshAll_makes_the_bucket_current :
  forall standards w w',
    refreshAll Marshal Unmarshal standards w = (w', Returned None) ->
    (forall s body,
        In s standards -> remote_find (MetadataVersion.Id s) (remote w) = Some body ->
        MetadataVersion.Version s <= DataVersion body) ->
    (forall s, In s standards ->
       exists l, Get Unmarshal (MetadataVersion.Id s) w' = (Some l, None)
                 /\ MetadataVersion.Version s <= DataVersion l)
    /\ (forall id, bucket_Get id (local w') <> None ->
          In id (map MetadataVersion.Id standards)).
Proof.
  intros standards w w' Hrun Hmanifest.
  destruct (refreshAll_postcondition _ _ _ Hrun Hmanifest) as (Hcurrent & Hkeys).
  split; assumption.
Qed.

(** When no entry is stale, the collecting loop calls nothing and collects
    nothing. *)
Lemma refreshAll_updates_fresh :
  forall standards w updates,
    (forall s, In s standards -> stale Unmarshal w s = false) ->
    exists w1,
      refreshAll_updates Unmarshal standards w updates = (w1, Returned (OK updates))
      /\ local w1 = local w /\ remote w1 = remote w.
Proof.
  induction standards as [|standard next IH]; intros w updates Hfresh.
  - exists w. repeat split.
  - simpl. pose proof (Hfresh standard (or_introl eq_refl)) as Hst.
    rewrite refreshAll_fresh_stale in Hst.
    destruct (Get Unmarshal (MetadataVersion.Id standard) w) as [entity err]. simpl in Hst.
    destruct (refreshAll_fresh entity standard) as [ent|]; [|discriminate].
    destruct (IH (log (Infof_refreshAll_ignore (Name ent) (DataVersion ent)
                         (MetadataVersion.Version standard)) w) updates)
      as (w1 & Hrun & Hl & Hr).
    + intros s Hs. rewrite <- (Hfresh s (or_intror Hs)). now apply stale_local.
    + exists w1. repeat split; assumption.
Qed.

(** X11.  [refreshAll] is idempotent: run again with the same manifest after
    a run that returned nil (the manifest not being ahead of the
    coordinator's bodies), it returns nil, calls the coordinator for
    nothing and leaves the local bucket exactly as it is. *)
Theorem refreshAll_idempotent :
  forall standards w w',
    refreshAll Marshal Unmarshal standards w = (w', Returned None) ->
    (forall s body,
        In s standards -> remote_find (MetadataVersion.Id s) (remote w) = Some body ->
        MetadataVersion.Version s <= DataVersion body) ->
    exists w'',
      refreshAll Marshal Unmarshal standards w' = (w'', Returned None)
      /\ local w'' = local w'
      /\ remote w'' = remote w'.
Proof.
  intros standards w w' Hrun Hmanifest.
  destruct (refreshAll_postcondition _ _ _ Hrun Hmanifest) as (Hcur & Hkeys).
  assert (Hdel : refreshAll_deletions (map fst (local w')) standards = []).
  { unfold refreshAll_deletions. apply filter_none. intros id Hid.
    apply negb_false_iff. apply existsb_exists.
    assert (Hin : In id (map MetadataVersion.Id standards)).
    { apply Hkeys. intro Hnone. apply bucket_Get_None_iff in Hnone. contradiction. }
    apply in_map_iff in Hin. destruct Hin as (s & Hs & Hsin).
    exists s. split; [exact Hsin | apply Z.eqb_eq; congruence]. }
  unfold refreshAll. rewrite Hdel. simpl List.length.
  destruct (refreshAll_updates_fresh standards (log (Infof_refreshAll_deletions 0) w') [])
    as (w1 & Hupd & Hl & Hr).
  { intros s Hs. destruct (Hcur s Hs) as (l & Hget & Hle).
    unfold stale. change (Get Unmarshal (MetadataVersion.Id s) (log _ w'))
      with (Get Unmarshal (MetadataVersion.Id s) w').
    rewrite Hget. simpl. apply Z.ltb_ge. exact Hle. }
  rewrite Hupd. unfold db_Update. simpl. eexists. split; [reflexivity|].
  simpl. split; assumption.
Qed.

(** X12.  An empty manifest empties the local bucket: [refreshAll] of no
    entry returns nil, deletes every record and calls the coordinator for
    nothing. *)
Theorem refreshAll_empty_manifest :
  forall w,
    exists w',
      refreshAll Marshal Unmarshal [] w = (w', Returned None)
      /\ local w' = []
      /\ remote w' = remote w.
Proof.
  intro w. unfold refreshAll, db_Update. simpl. eexists. split; [reflexivity|].
  simpl. split; [|reflexivity].
  apply bucket_Get_all_None. intro k. rewrite bucket_Get_refreshAll_deletions. reflexivity.
Qed.

(** X13.  [refreshOne id] touches no other id of the local bucket. *)
Theorem refreshOne_touches_one_id :
  forall id version w k,
    k <> id ->
    bucket_Get k (local (fst (refreshOne Marshal Unmarshal id version w)))
    = bucket_Get k (local w).
Proof.
  intros id version w k Hne. unfold refreshOne.
  destruct (remote_Get id (remote w)) as [r1 [standardEntity|e]] eqn:Hrg; [|reflexivity].
  pose proof (remote_Get_entities _ _ _ _ Hrg) as (_ & _ & Hgot).
  specialize (Hgot _ eq_refl).
  destruct (Get Unmarshal id (set_remote w r1)) as [entity [e|]]; [reflexivity|].
  assert (Hsave : forall std w0,
            local w0 = local w -> remote_find id (remote w) = Some std ->
            bucket_Get k (local (fst (Save Marshal std w0))) = bucket_Get k (local w)).
  { intros std w0 Hw0 Hf. apply remote_find_Id in Hf. unfold Save, db_Update.
    destruct (Marshal std) as [data|e]; simpl; rewrite Hw0; [|reflexivity].
    apply bucket_Get_Put_other. congruence. }
  destruct standardEntity as [std|], entity as [ent|]; try reflexivity.
  - destruct (DataVersion ent <? version); [|reflexivity].
    apply Hsave; [reflexivity | now symmetry].
  - destruct (-1 <? version); [|reflexivity].
    apply Hsave; [reflexivity | now symmetry].
  - unfold Delete, db_Update. simpl. now apply bucket_Get_Delete_other.
Qed.

(** X14.  [refreshOne] writes only over a local copy that it can read: when
    the local [Get] of the id yields no entity (no record, or one that does
    not decode), the local bucket is left as it is, whatever the
    coordinator holds. *)
Theorem refreshOne_needs_a_readable_local_copy :
  forall id version w,
    fst (Get Unmarshal id w) = None ->
    local (fst (refreshOne Marshal Unmarshal id version w)) = local w.
Proof.
  intros id version w Hget. unfold refreshOne.
  destruct (remote_Get id (remote w)) as [r1 [standardEntity|e]]; [|reflexivity].
  change (Get Unmarshal id (set_remote w r1)) with (Get Unmarshal id w).
  unfold Get in *. destruct (bucket_Get id (local w)) as [data|]; [|reflexivity].
  destruct (Unmarshal data) as [x [err|]]; [reflexivity | discriminate].
Qed.

(** X15.  When the local copy is older than the event's version and the
    coordinator returns the entity, [refreshOne] stores the coordinator's
    body: it returns nil and [Get] then reads that body. *)
Theorem refreshOne_overwrites_older_copy :
  forall id version w ent r1 std data,
    Get Unmarshal id w = (Some ent, None) ->
    DataVersion ent < version ->
    remote_Get id (remote w) = (r1, OK (Some std)) ->
    Marshal std = OK data ->
    snd (refreshOne Marshal Unmarshal id version w) = None
    /\ Get Unmarshal id (fst (refreshOne Marshal Unmarshal id version w)) = (Some std, None).
Proof.
  intros id version w ent r1 std data Hget Hlt Hrg Hm. unfold refreshOne. rewrite Hrg.
  change (Get Unmarshal id (set_remote w r1)) with (Get Unmarshal id w). rewrite Hget.
  apply Z.ltb_lt in Hlt. rewrite Hlt.
  pose proof (remote_Get_entities _ _ _ _ Hrg) as (_ & _ & Hgot).
  specialize (Hgot _ eq_refl). symmetry in Hgot. apply remote_find_Id in Hgot.
  unfold Save, db_Update. rewrite Hm. simpl. split; [reflexivity|].
  unfold Get. simpl. rewrite Hgot, bucket_Get_Put_same.
  now rewrite (Unmarshal_Marshal _ _ Hm).
Qed.

(** X16.  When the coordinator answers that it holds no entity for the id
    and the local bucket has a readable copy, [refreshOne] deletes the
    copy, whatever version the event carries. *)
Theorem refreshOne_follows_remote_deletion :
  forall id version w ent r1,
    Get Unmarshal id w = (Some ent, None) ->
    remote_Get id (remote w) = (r1, OK None) ->
    snd (refreshOne Marshal Unmarshal id version w) = None
    /\ Get Unmarshal id (fst (refreshOne Marshal Unmarshal id version w))
       = (None, Some NotFound)
    /\ logs (fst (refreshOne Marshal Unmarshal id version w))
       = logs w ++ [Infof_refreshOne_delete (Name ent) (DataVersion ent)].
Proof.
  intros id version w ent r1 Hget Hrg. unfold refreshOne. rewrite Hrg.
  change (Get Unmarshal id (set_remote w r1)) with (Get Unmarshal id w). rewrite Hget.
  unfold Delete, db_Update. simpl. split; [reflexivity|]. split; [|reflexivity].
  unfold Get. simpl. now rewrite bucket_Get_Delete_same.
Qed.

End MoreRefreshProperties.

(** ** The store invariant and the order of the scans *)

Lemma In_bucket_Put :
  forall k v b x, In x (bucket_Put k v b) -> x = (k, v) \/ In x b.
Proof.
  intros k v b x. induction b as [|[k0 v0] rest IH]; simpl.
  - intuition.
  - destruct (k <? k0); simpl; [intuition|].
    destruct (k =? k0); simpl; intuition.
Qed.

Lemma In_bucket_Delete :
  forall k b x, In x (bucket_Delete k b) -> In x b.
Proof.
  intros k b x. induction b as [|[k0 v0] rest IH]; simpl; [intuition|].
  destruct (k =? k0); simpl; intuition.
Qed.

Lemma append_empty_r : forall s : string, (s ++ "")%string = s.
Proof. induction s as [|c s IH]; simpl; [reflexivity | now rewrite IH]. Qed.

Lemma Contains_refl : forall s, Contains s s = true.
Proof.
  intro s. apply Contains_spec. exists EmptyString, EmptyString. simpl.
  now rewrite append_empty_r.
Qed.

Section InvariantProperties.

Variable Marshal : PipelineInfo -> Result (list Byte.byte).
Variable Unmarshal : list Byte.byte -> PipelineInfo * option error.
Variable PipelineInfoStatusDisable : Z.
Variable remote_Insert : PipelineInfo -> Remote -> Remote * option error.
Variable remote_Delete : Z -> Remote -> Remote * option error.

Hypothesis Unmarshal_Marshal :
  forall e data, Marshal e = OK data -> Unmarshal data = (e, None).

Lemma bucket_Put_keyed :
  forall entity data b,
    Marshal entity = OK data ->
    bucket_keyed Unmarshal b ->
    bucket_keyed Unmarshal (bucket_Put (Id entity) data b).
Proof.
  intros entity data b Hm Hb k v e Hin Hu. apply In_bucket_Put in Hin.
  destruct Hin as [Heq | Hin]; [|now apply (Hb k v e)].
  inversion Heq; subst. rewrite (Unmarshal_Marshal _ _ Hm) in Hu. congruence.
Qed.

Lemma bucket_Delete_keyed :
  forall id b, bucket_keyed Unmarshal b -> bucket_keyed Unmarshal (bucket_Delete id b).
Proof. intros id b Hb k v e Hin Hu. apply In_bucket_Delete in Hin. now apply (Hb k v e). Qed.

Lemma Save_keyed :
  forall entity w,
    bucket_keyed Unmarshal (local w) ->
    bucket_keyed Unmarshal (local (fst (Save Marshal entity w))).
Proof.
  intros entity w Hb. unfold Save, db_Update.
  destruct (Marshal entity) as [data|e] eqn:Hm; simpl; [now apply bucket_Put_keyed | exact Hb].
Qed.

Lemma refreshAll_puts_keyed :
  forall updates tx,
    bucket_keyed Unmarshal tx ->
    bucket_keyed Unmarshal (fst (refreshAll_puts Marshal updates tx)).
Proof.
  induction updates as [|update next IH]; intros tx Hb; simpl; [exact Hb|].
  destruct (Marshal update) as [data|e] eqn:Hm; [|exact Hb].
  apply IH. now apply bucket_Put_keyed.
Qed.

Lemma refreshAll_keyed :
  forall standards w,
    bucket_keyed Unmarshal (local w) ->
    bucket_keyed Unmarshal (local (fst (refreshAll Marshal Unmarshal standards w))).
Proof.
  intros standards w Hb. unfold refreshAll.
  set (deletions := refreshAll_deletions (map fst (local w)) standards).
  set (w0 := log (Infof_refreshAll_deletions (List.length deletions)) w).
  destruct (refreshAll_updates Unmarshal standards w0 []) as [w1 collected] eqn:Hupd.
  apply refreshAll_updates_calls in Hupd. destruct Hupd as (Hl & _).
  change (local w0) with (local w) in Hl.
  destruct collected as [[us|e]|p]; simpl; try (now rewrite Hl).
  unfold db_Update.
  assert (Hd : bucket_keyed Unmarshal
                 (fold_left (fun tx deletion => bucket_Delete deletion tx) deletions (local w1))).
  { rewrite Hl. clear Hl. generalize (local w) Hb. induction deletions as [|d ds IH];
      intros b Hk; simpl; [exact Hk|]. apply IH. now apply bucket_Delete_keyed. }
  pose proof (refreshAll_puts_keyed us _ Hd) as Hp.
  destruct (refreshAll_puts Marshal us _) as [tx' [e|]]; simpl in *; [now rewrite Hl | exact Hp].
Qed.

Lemma refreshOne_keyed :
  forall id version w,
    bucket_keyed Unmarshal (local w) ->
    bucket_keyed Unmarshal (local (fst (refreshOne Marshal Unmarshal id version w))).
Proof.
  intros id version w Hb. unfold refreshOne.
  destruct (remote_Get id (remote w)) as [r1 [standardEntity|e]]; [|exact Hb].
  destruct (Get Unmarshal id (set_remote w r1)) as [entity [e|]]; [exact Hb|].
  destruct standardEntity as [std|], entity as [ent|]; try exact Hb.
  - destruct (DataVersion ent <? version); [now apply Save_keyed | exact Hb].
  - destruct (-1 <? version); [now apply Save_keyed | exact Hb].
  - unfold Delete, db_Update. simpl. now apply bucket_Delete_keyed.
Qed.

(** X17.  Every write of the DAO keeps the bucket in key order with each
    readable record stored under the id it carries, whatever the outcome of
    the write. *)
Theorem dao_writes_keep_the_bucket_well_keyed :
  forall w,
    bucket_sorted (local w) ->
    bucket_keyed Unmarshal (local w) ->
    let ok b := bucket_sorted b /\ bucket_keyed Unmarshal b in
    (forall entity, ok (local (fst (Save Marshal entity w))))
    /\ (forall id, ok (local (fst (Delete id w))))
    /\ (forall entity, ok (local (fst (fst (CascadeInsert Marshal remote_Insert entity w)))))
    /\ (forall entity, ok (local (fst (fst (CascadeUpdate Marshal entity w)))))
    /\ (forall id, ok (local (fst (fst (CascadeDelete remote_Delete id w)))))
    /\ (forall standards, ok (local (fst (refreshAll Marshal Unmarshal standards w))))
    /\ (forall id version, ok (local (fst (refreshOne Marshal Unmarshal id version w)))).
Proof.
  intros w Hs Hk ok. unfold ok. repeat split.
  - now apply Save_sorted.
  - now apply Save_keyed.
  - now apply Delete_sorted.
  - unfold Delete, db_Update. simpl. now apply bucket_Delete_keyed.
  - unfold CascadeInsert, db_Update. destruct (Marshal entity) as [data|e]; [|exact Hs].
    destruct (remote_Insert entity (remote w)) as [r' [e|]]; simpl;
      [exact Hs | now apply bucket_Put_sorted].
  - unfold CascadeInsert, db_Update. destruct (Marshal entity) as [data|e] eqn:Hm; [|exact Hk].
    destruct (remote_Insert entity (remote w)) as [r' [e|]]; simpl;
      [exact Hk | now apply bucket_Put_keyed].
  - now apply CascadeUpdate_sorted.
  - unfold CascadeUpdate, db_Update.
    destruct (remote_GetDataVersion (Id entity) (remote w)) as [r1 [v|e]]; [|exact Hk].
    destruct (Marshal (set_DataVersion entity (int32_add v 1))) as [data|e] eqn:Hm; [|exact Hk].
    destruct (remote_Update (set_DataVersion entity (int32_add v 1)) v r1) as [r2 [e|]];
      simpl; [exact Hk|].
    change (Id entity) with (Id (set_DataVersion entity (int32_add v 1))).
    now apply bucket_Put_keyed.
  - unfold CascadeDelete, db_Update.
    destruct (remote_Delete id (remote w)) as [r' [e|]]; simpl;
      [exact Hs | now apply bucket_Delete_sorted].
  - unfold CascadeDelete, db_Update.
    destruct (remote_Delete id (remote w)) as [r' [e|]]; simpl;
      [exact Hk | now apply bucket_Delete_keyed].
  - now apply refreshAll_sorted.
  - now apply refreshAll_keyed.
  - now apply refreshOne_sorted.
  - now apply refreshOne_keyed.
Qed.

(** The ids of the well-formed records of a well-keyed bucket increase. *)
Lemma well_formed_records_sorted :
  forall b f,
    bucket_sorted b -> bucket_keyed Unmarshal b ->
    StronglySorted Z.lt (map Id (filter f (well_formed_records Unmarshal b))).
Proof.
  unfold bucket_sorted. intros b f. induction b as [|[k v] rest IH]; intros Hs Hk.
  - constructor.
  - simpl in Hs. apply StronglySorted_inv in Hs. destruct Hs as (Hrest & Hall).
    assert (Hk' : bucket_keyed Unmarshal rest)
      by (intros k' v' e' Hin Hu; apply (Hk k' v' e'); [now right | exact Hu]).
    specialize (IH Hrest Hk').
    cbn [well_formed_records flat_map snd]. fold (well_formed_records Unmarshal rest).
    destruct (Unmarshal v) as [e [err|]] eqn:Hu; [exact IH|].
    cbn [app filter]. destruct (f e); [|exact IH].
    cbn [map]. constructor; [exact IH|].
    apply Forall_forall. intros x Hx. apply in_map_iff in Hx.
    destruct Hx as (e' & Hid & He'). apply filter_In in He'. destruct He' as (He' & _).
    apply well_formed_records_In in He'. destruct He' as (k' & v' & Hin & Hu').
    rewrite (Hk k v e (or_introl eq_refl) Hu).
    rewrite <- Hid, (Hk' k' v' e' Hin Hu').
    rewrite Forall_forall in Hall. apply Hall. apply in_map_iff. now exists (k', v').
Qed.

(** X18.  On a well-keyed bucket, [SelectList] returns its records by
    strictly increasing id; in particular no id comes twice. *)
Theorem SelectList_by_increasing_id :
  forall params w,
    bucket_sorted (local w) ->
    bucket_keyed Unmarshal (local w) ->
    StronglySorted Z.lt
      (map Id (fst (snd (SelectList Unmarshal PipelineInfoStatusDisable params w)))).
Proof.
  intros params w Hs Hk. rewrite SelectList_result. cbn [fst snd].
  now apply well_formed_records_sorted.
Qed.

(** X19.  On a well-keyed bucket, the record that [GetByParam] returns is
    the match of least id. *)
Theorem GetByParam_returns_least_id :
  forall params w e,
    bucket_sorted (local w) ->
    bucket_keyed Unmarshal (local w) ->
    snd (GetByParam Unmarshal params w) = (Some e, None) ->
    GetByParam_match params e = true
    /\ forall e',
         In e' (well_formed_records Unmarshal (local w)) ->
         GetByParam_match params e' = true ->
         Id e <= Id e'.
Proof.
  intros params w e Hs Hk Hrun. rewrite GetByParam_find in Hrun. cbn [snd] in Hrun.
  pose proof (well_formed_records_sorted (local w) (GetByParam_match params) Hs Hk) as Hsorted.
  destruct (find (GetByParam_match params) (well_formed_records Unmarshal (local w)))
    as [e0|] eqn:F; inversion Hrun; subst e0; clear Hrun.
  split; [now apply find_some in F|].
  intros e' He' Hm.
  assert (Hin : In e' (filter (GetByParam_match params)
                         (well_formed_records Unmarshal (local w))))
    by (apply filter_In; now split).
  revert F Hsorted Hin. generalize (well_formed_records Unmarshal (local w)).
  induction l as [|x rest IH]; simpl; [discriminate|].
  destruct (GetByParam_match params x) eqn:Hx.
  - intros Heq Hsorted Hin. inversion Heq; subst x. simpl in Hsorted, Hin.
    destruct Hin as [-> | Hin]; [lia|].
    apply StronglySorted_inv in Hsorted. destruct Hsorted as (_ & Hall).
    rewrite Forall_forall in Hall.
    assert (Id e < Id e') by (apply Hall; now apply in_map). lia.
  - intros F Hsorted Hin. now apply IH.
Qed.

(** X20.  What [GetByParam] finds, [SelectList] lists: with no filter on the
    endpoint type and on enablement, the record that [GetByParam] returns
    is among those [SelectList] returns for the same parameters. *)
Theorem GetByParam_result_in_SelectList :
  forall params w e,
    PipelineInfoParams.EndpointType params = 0 ->
    PipelineInfoParams.Enable params = false ->
    snd (GetByParam Unmarshal params w) = (Some e, None) ->
    In e (fst (snd (SelectList Unmarshal PipelineInfoStatusDisable params w))).
Proof.
  intros params w e Hty Hen Hrun. rewrite GetByParam_find in Hrun. cbn [snd] in Hrun.
  destruct (find (GetByParam_match params) (well_formed_records Unmarshal (local w)))
    as [e0|] eqn:F; inversion Hrun; subst e0; clear Hrun.
  apply find_some in F. destruct F as (Hin & Hm).
  rewrite SelectList_result. cbn [fst snd]. apply filter_In. split; [exact Hin|].
  unfold GetByParam_match in Hm. unfold SelectList_match. rewrite Hty, Hen.
  apply andb_true_iff in Hm. destruct Hm as (Hm & Hep).
  apply andb_true_iff in Hm. destruct Hm as (Hname & Hsrc).
  rewrite Hsrc, Hep. simpl. rewrite !andb_true_r.
  apply orb_true_iff in Hname. destruct Hname as [Hname | Hname].
  - now rewrite Hname.
  - apply String.eqb_eq in Hname. rewrite Hname, Contains_refl. apply orb_true_r.
Qed.

End InvariantProperties.

(** ** More on the batch endpoint *)

Section MoreBatchProperties.

Variables RowEventRequest RuleContext Message Env : Type.
Variable IsLuaEnable : RuleContext -> bool.
Variable parseByLua : RowEventRequest -> RuleContext -> Env -> Env * option error.
Variable parseByRegular : RowEventRequest -> RuleContext -> Env -> Env * option error.

Lemma Batch_range_first_error :
  forall (parse : RowEventRequest -> RuleContext -> Env -> Env * option error)
         before request after ctx env e,
    all_parsed parse before ctx env ->
    snd (parse request ctx (fst (Batch_range parse before ctx env))) = Some e ->
    Batch_range parse (before ++ request :: after) ctx env
    = (fst (parse request ctx (fst (Batch_range parse before ctx env))), Some e).
Proof.
  intros parse before request after ctx. induction before as [|r rest IH]; intros env e Hok Hfail.
  - simpl in *. destruct (parse request ctx env) as [env' err]. simpl in *. now subst err.
  - simpl in *. destruct Hok as (Hhead & Htail).
    destruct (parse r ctx env) as [env' err]. simpl in *. subst err. now apply IH.
Qed.

(** X21.  [Batch] stops at the first request whose parse step fails: it
    returns the count 0 with that error, and the requests after it are not
    parsed (the parsers' state is the one the failing step left). *)
Theorem Batch_stops_at_first_error :
  forall before request after ctx env e,
    let parse := if IsLuaEnable ctx then parseByLua else parseByRegular in
    all_parsed parse before ctx env ->
    snd (parse request ctx (fst (Batch_range parse before ctx env))) = Some e ->
    Batch Message IsLuaEnable parseByLua parseByRegular (before ++ request :: after) ctx env
    = (fst (parse request ctx (fst (Batch_range parse before ctx env))), (0, Some e)).
Proof.
  intros before request after ctx env e parse Hok Hfail. unfold Batch.
  pose proof (Batch_range_first_error parse before request after ctx env e Hok Hfail) as H.
  unfold parse in *. destruct (IsLuaEnable ctx); rewrite H; reflexivity.
Qed.

End MoreBatchProperties.

(** ** Keys *)

(** X22.  [marshalId] gives every id a key of 8 bytes; the keys of two ids
    compare bytewise as the ids compare, so distinct ids have distinct
    keys. *)
Theorem marshalId_keys :
  forall a b,
    0 <= a < 2 ^ 64 -> 0 <= b < 2 ^ 64 ->
    List.length (marshalId a) = 8%nat
    /\ bytes_compare (marshalId a) (marshalId b) = (a ?= b)
    /\ (marshalId a = marshalId b -> a = b).
Proof.
  intros a b Ha Hb. split; [apply be_encode_length|]. split.
  - now apply (be_encode_compare 8).
  - intro Heq. rewrite <- (be_decode_encode 8 a), <- (be_decode_encode 8 b) by assumption.
    unfold marshalId in Heq. now rewrite Heq.
Qed.

(** ** Initialize *)

(** X23.  With the etcd coordinator, [Initialize] returns nil as soon as the
    local store opens, and binds none of the position, state, machine and
    remote DAOs: they stay nil. *)
Theorem Initialize_etcd_binds_no_dao :
  forall config zookeeper_Initialize mysql_Initialize,
    AppConfig.IsCluster config = true ->
    AppConfig.GetClusterCoordinator config = ClusterCoordinatorEtcd ->
    Initialize config None zookeeper_Initialize mysql_Initialize nil_Daos
    = (mkDaos true true true None None None None None None, None).
Proof.
  intros config z m Hc He. unfold Initialize. now rewrite Hc, He.
Qed.

(** X24.  When [Initialize] returns nil for any other configuration, the
    position and state DAOs are bound, and the DAOs it has bound come from
    one backend: the local store when standalone (no machine or remote DAO),
    zookeeper or mysql when clustered (all six, the mysql metadata DAOs with
    the types 1, 2 and 3). *)
Theorem Initialize_binds_one_backend :
  forall config initializeBoltDB zookeeper_Initialize mysql_Initialize d,
    Initialize config initializeBoltDB zookeeper_Initialize mysql_Initialize nil_Daos
    = (d, None) ->
    ~ (AppConfig.IsCluster config = true
       /\ AppConfig.GetClusterCoordinator config = ClusterCoordinatorEtcd) ->
    (AppConfig.IsCluster config = false
     /\ d = mkDaos true true true (Some LocalDao) (Some LocalDao) None None None None)
    \/ (AppConfig.IsCluster config = true
        /\ AppConfig.GetClusterCoordinator config = ClusterCoordinatorZookeeper
        /\ zookeeper_Initialize = None
        /\ d = mkDaos true true true (Some ZookeeperDao) (Some ZookeeperDao)
                 (Some ZookeeperDao) (Some ZookeeperDao) (Some ZookeeperDao)
                 (Some ZookeeperDao))
    \/ (AppConfig.IsCluster config = true
        /\ AppConfig.GetClusterCoordinator config = ClusterCoordinatorMySQL
        /\ mysql_Initialize = None
        /\ d = mkDaos true true true (Some MySQLDao) (Some MySQLDao) (Some MySQLDao)
                 (Some (MySQLMetadataDao 1)) (Some (MySQLMetadataDao 2))
                 (Some (MySQLMetadataDao 3))).
Proof.
  intros config b z m d Hrun Hnot. unfold Initialize in Hrun.
  destruct b as [e|]; [discriminate|].
  destruct (AppConfig.IsCluster config) eqn:Hc.
  - destruct (AppConfig.GetClusterCoordinator config) eqn:Hk.
    + exfalso. apply Hnot. now split.
    + destruct z as [e|]; [discriminate|]. inversion Hrun; subst. right. left. repeat split.
    + destruct m as [e|]; [discriminate|]. inversion Hrun; subst. right. right. repeat split.
    + discriminate.
  - inversion Hrun; subst. left. split; reflexivity.
Qed.

(** X25.  When [Initialize] returns an error, it has bound none of the
    position, state, machine and remote DAOs. *)
Theorem Initialize_error_binds_no_dao :
  forall config initializeBoltDB zookeeper_Initialize mysql_Initialize d d' err,
    Initialize config initializeBoltDB zookeeper_Initialize mysql_Initialize d
    = (d', Some err) ->
    positionDao d' = positionDao d
    /\ stateDao d' = stateDao d
    /\ machineDao d' = machineDao d
    /\ remoteSourceDao d' = remoteSourceDao d
    /\ remoteEndpointDao d' = remoteEndpointDao d
    /\ remotePipelineDao d' = remotePipelineDao d.
Proof.
  intros config b z m d d' err Hrun. unfold Initialize in Hrun.
  destruct b as [e|]; [inversion Hrun; subst; repeat split|].
  destruct (AppConfig.IsCluster config); [|discriminate].
  destruct (AppConfig.GetClusterCoordinator config); try discriminate.
  - destruct z as [e|]; [|discriminate]. inversion Hrun; subst; repeat split.
  - destruct m as [e|]; [|discriminate]. inversion Hrun; subst; repeat split.
  - inversion Hrun; subst; repeat split.
Qed.

(** ** bolt.EndpointInfoDaoImpl *)

Section EndpointProperties.

Variable Unmarshal : list Byte.byte -> bolt.EndpointInfo * option error.

Lemma well_formed_endpoints_app :
  forall b1 b2,
    well_formed_endpoints Unmarshal (b1 ++ b2)
    = well_formed_endpoints Unmarshal b1 ++ well_formed_endpoints Unmarshal b2.
Proof. intros b1 b2. unfold well_formed_endpoints. apply flat_map_app. Qed.

Lemma well_formed_endpoints_rev :
  forall b, well_formed_endpoints Unmarshal (rev b) = rev (well_formed_endpoints Unmarshal b).
Proof.
  induction b as [|[k v] rest IH]; [reflexivity|].
  simpl rev. rewrite well_formed_endpoints_app, IH.
  change (well_formed_endpoints Unmarshal ((k, v) :: rest))
    with (well_formed_endpoints Unmarshal [(k, v)] ++ well_formed_endpoints Unmarshal rest).
  rewrite rev_app_distr. f_equal.
  unfold well_formed_endpoints. simpl. now destruct (Unmarshal v) as [e [err|]].
Qed.

Lemma bolt_SelectList_loop_filter :
  forall name host cursor list,
    bolt.SelectList_loop Unmarshal name host cursor list
    = list ++ filter (endpoint_match name host) (well_formed_endpoints Unmarshal cursor).
Proof.
  intros name host cursor. induction cursor as [|[k v] next IH]; intros list.
  - simpl. now rewrite app_nil_r.
  - cbn [bolt.SelectList_loop well_formed_endpoints flat_map snd].
    fold (well_formed_endpoints Unmarshal next).
    destruct (Unmarshal v) as [entity [err|]]; [apply IH|].
    cbn [app filter]. unfold endpoint_match at 1.
    destruct (name =? "")%string, (Contains (bolt.Name entity) name),
             (host =? "")%string, (Contains (bolt.Addresses entity) host);
      cbn [negb andb orb]; rewrite IH; try reflexivity;
      rewrite <- app_assoc; reflexivity.
Qed.

(** X26.  [SelectList] of the endpoint DAO walks the bucket from the last
    key to the first: it returns the well-formed records that pass the
    filters (name and addresses by substring, an empty filter passing
    everything) in the reverse of the cursor order, and never fails. *)
Theorem bolt_SelectList_in_reverse_order :
  forall name host b,
    bolt.SelectList Unmarshal name host b
    = (rev (filter (endpoint_match name host) (well_formed_endpoints Unmarshal b)), None)
    /\ forall e,
         In e (fst (bolt.SelectList Unmarshal name host b))
         <-> In e (well_formed_endpoints Unmarshal b)
             /\ (name = EmptyString
                 \/ exists pre post, bolt.Name e = (pre ++ name ++ post)%string)
             /\ (host = EmptyString
                 \/ exists pre post, bolt.Addresses e = (pre ++ host ++ post)%string).
Proof.
  intros name host b.
  assert (Heq : bolt.SelectList Unmarshal name host b
                = (rev (filter (endpoint_match name host)
                          (well_formed_endpoints Unmarshal b)), None)).
  { unfold bolt.SelectList. rewrite bolt_SelectList_loop_filter. simpl.
    now rewrite well_formed_endpoints_rev, filter_rev. }
  split; [exact Heq|]. intro e. rewrite Heq. cbn [fst].
  rewrite <- in_rev, filter_In. unfold endpoint_match.
  rewrite andb_true_iff, !orb_true_iff, !String.eqb_eq, !Contains_spec. tauto.
Qed.

Lemma bolt_GetByName_loop_find :
  forall name cursor entity,
    match find (fun e => (name =? bolt.Name e)%string)
            (well_formed_endpoints Unmarshal cursor) with
    | Some e => bolt.GetByName_loop Unmarshal name cursor entity false = (e, true)
    | None => snd (bolt.GetByName_loop Unmarshal name cursor entity false) = false
    end.
Proof.
  intros name cursor. induction cursor as [|[k v] next IH]; intros entity.
  - reflexivity.
  - cbn [bolt.GetByName_loop well_formed_endpoints flat_map snd].
    fold (well_formed_endpoints Unmarshal next).
    destruct (Unmarshal v) as [e [err|]]; [apply IH|].
    cbn [app find]. destruct (name =? bolt.Name e)%string; [reflexivity | apply IH].
Qed.

(** X27.  [GetByName] returns the first well-formed record, in cursor
    order, whose name equals the given name, and logs nothing; when there is
    none it returns [NotFound] and logs one warning.  A record that does not
    decode is passed over. *)
Theorem bolt_GetByName_first_exact_match :
  forall name b,
    bolt.GetByName Unmarshal name b
    = match find (fun e => (name =? bolt.Name e)%string)
              (well_formed_endpoints Unmarshal b) with
      | Some e => ([], (Some e, None))
      | None => ([bolt.Warnf_not_found name], (None, Some NotFound))
      end.
Proof.
  intros name b. unfold bolt.GetByName.
  pose proof (bolt_GetByName_loop_find name b
                (bolt.mkEndpointInfo 0 EmptyString EmptyString)) as H.
  destruct (find _ (well_formed_endpoints Unmarshal b)).
  - now rewrite H.
  - destruct (bolt.GetByName_loop Unmarshal name b _ false) as [e found].
    simpl in H. now subst found.
Qed.

End EndpointProperties.

(** ** sysutils *)

Lemma Replace_backslash_get :
  forall dir n,
    String.get n (sysutils.Replace_backslash dir)
    = option_map (fun c => if Ascii.eqb c "\"%char then "/"%char else c) (String.get n dir).
Proof.
  induction dir as [|c rest IH]; intros n; simpl; [reflexivity|].
  destruct n as [|n]; [reflexivity | apply IH].
Qed.

(** X28.  [CurrentDirectory] returns the path with every backslash turned
    into a slash: the result has the length of the path and no backslash,
    and every other character stays where it is. *)
Theorem CurrentDirectory_has_no_backslash :
  forall abs,
    String.length (sysutils.CurrentDirectory abs) = String.length (fst abs)
    /\ (forall n, String.get n (sysutils.CurrentDirectory abs) <> Some "\"%char)
    /\ (forall n c,
          String.get n (fst abs) = Some c -> c <> "\"%char ->
          String.get n (sysutils.CurrentDirectory abs) = Some c).
Proof.
  intros [dir err]. unfold sysutils.CurrentDirectory. cbn [fst]. repeat split.
  - induction dir as [|c rest IH]; simpl; [reflexivity | now rewrite IH].
  - intros n. rewrite Replace_backslash_get.
    destruct (String.get n dir) as [c|]; simpl; [|discriminate].
    destruct (Ascii.eqb c "\"%char) eqn:E; [discriminate|].
    apply Ascii.eqb_neq in E. congruence.
  - intros n c Hget Hc. rewrite Replace_backslash_get, Hget. simpl.
    apply Ascii.eqb_neq in Hc. now rewrite Hc.
Qed.

(** ** Full reconciliation, end to end *)

Lemma find_NoDup_Id :
  forall (l : list PipelineInfo) e,
    NoDup (map Id l) -> In e l -> find (fun y => Id y =? Id e) l = Some e.
Proof.
  induction l as [|x rest IH]; intros e Hnd Hin; [contradiction|].
  simpl in *. apply NoDup_cons_iff in Hnd. destruct Hnd as (Hx & Hnd).
  destruct Hin as [-> | Hin]; [now rewrite Z.eqb_refl|].
  destruct (Id x =? Id e) eqn:E; [|now apply IH].
  apply Z.eqb_eq in E. exfalso. apply Hx. rewrite E. now apply in_map.
Qed.

Section EndToEnd.

Variable Marshal : PipelineInfo -> Result (list Byte.byte).
Variable Unmarshal : list Byte.byte -> PipelineInfo * option error.
Variable remoteSourceDao_SelectAllDataVersion
  : World -> World * Result (list MetadataVersion.t).
Variable compositeSourceDao_refreshAll
  : list MetadataVersion.t -> World -> World * Outcome (option error).
Variable remoteEndpointDao_SelectAllDataVersion
  : World -> World * Result (list MetadataVersion.t).
Variable compositeEndpointDao_refreshAll
  : list MetadataVersion.t -> World -> World * Outcome (option error).

Hypothesis Unmarshal_Marshal :
  forall e data, Marshal e = OK data -> Unmarshal data = (e, None).

(** X29.  When [RefreshMetadata] returns (it did not panic), the local
    pipeline bucket mirrors the coordinator as the pipeline block found it:
    every entity the coordinator holds is readable locally at a version at
    least the coordinator's, and the bucket holds no other id.  The
    coordinator holds each id once. *)
Theorem RefreshMetadata_makes_pipelines_current :
  forall w w1 w2 w',
    RefreshMetadata_block "SourceInfo" remoteSourceDao_SelectAllDataVersion
      compositeSourceDao_refreshAll w = (w1, Returned tt) ->
    RefreshMetadata_block "EndpointInfo" remoteEndpointDao_SelectAllDataVersion
      compositeEndpointDao_refreshAll w1 = (w2, Returned tt) ->
    NoDup (map Id (entities (remote w2))) ->
    RefreshMetadata Marshal Unmarshal
      remoteSourceDao_SelectAllDataVersion compositeSourceDao_refreshAll
      remoteEndpointDao_SelectAllDataVersion compositeEndpointDao_refreshAll w
    = (w', Returned tt) ->
    (forall e, In e (entities (remote w2)) ->
       exists l, Get Unmarshal (Id e) w' = (Some l, None) /\ DataVersion e <= DataVersion l)
    /\ (forall id, bucket_Get id (local w') <> None ->
          exists e, In e (entities (remote w2)) /\ Id e = id).
Proof.
  intros w w1 w2 w' Hsrc Hep Hnd Hrun. unfold RefreshMetadata in Hrun.
  rewrite Hsrc, Hep in Hrun.
  unfold RefreshMetadata_block, remotePipelineDao_SelectAllDataVersion in Hrun.
  unfold remote_SelectAllDataVersion, remote_call in Hrun. simpl in Hrun.
  set (r1 := {| entities := entities (remote w2); script := tl (script (remote w2));
                calls := calls (remote w2) ++ [CallSelectAllDataVersion] |}) in *.
  set (standards := map (fun e => MetadataVersion.mk (Id e) (DataVersion e))
                      (entities (remote w2))) in *.
  assert (Hall : refreshAll Marshal Unmarshal standards (set_remote w2 r1)
                 = (w', Returned None)).
  { destruct (script (remote w2)) as [|[e|] s]; simpl in Hrun; try discriminate;
      destruct (refreshAll Marshal Unmarshal standards (set_remote w2 r1)) as [w4 [[e|]|p]];
      try discriminate; inversion Hrun; subst; reflexivity. }
  clear Hrun.
  destruct (refreshAll_postcondition Marshal Unmarshal Unmarshal_Marshal _ _ _ Hall)
    as (Hcur & Hkeys).
  - intros s body Hs Hf. apply in_map_iff in Hs. destruct Hs as (e & <- & He).
    simpl in *. unfold remote_find in Hf. simpl in Hf.
    rewrite (find_NoDup_Id _ e Hnd He) in Hf. inversion Hf; subst. lia.
  - split.
    + intros e He.
      destruct (Hcur (MetadataVersion.mk (Id e) (DataVersion e))) as (l & Hget & Hle).
      * apply in_map_iff. now exists e.
      * exists l. split; assumption.
    + intros id Hsome. specialize (Hkeys id Hsome).
      apply in_map_iff in Hkeys. destruct Hkeys as (s & Hid & Hs).
      apply in_map_iff in Hs. destruct Hs as (e & <- & He). exists e. split; assumption.
Qed.

End EndToEnd.

(** ** Worked instances of the further properties *)

Lemma w_refresh_sorted : bucket_sorted (local w_refresh).
Proof. unfold bucket_sorted. simpl. repeat constructor. Qed.

Lemma w_refresh_keyed : bucket_keyed wire_Unmarshal (local w_refresh).
Proof.
  intros k v e [H | [H | []]] Hu; inversion H; subst; vm_compute in Hu;
    inversion Hu; reflexivity.
Qed.

Lemma w_scan_sorted : bucket_sorted (local w_scan).
Proof. unfold bucket_sorted. simpl. repeat constructor. Qed.

Lemma w_scan_keyed : bucket_keyed wire_Unmarshal (local w_scan).
Proof.
  intros k v e [H | [H | [H | []]]] Hu; inversion H; subst; vm_compute in Hu;
    inversion Hu; reflexivity.
Qed.

Lemma manifest_refresh_not_ahead :
  forall s body,
    In s manifest_refresh ->
    remote_find (MetadataVersion.Id s) (remote w_refresh) = Some body ->
    MetadataVersion.Version s <= DataVersion body.
Proof.
  intros s body [<- | [<- | []]] Hf; vm_compute in Hf; inversion Hf; subst;
    vm_compute; discriminate.
Qed.

Lemma Save_then_Get_witness :
  Get wire_Unmarshal 2 (fst (Save wire_Marshal (pipeline 2 "p2" 0) w_cascade))
  = (Some (pipeline 2 "p2" 0), None)
  /\ (forall id, id <> 2 ->
        Get wire_Unmarshal id (fst (Save wire_Marshal (pipeline 2 "p2" 0) w_cascade))
        = Get wire_Unmarshal id w_cascade)
  /\ remote (fst (Save wire_Marshal (pipeline 2 "p2" 0) w_cascade)) = remote w_cascade
  /\ logs (fst (Save wire_Marshal (pipeline 2 "p2" 0) w_cascade)) = logs w_cascade.
Proof.
  apply (Save_then_Get wire_Marshal wire_Unmarshal wire_Unmarshal_Marshal
           (pipeline 2 "p2" 0) w_cascade).
  vm_compute. reflexivity.
Defined.

Lemma CascadeInsert_failure_rolls_back_witness :
  local (fst (fst (CascadeInsert wire_Marshal insert_down (pipeline 2 "p2" 0) w_cascade)))
  = local w_cascade
  /\ logs (fst (fst (CascadeInsert wire_Marshal insert_down (pipeline 2 "p2" 0) w_cascade)))
     = logs w_cascade
  /\ snd (fst (CascadeInsert wire_Marshal insert_down (pipeline 2 "p2" 0) w_cascade)) = None
  /\ (wire_Marshal (pipeline 2 "p2" 0) = Err CoordinatorUnavailable
      /\ remote (fst (fst (CascadeInsert wire_Marshal insert_down (pipeline 2 "p2" 0)
                             w_cascade))) = remote w_cascade
      \/ insert_down (pipeline 2 "p2" 0) (remote w_cascade)
         = (remote (fst (fst (CascadeInsert wire_Marshal insert_down (pipeline 2 "p2" 0)
                                w_cascade))), Some CoordinatorUnavailable)).
Proof.
  apply (CascadeInsert_failure_rolls_back wire_Marshal insert_down
           (pipeline 2 "p2" 0) w_cascade).
  vm_compute. reflexivity.
Defined.

Lemma CascadeInsert_success_witness :
  Get wire_Unmarshal 2
    (fst (fst (CascadeInsert wire_Marshal insert_ok (pipeline 2 "p2" 0) w_cascade)))
  = (Some (pipeline 2 "p2" 0), None)
  /\ (forall id, id <> 2 ->
        Get wire_Unmarshal id
          (fst (fst (CascadeInsert wire_Marshal insert_ok (pipeline 2 "p2" 0) w_cascade)))
        = Get wire_Unmarshal id w_cascade)
  /\ insert_ok (pipeline 2 "p2" 0) (remote w_cascade)
     = (remote (fst (fst (CascadeInsert wire_Marshal insert_ok (pipeline 2 "p2" 0)
                            w_cascade))), None)
  /\ snd (fst (CascadeInsert wire_Marshal insert_ok (pipeline 2 "p2" 0) w_cascade))
     = Some (Infof_CascadeInsert "p2").
Proof.
  apply (CascadeInsert_success wire_Marshal wire_Unmarshal insert_ok wire_Unmarshal_Marshal
           (pipeline 2 "p2" 0) w_cascade).
  vm_compute. reflexivity.
Defined.

Lemma CascadeDelete_follows_the_coordinator_witness :
  delete_down 1 (remote w_cascade)
  = (remote (fst (fst (CascadeDelete delete_down 1 w_cascade))), Some CoordinatorUnavailable)
  /\ (forall k, k <> 1 ->
        Get wire_Unmarshal k (fst (fst (CascadeDelete delete_down 1 w_cascade)))
        = Get wire_Unmarshal k w_cascade)
  /\ local (fst (fst (CascadeDelete delete_down 1 w_cascade))) = local w_cascade
  /\ snd (fst (CascadeDelete delete_down 1 w_cascade)) = None.
Proof.
  apply (CascadeDelete_follows_the_coordinator wire_Unmarshal delete_down 1 w_cascade
           _ _ (Some CoordinatorUnavailable)).
  vm_compute. reflexivity.
Defined.

Lemma CascadeUpdate_version_read_fails_witness :
  snd (CascadeUpdate wire_Marshal p1_renamed w_down) = (0, Some CoordinatorUnavailable)
  /\ snd (fst (CascadeUpdate wire_Marshal p1_renamed w_down)) = p1_renamed
  /\ local (fst (fst (CascadeUpdate wire_Marshal p1_renamed w_down))) = local w_down
  /\ logs (fst (fst (CascadeUpdate wire_Marshal p1_renamed w_down))) = logs w_down
  /\ entities (remote (fst (fst (CascadeUpdate wire_Marshal p1_renamed w_down))))
     = entities (remote w_down)
  /\ calls (remote (fst (fst (CascadeUpdate wire_Marshal p1_renamed w_down))))
     = calls (remote w_down) ++ [CallGetDataVersion (Id p1_renamed)].
Proof.
  apply (CascadeUpdate_version_read_fails wire_Marshal p1_renamed w_down
           CoordinatorUnavailable).
  vm_compute. reflexivity.
Defined.

Lemma CascadeUpdate_touches_one_id_witness :
  bucket_Get 4 (local (fst (fst (CascadeUpdate wire_Marshal (pipeline 2 "p2-renamed" 0)
                                   w_refresh))))
  = bucket_Get 4 (local w_refresh)
  /\ remote_find 4 (remote (fst (fst (CascadeUpdate wire_Marshal (pipeline 2 "p2-renamed" 0)
                                        w_refresh))))
     = remote_find 4 (remote w_refresh).
Proof.
  apply (CascadeUpdate_touches_one_id wire_Marshal (pipeline 2 "p2-renamed" 0) w_refresh 4).
  simpl. lia.
Defined.

Lemma CascadeUpdate_twice_witness :
  2 = int32_add 1 1
  /\ pipeline 1 "p1-again" 2 = set_DataVersion (pipeline 1 "p1-again" 0) 2
  /\ Get wire_Unmarshal (Id p1_renamed)
       (fst (fst (CascadeUpdate wire_Marshal (pipeline 1 "p1-again" 0)
                    (fst (fst (CascadeUpdate wire_Marshal p1_renamed w_cascade))))))
     = (Some (pipeline 1 "p1-again" 2), None)
  /\ stored_version (Id p1_renamed)
       (remote (fst (fst (CascadeUpdate wire_Marshal (pipeline 1 "p1-again" 0)
                            (fst (fst (CascadeUpdate wire_Marshal p1_renamed w_cascade)))))))
     = Some 2.
Proof.
  apply (CascadeUpdate_twice wire_Marshal wire_Unmarshal wire_Unmarshal_Marshal
           p1_renamed (pipeline 1 "p1-again" 0) w_cascade
           (fst (fst (CascadeUpdate wire_Marshal p1_renamed w_cascade)))
           (pipeline 1 "p1-renamed" 1) 1 _ (pipeline 1 "p1-again" 2) 2).
  - reflexivity.
  - vm_compute. reflexivity.
  - vm_compute. reflexivity.
Defined.

Lemma refreshAll_failure_keeps_the_bucket_witness :
  local (fst (refreshAll wire_Marshal wire_Unmarshal [MetadataVersion.mk 1 5] w_down))
  = local w_down.
Proof.
  apply (refreshAll_failure_keeps_the_bucket wire_Marshal wire_Unmarshal
           [MetadataVersion.mk 1 5] w_down _ (Returned (Some CoordinatorUnavailable))).
  - vm_compute. reflexivity.
  - discriminate.
Defined.

Lemma refreshAll_makes_the_bucket_current_witness :
  (forall s, In s manifest_refresh ->
     exists l,
       Get wire_Unmarshal (MetadataVersion.Id s)
         (fst (refreshAll wire_Marshal wire_Unmarshal manifest_refresh w_refresh))
       = (Some l, None)
       /\ MetadataVersion.Version s <= DataVersion l)
  /\ (forall id,
        bucket_Get id
          (local (fst (refreshAll wire_Marshal wire_Unmarshal manifest_refresh w_refresh)))
        <> None ->
        In id (map MetadataVersion.Id manifest_refresh)).
Proof.
  apply (refreshAll_makes_the_bucket_current wire_Marshal wire_Unmarshal
           wire_Unmarshal_Marshal manifest_refresh w_refresh).
  - vm_compute. reflexivity.
  - exact manifest_refresh_not_ahead.
Defined.

Lemma refreshAll_idempotent_witness :
  exists w'',
    refreshAll wire_Marshal wire_Unmarshal manifest_refresh
      (fst (refreshAll wire_Marshal wire_Unmarshal manifest_refresh w_refresh))
    = (w'', Returned None)
    /\ local w''
       = local (fst (refreshAll wire_Marshal wire_Unmarshal manifest_refresh w_refresh))
    /\ remote w''
       = remote (fst (refreshAll wire_Marshal wire_Unmarshal manifest_refresh w_refresh)).
Proof.
  apply (refreshAll_idempotent wire_Marshal wire_Unmarshal wire_Unmarshal_Marshal
           manifest_refresh w_refresh).
  - vm_compute. reflexivity.
  - exact manifest_refresh_not_ahead.
Defined.

Lemma refreshOne_touches_one_id_witness :
  bucket_Get 4 (local (fst (refreshOne wire_Marshal wire_Unmarshal 2 5 w_refresh)))
  = bucket_Get 4 (local w_refresh).
Proof.
  apply (refreshOne_touches_one_id wire_Marshal wire_Unmarshal 2 5 w_refresh 4). lia.
Defined.

Lemma refreshOne_needs_a_readable_local_copy_witness :
  local (fst (refreshOne wire_Marshal wire_Unmarshal 3 1 w_new_remote)) = local w_new_remote.
Proof.
  apply (refreshOne_needs_a_readable_local_copy wire_Marshal wire_Unmarshal 3 1 w_new_remote).
  vm_compute. reflexivity.
Defined.

Lemma refreshOne_overwrites_older_copy_witness :
  snd (refreshOne wire_Marshal wire_Unmarshal 1 2 w_stale) = None
  /\ Get wire_Unmarshal 1 (fst (refreshOne wire_Marshal wire_Unmarshal 1 2 w_stale))
     = (Some (pipeline 1 "p1" 2), None).
Proof.
  apply (refreshOne_overwrites_older_copy wire_Marshal wire_Unmarshal wire_Unmarshal_Marshal
           1 2 w_stale p1 (fst (remote_Get 1 (remote w_stale))) (pipeline 1 "p1" 2)
           (stored (pipeline 1 "p1" 2))).
  - vm_compute. reflexivity.
  - simpl. lia.
  - vm_compute. reflexivity.
  - vm_compute. reflexivity.
Defined.

Lemma refreshOne_follows_remote_deletion_witness :
  snd (refreshOne wire_Marshal wire_Unmarshal 1 9 w_deleted_upstream) = None
  /\ Get wire_Unmarshal 1 (fst (refreshOne wire_Marshal wire_Unmarshal 1 9 w_deleted_upstream))
     = (None, Some NotFound)
  /\ logs (fst (refreshOne wire_Marshal wire_Unmarshal 1 9 w_deleted_upstream))
     = logs w_deleted_upstream
       ++ [Infof_refreshOne_delete (Name (pipeline 1 "p1" 5)) (DataVersion (pipeline 1 "p1" 5))].
Proof.
  apply (refreshOne_follows_remote_deletion wire_Marshal wire_Unmarshal 1 9
           w_deleted_upstream (pipeline 1 "p1" 5)
           (fst (remote_Get 1 (remote w_deleted_upstream)))).
  - vm_compute. reflexivity.
  - vm_compute. reflexivity.
Defined.

Lemma dao_writes_keep_the_bucket_well_keyed_witness :
  (forall entity,
      bucket_sorted (local (fst (Save wire_Marshal entity w_refresh)))
      /\ bucket_keyed wire_Unmarshal (local (fst (Save wire_Marshal entity w_refresh))))
  /\ (forall id,
        bucket_sorted (local (fst (Delete id w_refresh)))
        /\ bucket_keyed wire_Unmarshal (local (fst (Delete id w_refresh))))
  /\ (forall entity,
        bucket_sorted (local (fst (fst (CascadeInsert wire_Marshal insert_ok entity w_refresh))))
        /\ bucket_keyed wire_Unmarshal
             (local (fst (fst (CascadeInsert wire_Marshal insert_ok entity w_refresh)))))
  /\ (forall entity,
        bucket_sorted (local (fst (fst (CascadeUpdate wire_Marshal entity w_refresh))))
        /\ bucket_keyed wire_Unmarshal
             (local (fst (fst (CascadeUpdate wire_Marshal entity w_refresh)))))
  /\ (forall id,
        bucket_sorted (local (fst (fst (CascadeDelete delete_ok id w_refresh))))
        /\ bucket_keyed wire_Unmarshal
             (local (fst (fst (CascadeDelete delete_ok id w_refresh)))))
  /\ (forall standards,
        bucket_sorted (local (fst (refreshAll wire_Marshal wire_Unmarshal standards w_refresh)))
        /\ bucket_keyed wire_Unmarshal
             (local (fst (refreshAll wire_Marshal wire_Unmarshal standards w_refresh))))
  /\ (forall id version,
        bucket_sorted (local (fst (refreshOne wire_Marshal wire_Unmarshal id version w_refresh)))
        /\ bucket_keyed wire_Unmarshal
             (local (fst (refreshOne wire_Marshal wire_Unmarshal id version w_refresh)))).
Proof.
  exact (dao_writes_keep_the_bucket_well_keyed wire_Marshal wire_Unmarshal
           insert_ok delete_ok wire_Unmarshal_Marshal w_refresh
           w_refresh_sorted w_refresh_keyed).
Defined.

Lemma SelectList_by_increasing_id_witness :
  StronglySorted Z.lt
    (map Id (fst (snd (SelectList wire_Unmarshal 0 (by_name "p1") w_scan)))).
Proof.
  exact (SelectList_by_increasing_id wire_Unmarshal 0 (by_name "p1") w_scan
           w_scan_sorted w_scan_keyed).
Defined.

Lemma GetByParam_returns_least_id_witness :
  GetByParam_match (by_name "") p1 = true
  /\ forall e',
       In e' (well_formed_records wire_Unmarshal (local w_scan)) ->
       GetByParam_match (by_name "") e' = true ->
       Id p1 <= Id e'.
Proof.
  apply (GetByParam_returns_least_id wire_Unmarshal (by_name "") w_scan p1
           w_scan_sorted w_scan_keyed).
  vm_compute. reflexivity.
Defined.

Lemma GetByParam_result_in_SelectList_witness :
  In p1 (fst (snd (SelectList wire_Unmarshal 0 (by_name "p1") w_scan))).
Proof.
  apply (GetByParam_result_in_SelectList wire_Unmarshal 0 (by_name "p1") w_scan p1).
  - reflexivity.
  - reflexivity.
  - vm_compute. reflexivity.
Defined.

Lemma Batch_stops_at_first_error_witness :
  Batch unit (fun lua : bool => lua) parse_even parse_even ([2; 4] ++ 3 :: [6])%nat true tt
  = (tt, (0, Some SerializationError)).
Proof.
  apply (Batch_stops_at_first_error nat bool unit unit (fun lua : bool => lua)
           parse_even parse_even [2; 4]%nat 3%nat [6]%nat true tt SerializationError).
  - simpl. repeat split.
  - reflexivity.
Defined.

Lemma marshalId_keys_witness :
  List.length (marshalId 1) = 8%nat
  /\ bytes_compare (marshalId 1) (marshalId 258) = (1 ?= 258)
  /\ (marshalId 1 = marshalId 258 -> 1 = 258).
Proof. apply (marshalId_keys 1 258); lia. Defined.

Lemma Initialize_etcd_binds_no_dao_witness :
  Initialize (AppConfig.mk true ClusterCoordinatorEtcd) None None None nil_Daos
  = (mkDaos true true true None None None None None None, None).
Proof.
  apply (Initialize_etcd_binds_no_dao (AppConfig.mk true ClusterCoordinatorEtcd) None None);
    reflexivity.
Defined.

Lemma Initialize_binds_one_backend_witness :
  (AppConfig.IsCluster (AppConfig.mk true ClusterCoordinatorMySQL) = false
   /\ mkDaos true true true (Some MySQLDao) (Some MySQLDao) (Some MySQLDao)
        (Some (MySQLMetadataDao 1)) (Some (MySQLMetadataDao 2)) (Some (MySQLMetadataDao 3))
      = mkDaos true true true (Some LocalDao) (Some LocalDao) None None None None)
  \/ (AppConfig.IsCluster (AppConfig.mk true ClusterCoordinatorMySQL) = true
      /\ AppConfig.GetClusterCoordinator (AppConfig.mk true ClusterCoordinatorMySQL)
         = ClusterCoordinatorZookeeper
      /\ @None error = None
      /\ mkDaos true true true (Some MySQLDao) (Some MySQLDao) (Some MySQLDao)
           (Some (MySQLMetadataDao 1)) (Some (MySQLMetadataDao 2)) (Some (MySQLMetadataDao 3))
         = mkDaos true true true (Some ZookeeperDao) (Some ZookeeperDao)
             (Some ZookeeperDao) (Some ZookeeperDao) (Some ZookeeperDao)
             (Some ZookeeperDao))
  \/ (AppConfig.IsCluster (AppConfig.mk true ClusterCoordinatorMySQL) = true
      /\ AppConfig.GetClusterCoordinator (AppConfig.mk true ClusterCoordinatorMySQL)
         = ClusterCoordinatorMySQL
      /\ @None error = None
      /\ mkDaos true true true (Some MySQLDao) (Some MySQLDao) (Some MySQLDao)
           (Some (MySQLMetadataDao 1)) (Some (MySQLMetadataDao 2)) (Some (MySQLMetadataDao 3))
         = mkDaos true true true (Some MySQLDao) (Some MySQLDao) (Some MySQLDao)
             (Some (MySQLMetadataDao 1)) (Some (MySQLMetadataDao 2))
             (Some (MySQLMetadataDao 3))).
Proof.
  apply (Initialize_binds_one_backend (AppConfig.mk true ClusterCoordinatorMySQL)
           None None None).
  - reflexivity.
  - simpl. intros [_ H]. discriminate.
Defined.

Lemma Initialize_error_binds_no_dao_witness :
  positionDao (fst (Initialize (AppConfig.mk true (ClusterCoordinatorOther 9))
                      None None None nil_Daos)) = positionDao nil_Daos
  /\ stateDao (fst (Initialize (AppConfig.mk true (ClusterCoordinatorOther 9))
                      None None None nil_Daos)) = stateDao nil_Daos
  /\ machineDao (fst (Initialize (AppConfig.mk true (ClusterCoordinatorOther 9))
                        None None None nil_Daos)) = machineDao nil_Daos
  /\ remoteSourceDao (fst (Initialize (AppConfig.mk true (ClusterCoordinatorOther 9))
                             None None None nil_Daos)) = remoteSourceDao nil_Daos
  /\ remoteEndpointDao (fst (Initialize (AppConfig.mk true (ClusterCoordinatorOther 9))
                               None None None nil_Daos)) = remoteEndpointDao nil_Daos
  /\ remotePipelineDao (fst (Initialize (AppConfig.mk true (ClusterCoordinatorOther 9))
                               None None None nil_Daos)) = remotePipelineDao nil_Daos.
Proof.
  apply (Initialize_error_binds_no_dao (AppConfig.mk true (ClusterCoordinatorOther 9))
           None None None nil_Daos _ NoCoordinatorConfigured).
  reflexivity.
Defined.

Lemma RefreshMetadata_makes_pipelines_current_witness :
  (forall e, In e (entities (remote w_refresh)) ->
     exists l,
       Get wire_Unmarshal (Id e)
         (fst (RefreshMetadata wire_Marshal wire_Unmarshal
                 no_versions no_refreshAll no_versions no_refreshAll w_refresh))
       = (Some l, None)
       /\ DataVersion e <= DataVersion l)
  /\ (forall id,
        bucket_Get id
          (local (fst (RefreshMetadata wire_Marshal wire_Unmarshal
                         no_versions no_refreshAll no_versions no_refreshAll w_refresh)))
        <> None ->
        exists e, In e (entities (remote w_refresh)) /\ Id e = id).
Proof.
  apply (RefreshMetadata_makes_pipelines_current wire_Marshal wire_Unmarshal
           no_versions no_refreshAll no_versions no_refreshAll wire_Unmarshal_Marshal
           w_refresh w_refresh w_refresh).
  - reflexivity.
  - reflexivity.
  - simpl. repeat constructor; simpl; intuition discriminate.
  - vm_compute. reflexivity.
Defined.

(** The endpoint scans on a sample bucket: records named "ab" and "abc"
    around one that does not decode. *)
Example bolt_scans_sample :
  bolt.SelectList endpoint_Unmarshal "ab" ""
    [(1, list_byte_of_string "ab"); (2, [Byte.xff]); (3, list_byte_of_string "abc")]
  = ([bolt.mkEndpointInfo 3 "abc" ""; bolt.mkEndpointInfo 2 "ab" ""], None)
  /\ bolt.GetByName endpoint_Unmarshal "abc"
       [(1, list_byte_of_string "ab"); (2, [Byte.xff]); (3, list_byte_of_string "abc")]
     = ([], (Some (bolt.mkEndpointInfo 3 "abc" ""), None))
  /\ bolt.GetByName endpoint_Unmarshal "a"
       [(1, list_byte_of_string "ab"); (2, [Byte.xff]); (3, list_byte_of_string "abc")]
     = ([bolt.Warnf_not_found "a"], (None, Some NotFound)).
Proof. vm_compute. repeat split. Qed.
